(** * Touch painter: brush rasteriser and touch-event state machine

    A shallow embedding of [code.py], the CircuitPython painting demo for the
    Qualia square display, and the properties of its drawing primitives
    ([draw_brush], [draw_line]) and of its polling loop (region dispatch,
    stroke tracking, button debouncing).

    Conventions of the embedding:
    - Python integers are [Z]; [//] is [Z.div] (both round towards minus
      infinity), [abs] and [max] are [Z.abs] and [Z.max].
    - Python floats are rationals [Q]; every float operation is the exact
      operation followed by the rounding [fl] of the float format, which is a
      parameter of the development.
    - An uncaught exception is the [Raise] result of the error monad.
    - [print] appends a message to the console log kept in the state. *)

From Stdlib Require Import String ZArith QArith Qround Qabs List FinFun Bool.
From Stdlib Require Import Lia Lqa Psatz.
Import ListNotations.
Open Scope Z_scope.

(** ** Exceptions and the error monad *)

Inductive exn : Type :=
| IndexError
| ZeroDivisionError.

Inductive result (A : Type) : Type :=
| Ok (a : A)
| Raise (e : exn).

Arguments Ok {A} a.
Arguments Raise {A} e.

Definition bind {A B : Type} (c : result A) (k : A -> result B) : result B :=
  match c with
  | Ok a => k a
  | Raise e => Raise e
  end.

Notation "x <- c ;; k" := (bind c (fun x => k))
  (at level 61, c at next level, right associativity).

(** [for a in l: body] with the state threaded through the iterations. *)
Fixpoint for_each {A S : Type} (l : list A) (body : A -> S -> result S) (s : S)
  : result S :=
  match l with
  | [] => Ok s
  | a :: l' => s' <- body a s ;; for_each l' body s'
  end.

(** [range(lo, hi)]. *)
Definition range (lo hi : Z) : list Z :=
  map (fun k => lo + Z.of_nat k) (seq 0 (Z.to_nat (hi - lo))).

(** The chained comparison [lo <= v < hi]. *)
Definition between (lo v hi : Z) : bool := (lo <=? v) && (v <? hi).

(** [a // b]. *)
Definition floordiv (a b : Z) : result Z :=
  if b =? 0 then Raise ZeroDivisionError else Ok (a / b).

(** [l[i]] on a Python list: a negative index counts from the end. *)
Definition list_getitem {A : Type} (l : list A) (i : Z) : result A :=
  let n := Z.of_nat (length l) in
  let k := if i <? 0 then i + n else i in
  if between 0 k n then
    match nth_error l (Z.to_nat k) with
    | Some a => Ok a
    | None => Raise IndexError
    end
  else Raise IndexError.

(** ** The pixel buffer ([displayio.Bitmap])

    A bitmap is its size and the value of each pixel. The class is the
    library's, not the program's: the model is meant for the accesses inside
    the size, the only ones that the program makes on a display at least as
    wide as the palette, and the properties below rest on no other. Outside
    the size the model raises [IndexError]. The values are the colours the
    program stores; the limit of the library on their number of bits is not
    part of the model. *)

Record Bitmap : Type := {
  bm_width : Z;
  bm_height : Z;
  bm_pixel : Z -> Z -> Z
}.

Definition in_bitmap (b : Bitmap) (x y : Z) : bool :=
  between 0 x (bm_width b) && between 0 y (bm_height b).

(** [bitmap[x, y]]. *)
Definition getitem (b : Bitmap) (x y : Z) : result Z :=
  if in_bitmap b x y then Ok (bm_pixel b x y) else Raise IndexError.

(** [bitmap[x, y] = v]. *)
Definition setitem (b : Bitmap) (x y v : Z) : result Bitmap :=
  if in_bitmap b x y then
    Ok {| bm_width := bm_width b;
          bm_height := bm_height b;
          bm_pixel := fun x' y' =>
            if (x' =? x) && (y' =? y) then v else bm_pixel b x' y' |}
  else Raise IndexError.

(** A bitmap whose pixels all hold [v]. *)
Definition blank (w h v : Z) : Bitmap :=
  {| bm_width := w; bm_height := h; bm_pixel := fun _ _ => v |}.

(** ** Floats *)

Definition Qgtb (a b : Q) : bool := negb (Qle_bool a b).

(** [int(q)]: truncation towards zero. *)
Definition int_of_float (q : Q) : Z :=
  if Qle_bool 0 q then Qfloor q else Qceiling q.

(** The float format with exact arithmetic (no rounding). *)
Definition exact (q : Q) : Q := q.

(** A format that keeps the multiples of [1 / scale], rounding down. *)
Definition fixed_point (scale : positive) (q : Q) : Q :=
  Qfloor (q * inject_Z (Zpos scale)) # scale.

(** [2 ^ e] for an integer exponent. *)
Definition pow2 (e : Z) : Q :=
  if 0 <=? e then inject_Z (2 ^ e) else 1 # Z.to_pos (2 ^ (- e)).

(** Rounding to the nearest integer, a tie to the even one. *)
Definition round_half_even (m : Q) : Z :=
  let f := Qfloor m in
  match (m - inject_Z f ?= 1 # 2)%Q with
  | Lt => f
  | Gt => f + 1
  | Eq => if Z.even f then f else f + 1
  end.

(** The exponent [k] with [2 ^ k <= n / d < 2 ^ (k + 1)], for [0 < n]. *)
Definition floor_log2 (n : Z) (d : positive) : Z :=
  let k := Z.log2 n - Z.log2 (Zpos d) in
  if Qle_bool (pow2 k) (n # d) then k else k - 1.

(** The floats of Python on a desktop, IEEE 754 binary64: a significand of
    53 bits, rounding to nearest, ties to even. The range of the exponent
    (overflow, subnormal numbers) is left out. *)
Definition binary64 (q : Q) : Q :=
  match Qnum q with
  | 0 => 0
  | _ =>
      let a := Qabs q in
      let e := floor_log2 (Qnum a) (Qden a) - 52 in
      let r := Qred (inject_Z (round_half_even (a / pow2 e)) * pow2 e) in
      if Qle_bool 0 q then r else Qopp r
  end.

(** What the proofs assume of a float format, the standard model of rounded
    arithmetic: rounding is monotone; the integers up to [maxint] in
    magnitude are representable; in that range the rounding error is at most
    the relative error [eps] (the unit roundoff) plus the absolute error
    [eta] (underflow). Binary64 has [maxint = 2^53], [eps = 2^-53] and
    [eta = 2^-1075]. *)
Record float_format (fl : Q -> Q) (eps eta : Q) (maxint : Z) : Prop := {
  fl_mono : forall p q : Q, (p <= q)%Q -> (fl p <= fl q)%Q;
  fl_int : forall n : Z, Z.abs n <= maxint -> (fl (inject_Z n) == inject_Z n)%Q;
  fl_err : forall q : Q, (Qabs q <= inject_Z maxint)%Q ->
                         (Qabs (fl q - q) <= eps * Qabs q + eta)%Q;
  fl_eps : (0 <= eps)%Q;
  fl_eta : (0 <= eta)%Q
}.

(** ** Drawing primitives *)

Section Painter.

(** [graphics.display.width] and [graphics.display.height]. *)
Variable display_width display_height : Z.

(** The rounding of the float format. *)
Variable fl : Q -> Q.

(** An integer operand of a float operation is converted first. *)
Definition of_int (n : Z) : Q := fl (inject_Z n).
Definition fadd (a b : Q) : Q := fl (a + b)%Q.
Definition fsub (a b : Q) : Q := fl (a - b)%Q.
Definition fmul (a b : Q) : Q := fl (a * b)%Q.

(** [a / b] on integers (true division). *)
Definition truediv (a b : Z) : result Q :=
  if b =? 0 then Raise ZeroDivisionError
  else Ok (fl (of_int a / of_int b)%Q).

Definition palette_width : Z := 160.
Definition section_height : Z := display_height / 9.
Definition brush_sizes : list Z := [1; 3; 6; 9; 12].

(** The offsets [range(-half_size, half_size + 1)] of both brush loops. *)
Definition brush_span (size : Z) : list Z :=
  let half_size := size / 2 in
  range (- half_size) (half_size + 1).

Definition draw_brush (bitmap : Bitmap) (x y color size : Z) : result Bitmap :=
  for_each (brush_span size) (fun i bitmap =>
    for_each (brush_span size) (fun j bitmap =>
      let x_pixel := x + i in
      let y_pixel := y + j in
      if between 0 x_pixel display_width && between 0 y_pixel display_height
      then setitem bitmap x_pixel y_pixel color
      else Ok bitmap) bitmap) bitmap.

(** [int(a + t * (b - a))]. *)
Definition interpolate (a b : Z) (t : Q) : Z :=
  int_of_float (fadd (of_int a) (fmul t (of_int (b - a)))).

Definition draw_line (bitmap : Bitmap) (x1 y1 x2 y2 color size : Z)
  : result Bitmap :=
  let dx := Z.abs (x2 - x1) in
  let dy := Z.abs (y2 - y1) in
  let steps := Z.max dx dy in
  if steps =? 0 then
    draw_brush bitmap x1 y1 color size
  else
    for_each (range 0 (steps + 1)) (fun i bitmap =>
      t <- truediv i steps ;;
      let x := interpolate x1 x2 t in
      let y := interpolate y1 y2 t in
      draw_brush bitmap x y color size) bitmap.

(** The centre of the stamp of iteration [i] of the loop of [draw_line]. *)
Definition stamp_centre (x1 y1 x2 y2 steps i : Z) : Z * Z :=
  let t := fl (of_int i / of_int steps)%Q in
  (interpolate x1 x2 t, interpolate y1 y2 t).

(** The centres of the calls of [draw_brush] that [draw_line] makes, in the
    order of the calls. *)
Definition stamp_centres (x1 y1 x2 y2 : Z) : list (Z * Z) :=
  let steps := Z.max (Z.abs (x2 - x1)) (Z.abs (y2 - y1)) in
  if steps =? 0 then [(x1, y1)]
  else map (stamp_centre x1 y1 x2 y2 steps) (range 0 (steps + 1)).

(** The two loops of the clear button. *)
Definition clear_drawing_area (bitmap : Bitmap) : result Bitmap :=
  for_each (range palette_width display_width) (fun x_clear bitmap =>
    for_each (range 0 display_height) (fun y_clear bitmap =>
      setitem bitmap x_clear y_clear 0) bitmap) bitmap.

(** ** The state of the polling loop *)

(** The lines the program prints. *)
Inductive message : Type :=
| MsgClearing                              (* Actually clearing bitmap... *)
| MsgCleared                               (* Cleared! *)
| MsgBrushSize (pixel_size : Z)            (* Brush size: {pixel_size} *)
| MsgColor (name : string) (color : Z).    (* Color: {name} ({hex(color)}) *)

Record painter : Type := {
  bitmap : Bitmap;
  current_brush_index : Z;
  pixel_size : Z;
  brush_label : Z;                 (* the n of the label text, SIZE {n} *)
  current_color : Z;
  last_touch_time : Q;
  last_draw_pos : option (Z * Z);
  is_drawing : bool;
  size_button_pressed : bool;
  size_button_last_change : Q;
  clear_button_pressed : bool;
  clear_button_last_change : Q;
  console : list message
}.

Definition touch_delay : Q := fl (5 # 1000).
Definition button_debounce_time : Q := fl (1 # 2).

Definition color_names : list string :=
  ["Blue"; "Cyan"; "Green"; "Yellow"; "Red"; "Magenta"; "White"; "Black"]%string.

(** The state before the first iteration, on the bitmap that
    [create_bitmap_and_palette] returned; [white] is
    [displayio.ColorConverter().convert(0xFFFFFF)]. *)
Definition initial_state (bm : Bitmap) (white : Z) : painter :=
  {| bitmap := bm;
     current_brush_index := 2;
     pixel_size := 6;
     brush_label := 6;
     current_color := white;
     last_touch_time := of_int 0;
     last_draw_pos := None;
     is_drawing := false;
     size_button_pressed := false;
     size_button_last_change := of_int 0;
     clear_button_pressed := false;
     clear_button_last_change := of_int 0;
     console := [] |}.

(** Assignments to the global variables. *)
Definition set_bitmap (bm : Bitmap) (st : painter) : painter :=
  {| bitmap := bm;
     current_brush_index := current_brush_index st;
     pixel_size := pixel_size st;
     brush_label := brush_label st;
     current_color := current_color st;
     last_touch_time := last_touch_time st;
     last_draw_pos := last_draw_pos st;
     is_drawing := is_drawing st;
     size_button_pressed := size_button_pressed st;
     size_button_last_change := size_button_last_change st;
     clear_button_pressed := clear_button_pressed st;
     clear_button_last_change := clear_button_last_change st;
     console := console st |}.

Definition set_brush (index size : Z) (st : painter) : painter :=
  {| bitmap := bitmap st;
     current_brush_index := index;
     pixel_size := size;
     brush_label := size;
     current_color := current_color st;
     last_touch_time := last_touch_time st;
     last_draw_pos := last_draw_pos st;
     is_drawing := is_drawing st;
     size_button_pressed := size_button_pressed st;
     size_button_last_change := size_button_last_change st;
     clear_button_pressed := clear_button_pressed st;
     clear_button_last_change := clear_button_last_change st;
     console := console st |}.

Definition set_current_color (color : Z) (st : painter) : painter :=
  {| bitmap := bitmap st;
     current_brush_index := current_brush_index st;
     pixel_size := pixel_size st;
     brush_label := brush_label st;
     current_color := color;
     last_touch_time := last_touch_time st;
     last_draw_pos := last_draw_pos st;
     is_drawing := is_drawing st;
     size_button_pressed := size_button_pressed st;
     size_button_last_change := size_button_last_change st;
     clear_button_pressed := clear_button_pressed st;
     clear_button_last_change := clear_button_last_change st;
     console := console st |}.

Definition set_last_touch_time (t : Q) (st : painter) : painter :=
  {| bitmap := bitmap st;
     current_brush_index := current_brush_index st;
     pixel_size := pixel_size st;
     brush_label := brush_label st;
     current_color := current_color st;
     last_touch_time := t;
     last_draw_pos := last_draw_pos st;
     is_drawing := is_drawing st;
     size_button_pressed := size_button_pressed st;
     size_button_last_change := size_button_last_change st;
     clear_button_pressed := clear_button_pressed st;
     clear_button_last_change := clear_button_last_change st;
     console := console st |}.

(** [last_draw_pos = pos] and [is_drawing = drawing]. *)
Definition set_stroke (pos : option (Z * Z)) (drawing : bool) (st : painter)
  : painter :=
  {| bitmap := bitmap st;
     current_brush_index := current_brush_index st;
     pixel_size := pixel_size st;
     brush_label := brush_label st;
     current_color := current_color st;
     last_touch_time := last_touch_time st;
     last_draw_pos := pos;
     is_drawing := drawing;
     size_button_pressed := size_button_pressed st;
     size_button_last_change := size_button_last_change st;
     clear_button_pressed := clear_button_pressed st;
     clear_button_last_change := clear_button_last_change st;
     console := console st |}.

Definition set_size_button_pressed (pressed : bool) (st : painter) : painter :=
  {| bitmap := bitmap st;
     current_brush_index := current_brush_index st;
     pixel_size := pixel_size st;
     brush_label := brush_label st;
     current_color := current_color st;
     last_touch_time := last_touch_time st;
     last_draw_pos := last_draw_pos st;
     is_drawing := is_drawing st;
     size_button_pressed := pressed;
     size_button_last_change := size_button_last_change st;
     clear_button_pressed := clear_button_pressed st;
     clear_button_last_change := clear_button_last_change st;
     console := console st |}.

Definition set_size_button_last_change (t : Q) (st : painter) : painter :=
  {| bitmap := bitmap st;
     current_brush_index := current_brush_index st;
     pixel_size := pixel_size st;
     brush_label := brush_label st;
     current_color := current_color st;
     last_touch_time := last_touch_time st;
     last_draw_pos := last_draw_pos st;
     is_drawing := is_drawing st;
     size_button_pressed := size_button_pressed st;
     size_button_last_change := t;
     clear_button_pressed := clear_button_pressed st;
     clear_button_last_change := clear_button_last_change st;
     console := console st |}.

Definition set_clear_button_pressed (pressed : bool) (st : painter) : painter :=
  {| bitmap := bitmap st;
     current_brush_index := current_brush_index st;
     pixel_size := pixel_size st;
     brush_label := brush_label st;
     current_color := current_color st;
     last_touch_time := last_touch_time st;
     last_draw_pos := last_draw_pos st;
     is_drawing := is_drawing st;
     size_button_pressed := size_button_pressed st;
     size_button_last_change := size_button_last_change st;
     clear_button_pressed := pressed;
     clear_button_last_change := clear_button_last_change st;
     console := console st |}.

Definition set_clear_button_last_change (t : Q) (st : painter) : painter :=
  {| bitmap := bitmap st;
     current_brush_index := current_brush_index st;
     pixel_size := pixel_size st;
     brush_label := brush_label st;
     current_color := current_color st;
     last_touch_time := last_touch_time st;
     last_draw_pos := last_draw_pos st;
     is_drawing := is_drawing st;
     size_button_pressed := size_button_pressed st;
     size_button_last_change := size_button_last_change st;
     clear_button_pressed := clear_button_pressed st;
     clear_button_last_change := t;
     console := console st |}.

(** [print(m)]. *)
Definition print (m : message) (st : painter) : painter :=
  {| bitmap := bitmap st;
     current_brush_index := current_brush_index st;
     pixel_size := pixel_size st;
     brush_label := brush_label st;
     current_color := current_color st;
     last_touch_time := last_touch_time st;
     last_draw_pos := last_draw_pos st;
     is_drawing := is_drawing st;
     size_button_pressed := size_button_pressed st;
     size_button_last_change := size_button_last_change st;
     clear_button_pressed := clear_button_pressed st;
     clear_button_last_change := clear_button_last_change st;
     console := console st ++ [m] |}.

(** ** One touch of a sample *)

(** The branch of the region dispatch that a touch takes. *)
Inductive hit : Type :=
| OutOfBounds                      (* the [continue] of the bounds test *)
| ClearButton                      (* [section == 7] *)
| SizeButton                       (* [section == 8] *)
| PaletteColor (section : Z)       (* [section < 7] *)
| Canvas                           (* [x >= palette_width] *)
| NoBranch.                        (* none of the tests holds *)

Definition classify (x y : Z) : result hit :=
  if negb (between 0 x display_width) || negb (between 0 y display_height)
  then Ok OutOfBounds
  else if x <? palette_width then
    section <- floordiv y section_height ;;
    if section =? 7 then Ok ClearButton
    else if section =? 8 then Ok SizeButton
    else if section <? 7 then Ok (PaletteColor section)
    else Ok NoBranch
  else if x >=? palette_width then Ok Canvas
  else Ok NoBranch.

Definition clear_button (current_time : Q) (st : painter) : result painter :=
  if negb (clear_button_pressed st) then
    if Qgtb (fsub current_time (clear_button_last_change st))
            button_debounce_time
    then
      let st := print MsgClearing st in
      bm <- clear_drawing_area (bitmap st) ;;
      let st := set_bitmap bm st in
      let st := print MsgCleared st in
      let st := set_clear_button_pressed true st in
      let st := set_clear_button_last_change current_time st in
      Ok (set_stroke None false st)
    else Ok st
  else Ok st.

Definition size_button (current_time : Q) (st : painter) : result painter :=
  if negb (size_button_pressed st) then
    if Qgtb (fsub current_time (size_button_last_change st))
            button_debounce_time
    then
      let index :=
        (current_brush_index st + 1) mod Z.of_nat (List.length brush_sizes) in
      size <- list_getitem brush_sizes index ;;
      let st := set_brush index size st in
      let st := print (MsgBrushSize size) st in
      let st := set_size_button_pressed true st in
      let st := set_size_button_last_change current_time st in
      Ok (set_stroke None false st)
    else Ok st
  else Ok st.

Definition color_selection (section x y : Z) (st : painter) : result painter :=
  color <- getitem (bitmap st) x y ;;
  let st := set_current_color color st in
  st <- (if section <? Z.of_nat (List.length color_names) then
           name <- list_getitem color_names section ;;
           Ok (print (MsgColor name color) st)
         else Ok st) ;;
  Ok (set_stroke None false st).

Definition drawing_area (x y : Z) (st : painter) : result painter :=
  bm <- match is_drawing st, last_draw_pos st with
        | true, Some (x0, y0) =>
            draw_line (bitmap st) x0 y0 x y (current_color st) (pixel_size st)
        | _, _ =>
            draw_brush (bitmap st) x y (current_color st) (pixel_size st)
        end ;;
  let st := set_bitmap bm st in
  Ok (set_stroke (Some (x, y)) true st).

(** The body of [for touch in graphics.touch.touches]. *)
Definition process_touch (current_time : Q) (touch : Z * Z) (st : painter)
  : result painter :=
  let (x, y) := touch in
  h <- classify x y ;;
  match h with
  | OutOfBounds => Ok st
  | _ =>
      st <- match h with
            | ClearButton => clear_button current_time st
            | SizeButton => size_button current_time st
            | PaletteColor section => color_selection section x y st
            | Canvas => drawing_area x y st
            | _ => Ok st
            end ;;
      Ok (set_last_touch_time current_time st)
  end.

(** ** The polling loop *)

(** What one iteration reads from the touch panel. *)
Inductive touch_poll : Type :=
| Untouched                          (* [graphics.touch.touched] is false *)
| TouchFault                         (* reading the touches raises RuntimeError *)
| Touching (touches : list (Z * Z)). (* the value of [graphics.touch.touches] *)

(** The [else] branch of the loop: the touch is released. *)
Definition touch_released (st : painter) : painter :=
  let st := if is_drawing st then set_stroke None false st else st in
  let st := set_size_button_pressed false st in
  set_clear_button_pressed false st.

(** One iteration of [while True], at time [current_time]. *)
Definition loop_iteration (sample : Q * touch_poll) (st : painter)
  : result painter :=
  let (current_time, poll) := sample in
  match poll with
  | Untouched => Ok (touch_released st)
  | TouchFault => Ok st
  | Touching touches =>
      if Qgtb (fsub current_time (last_touch_time st)) touch_delay
      then for_each touches (process_touch current_time) st
      else Ok st
  end.

(** The loop over a finite prefix of its iterations. *)
Definition run (samples : list (Q * touch_poll)) (st : painter)
  : result painter :=
  for_each samples loop_iteration st.

(** ** Vocabulary of the properties *)

(** The bitmap the program paints on has the size of the display. *)
Definition display_sized (b : Bitmap) : Prop :=
  bm_width b = display_width /\ bm_height b = display_height.

(** [bm'] is [bm] with the pixels selected by [P] set to [c]. *)
Definition paints (P : Z -> Z -> bool) (c : Z) (bm bm' : Bitmap) : Prop :=
  bm_width bm' = bm_width bm /\ bm_height bm' = bm_height bm /\
  forall px py, bm_pixel bm' px py = if P px py then c else bm_pixel bm px py.

(** The pixels one stamp sets: those of the display at Chebyshev distance at
    most [size // 2] from the centre. *)
Definition footprint (x y size px py : Z) : bool :=
  between 0 px display_width && between 0 py display_height &&
  (Z.max (Z.abs (px - x)) (Z.abs (py - y)) <=? size / 2).

(** The columns [x + i] and the rows [y + j] that the loops of a stamp visit,
    before the bounds test. *)
Definition stamp_columns (x size : Z) : list Z := map (Z.add x) (brush_span size).
Definition stamp_rows (y size : Z) : list Z := map (Z.add y) (brush_span size).

(** The pixels of row [y], and of column [x], in which [bm'] differs from
    [bm]. *)
Definition changed_in_row (bm bm' : Bitmap) (y : Z) : list Z :=
  filter (fun px => negb (bm_pixel bm' px y =? bm_pixel bm px y))
         (range 0 (bm_width bm)).
Definition changed_in_column (bm bm' : Bitmap) (x : Z) : list Z :=
  filter (fun py => negb (bm_pixel bm' x py =? bm_pixel bm x py))
         (range 0 (bm_height bm)).

(** The point of the segment from [a] to [b] at parameter [i / steps], one
    coordinate, in exact arithmetic. *)
Definition on_segment (a b i steps : Z) : Q :=
  inject_Z a + (inject_Z i / inject_Z steps) * inject_Z (b - a).

(** The stroke tracker is idle. *)
Definition idle (st : painter) : Prop :=
  is_drawing st = false /\ last_draw_pos st = None.

(** The two stroke variables agree. *)
Definition stroke_consistent (st : painter) : Prop :=
  is_drawing st = true <-> last_draw_pos st <> None.

(** The two momentary buttons. *)
Inductive button : Type := Clear | Size.

Definition button_hit (b : button) : hit :=
  match b with Clear => ClearButton | Size => SizeButton end.

Definition pressed (b : button) (st : painter) : bool :=
  match b with
  | Clear => clear_button_pressed st
  | Size => size_button_pressed st
  end.

Definition last_change (b : button) (st : painter) : Q :=
  match b with
  | Clear => clear_button_last_change st
  | Size => size_button_last_change st
  end.

(** The first line that the action of a button prints. *)
Definition announces (b : button) (m : message) : bool :=
  match b, m with
  | Clear, MsgClearing => true
  | Size, MsgBrushSize _ => true
  | _, _ => false
  end.

(** How many times the action of a button has run, read off the console. *)
Definition activations (b : button) (st : painter) : nat :=
  List.length (filter (announces b) (console st)).

(** At time [t], more than the debounce time has passed since the last
    change of the button. *)
Definition cooled (b : button) (t : Q) (st : painter) : bool :=
  Qgtb (fsub t (last_change b st)) button_debounce_time.

(** A touch on the button at time [t] runs its action: both tests of the
    debouncing succeed. *)
Definition fires (b : button) (t : Q) (st : painter) : bool :=
  negb (pressed b st) && cooled b t st.

(** A sample at time [t] passes the test on [touch_delay]. *)
Definition processed (t : Q) (st : painter) : bool :=
  Qgtb (fsub t (last_touch_time st)) touch_delay.

(** What the branch of a hit does to the state, as a relation: the state
    after the branch, before [last_touch_time] is assigned. *)
Inductive handled (t : Q) (x y : Z) (st : painter) : hit -> painter -> Prop :=
| handled_clear (bm' : Bitmap) :
    fires Clear t st = true -> display_sized bm' ->
    handled t x y st ClearButton
      (set_stroke None false
        (set_clear_button_last_change t
          (set_clear_button_pressed true
            (print MsgCleared (set_bitmap bm' (print MsgClearing st))))))
| handled_clear_debounced :
    fires Clear t st = false -> handled t x y st ClearButton st
| handled_size (size : Z) :
    fires Size t st = true ->
    handled t x y st SizeButton
      (set_stroke None false
        (set_size_button_last_change t
          (set_size_button_pressed true
            (print (MsgBrushSize size)
              (set_brush ((current_brush_index st + 1) mod 5) size st)))))
| handled_size_debounced :
    fires Size t st = false -> handled t x y st SizeButton st
| handled_color (section : Z) (name : string) :
    handled t x y st (PaletteColor section)
      (set_stroke None false
        (print (MsgColor name (bm_pixel (bitmap st) x y))
          (set_current_color (bm_pixel (bitmap st) x y) st)))
| handled_canvas (bm' : Bitmap) :
    display_sized bm' ->
    handled t x y st Canvas (set_stroke (Some (x, y)) true (set_bitmap bm' st))
| handled_nothing :
    handled t x y st NoBranch st.

(** The debouncing variables of a button and the count of its activations
    are the same in two states. *)
Definition same_latch (b : button) (st st' : painter) : Prop :=
  pressed b st' = pressed b st /\
  last_change b st' = last_change b st /\
  activations b st' = activations b st.

(** The action of the button ran once, at time [t], between two states. *)
Definition latched_once (b : button) (t : Q) (st st' : painter) : Prop :=
  pressed b st' = true /\
  last_change b st' = t /\
  activations b st' = S (activations b st).

(** A touch lands on a button. *)
Definition on_button (b : button) (touch : Z * Z) : Prop :=
  classify (fst touch) (snd touch) = Ok (button_hit b).

(** A sample in which some touch lands on the button. *)
Definition holds (b : button) (sample : Q * touch_poll) : Prop :=
  exists touches, snd sample = Touching touches /\
    exists touch, In touch touches /\ on_button b touch.

(** The times of the samples do not decrease, starting at [t]. *)
Fixpoint ascending (t : Q) (samples : list (Q * touch_poll)) : Prop :=
  match samples with
  | [] => True
  | s :: rest => (t <= fst s)%Q /\ ascending (fst s) rest
  end.

(** ** Vocabulary of the properties of the whole loop *)

(** The brush variables agree: the index is one of the list, [pixel_size] is
    the size at the index, and the label shows it. *)
Definition brush_consistent (st : painter) : Prop :=
  list_getitem brush_sizes (current_brush_index st) = Ok (pixel_size st) /\
  0 <= current_brush_index st < 5 /\
  brush_label st = pixel_size st.

(** The last point of the stroke in progress, if any, is a point of the
    canvas. *)
Definition stroke_on_canvas (st : painter) : Prop :=
  forall x y, last_draw_pos st = Some (x, y) ->
    palette_width <= x < display_width /\ 0 <= y < display_height.

(** The lines that join the points of [points], starting from [start]. *)
Fixpoint polyline (bm : Bitmap) (start : Z * Z) (points : list (Z * Z))
         (color size : Z) : result Bitmap :=
  match points with
  | [] => Ok bm
  | p :: rest =>
      bm <- draw_line bm (fst start) (snd start) (fst p) (snd p) color size ;;
      polyline bm p rest color size
  end.

(** A stroke through [points]: a stamp at the first one, then lines from each
    point to the next; from [Some start], lines from the start on. *)
Definition stroke (bm : Bitmap) (start : option (Z * Z)) (points : list (Z * Z))
           (color size : Z) : result Bitmap :=
  match start, points with
  | Some q, _ => polyline bm q points color size
  | None, [] => Ok bm
  | None, p :: rest =>
      bm <- draw_brush bm (fst p) (snd p) color size ;;
      polyline bm p rest color size
  end.

(** Where the next canvas touch continues from: the last point of the stroke
    in progress, if a stroke is in progress. *)
Definition stroke_start (st : painter) : option (Z * Z) :=
  if is_drawing st then last_draw_pos st else None.

(** The state is one the loop can be in: the bitmap has the size of the
    display, and the brush and stroke variables are consistent. *)
Definition steady (st : painter) : Prop :=
  display_sized (bitmap st) /\ brush_consistent st /\
  stroke_consistent st /\ stroke_on_canvas st.

(** The touches of [timed], each processed at its own time. *)
Definition process_touches (timed : list (Q * (Z * Z))) (st : painter)
  : result painter :=
  for_each timed (fun tp => process_touch (fst tp) (snd tp)) st.

End Painter.

(** ** Start-up: the bitmap with the palette, and the user interface *)

Section Setup.

Variable display_width display_height : Z.

(** [displayio.ColorConverter().convert]. *)
Variable convert : Z -> Z.

Definition r_mask : Z := 0xF800.
Definition g_mask : Z := 0x07E0.
Definition b_mask : Z := 0x001F.

Definition drawing_area_width : Z := display_width - palette_width.
Definition drawing_area_height : Z := display_height.

(** [color_index | color_index << 8 | color_index << 16] for column [i]. *)
Definition color_index (i : Z) : Z := i * 255 / palette_width.
Definition grey (i : Z) : Z :=
  let c := color_index i in
  Z.lor (Z.lor c (Z.shiftl c 8)) (Z.shiftl c 16).

(** [fresh] is the bitmap that [displayio.Bitmap(width, height, 65535)]
    returns. *)
Definition create_bitmap_and_palette (fresh : Bitmap) : result Bitmap :=
  let bitmap := fresh in
  bitmap <- for_each (range 0 display_width) (fun x bitmap =>
              for_each (range 0 display_height) (fun y bitmap =>
                setitem bitmap x y 0x0000) bitmap) bitmap ;;
  bitmap <- for_each (range 0 palette_width) (fun i bitmap =>
    let rgb565 := convert (grey i) in
    let sh := section_height display_height in
    for_each (range 0 sh) (fun j bitmap =>
      bitmap <- setitem bitmap i (j + sh * 0) (Z.land rgb565 b_mask) ;;
      bitmap <- setitem bitmap i (j + sh * 1)
                        (Z.land rgb565 (Z.lor b_mask g_mask)) ;;
      bitmap <- setitem bitmap i (j + sh * 2) (Z.land rgb565 g_mask) ;;
      bitmap <- setitem bitmap i (j + sh * 3)
                        (Z.land rgb565 (Z.lor r_mask g_mask)) ;;
      bitmap <- setitem bitmap i (j + sh * 4) (Z.land rgb565 r_mask) ;;
      bitmap <- setitem bitmap i (j + sh * 5)
                        (Z.land rgb565 (Z.lor r_mask b_mask)) ;;
      bitmap <- setitem bitmap i (j + sh * 6) rgb565 ;;
      setitem bitmap i (j + sh * 7) 0x0000) bitmap) bitmap ;;
  Ok bitmap.

(** The colour of band [k] of the palette, from the converted grey of the
    column. *)
Definition band_color (k rgb565 : Z) : Z :=
  if k =? 0 then Z.land rgb565 b_mask
  else if k =? 1 then Z.land rgb565 (Z.lor b_mask g_mask)
  else if k =? 2 then Z.land rgb565 g_mask
  else if k =? 3 then Z.land rgb565 (Z.lor r_mask g_mask)
  else if k =? 4 then Z.land rgb565 r_mask
  else if k =? 5 then Z.land rgb565 (Z.lor r_mask b_mask)
  else if k =? 6 then rgb565
  else 0.

(** The pixels of the bitmap at start-up: eight bands in the palette column,
    black elsewhere. *)
Definition palette_pixel (x y : Z) : Z :=
  let sh := section_height display_height in
  if between 0 x palette_width && between 0 y (8 * sh)
  then band_color (y / sh) (convert (grey x))
  else 0.

(** A [displayio.TileGrid] over a bitmap of one colour: its position, the
    size of its bitmap and the colour of its palette. *)
Record tile_grid : Type := {
  tile_x : Z;
  tile_y : Z;
  tile_width : Z;
  tile_height : Z;
  tile_color : Z
}.

(** The pixels of the display under a tile. *)
Definition covers (t : tile_grid) (x y : Z) : bool :=
  between (tile_x t) x (tile_x t + tile_width t) &&
  between (tile_y t) y (tile_y t + tile_height t).

(** The texts of the labels: CLEAR, and SIZE {n}. *)
Inductive caption : Type :=
| CaptionClear
| CaptionSize (n : Z).

(** A [label.Label] anchored at its centre. *)
Record text_label : Type := {
  label_text : caption;
  label_color : Z;
  label_scale : Z;
  anchored_position : Z * Z
}.

Inductive ui_element : Type :=
| Tile (t : tile_grid)
| Label (l : text_label).

(** The rectangle of [setup_fast_clear]. *)
Definition setup_fast_clear : tile_grid :=
  {| tile_x := palette_width;
     tile_y := 0;
     tile_width := drawing_area_width;
     tile_height := drawing_area_height;
     tile_color := 0x0000 |}.

Definition clear_tile : tile_grid :=
  let clear_y := section_height display_height * 7 in
  {| tile_x := 0;
     tile_y := clear_y;
     tile_width := palette_width;
     tile_height := section_height display_height;
     tile_color := 0x333333 |}.

Definition clear_label : text_label :=
  let clear_y := section_height display_height * 7 in
  {| label_text := CaptionClear;
     label_color := 0xFFFFFF;
     label_scale := 3;
     anchored_position :=
       (palette_width / 2, clear_y + section_height display_height / 2) |}.

Definition size_tile : tile_grid :=
  let size_y := section_height display_height * 8 in
  {| tile_x := 0;
     tile_y := size_y;
     tile_width := palette_width;
     tile_height := section_height display_height;
     tile_color := 0x444444 |}.

(** The label of the size button, for the brush index at start-up. *)
Definition size_label (current_brush_index : Z) : result text_label :=
  let size_y := section_height display_height * 8 in
  size <- list_getitem brush_sizes current_brush_index ;;
  Ok {| label_text := CaptionSize size;
        label_color := 0xFFFFFF;
        label_scale := 3;
        anchored_position :=
          (palette_width / 2, size_y + section_height display_height / 2) |}.

(** The group and the label that [create_ui_elements] returns. *)
Definition create_ui_elements (current_brush_index : Z)
  : result (list ui_element * text_label) :=
  brush_label <- size_label current_brush_index ;;
  Ok ([Tile clear_tile; Label clear_label; Tile size_tile; Label brush_label],
      brush_label).

End Setup.

(** The usual packing of a 24-bit colour into RGB565, to try the palette
    with. *)
Definition rgb565 (c : Z) : Z :=
  Z.lor (Z.lor (Z.shiftl (Z.shiftr c 19) 11)
               (Z.shiftl (Z.land (Z.shiftr c 10) 0x3F) 5))
        (Z.land (Z.shiftr c 3) 0x1F).


(** ** A display to try the program on *)

(** The 720 by 720 display of the source's comments, all black. *)
Definition demo_canvas : Bitmap := blank 720 720 0.

(** A 720 by 720 bitmap in which neighbouring pixels differ. *)
Definition demo_palette : Bitmap :=
  {| bm_width := 720;
     bm_height := 720;
     bm_pixel := fun x y => (x + 7 * y) mod 65536 |}.

(** The program at its first iteration, with exact float arithmetic. *)
Definition demo_painter : painter := initial_state exact demo_canvas 65535.

(** A finger put on the size button at time 1 and held there until time 5/2;
    a second finger joins on the canvas in the last sample. *)
Definition demo_hold : list (Q * touch_poll) :=
  [ (1%Q, Touching [(10, 650)]);
    ((3 # 2)%Q, Touching [(10, 650)]);
    ((5 # 2)%Q, Touching [(10, 650); (300, 300)]) ].

(** A finger that presses the size button, slides onto the canvas and back
    onto the button (still pressed), without leaving the screen. *)
Definition demo_slide : list (Q * touch_poll) :=
  [ (1%Q, Touching [(10, 650)]);
    ((11 # 10)%Q, Touching [(300, 300)]);
    ((12 # 10)%Q, Touching [(10, 650)]) ].

(** A finger that presses the size button, leaves the screen, and comes back
    within the debounce time: first on the canvas, then on the button. *)
Definition demo_return : list (Q * touch_poll) :=
  [ (1%Q, Touching [(10, 650)]);
    ((11 # 10)%Q, Untouched);
    ((12 # 10)%Q, Touching [(300, 300)]);
    ((13 # 10)%Q, Touching [(10, 650)]) ].

(** The state that a run of the loop on the demo display ends in. *)
Definition state_after (samples : list (Q * touch_poll)) (st : painter) : painter :=
  match run 720 720 exact samples st with
  | Ok st' => st'
  | Raise _ => st
  end.

(** The size button was touched at time 1 and the finger is still down. *)
Definition demo_tapped : painter :=
  state_after [(1%Q, Touching [(10, 650)])] demo_painter.

(** The size button has been held from time 1 to time 5/2. *)
Definition demo_held : painter := state_after demo_hold demo_painter.

(** The finger pressed the size button at time 1 and slid onto the canvas:
    the button is pressed and a stroke is in progress at (300, 300). *)
Definition demo_slid : painter :=
  state_after [(1%Q, Touching [(10, 650)]); ((11 # 10)%Q, Touching [(300, 300)])]
        demo_painter.

(** * Properties *)

(** ** Ranges, loops and pixel writes *)

Lemma In_range (lo hi i : Z) : In i (range lo hi) <-> lo <= i < hi.
Proof.
  unfold range. rewrite in_map_iff. split.
  - intros (k & <- & Hk). apply in_seq in Hk. lia.
  - intros Hi. exists (Z.to_nat (i - lo)). split; [lia|].
    apply in_seq. lia.
Qed.

Lemma length_range (lo hi : Z) : List.length (range lo hi) = Z.to_nat (hi - lo).
Proof. unfold range. now rewrite length_map, length_seq. Qed.

Lemma NoDup_range (lo hi : Z) : NoDup (range lo hi).
Proof.
  unfold range. apply Injective_map_NoDup; [|apply seq_NoDup].
  intros a b. lia.
Qed.

Lemma NoDup_map_range (c lo hi : Z) : NoDup (map (Z.add c) (range lo hi)).
Proof.
  apply Injective_map_NoDup; [|apply NoDup_range].
  intros a b. lia.
Qed.

Lemma range_cons (lo hi : Z) :
  lo < hi -> range lo hi = lo :: range (lo + 1) hi.
Proof.
  intros Hlt. unfold range.
  replace (Z.to_nat (hi - lo)) with (S (Z.to_nat (hi - (lo + 1)))) by lia.
  cbn [seq map]. f_equal; [lia|].
  rewrite <- seq_shift, map_map. apply map_ext. intros k. lia.
Qed.

Lemma between_spec (lo v hi : Z) : between lo v hi = true <-> lo <= v < hi.
Proof. unfold between. rewrite andb_true_iff. lia. Qed.

Lemma for_each_map {A B S : Type} (f : A -> B) (l : list A)
      (body : B -> S -> result S) (s : S) :
  for_each (map f l) body s = for_each l (fun a => body (f a)) s.
Proof.
  revert s. induction l as [|a l IH]; intros s; cbn; [reflexivity|].
  destruct (body (f a) s); cbn; auto.
Qed.

Lemma for_each_ext {A S : Type} (l : list A) (f g : A -> S -> result S) (s : S) :
  (forall a s', In a l -> f a s' = g a s') ->
  for_each l f s = for_each l g s.
Proof.
  revert s. induction l as [|a l IH]; intros s Hfg; cbn; [reflexivity|].
  rewrite (Hfg a s) by now left.
  destruct (g a s); cbn; [|reflexivity].
  apply IH. intros; apply Hfg; now right.
Qed.

Lemma nth_error_range (lo hi i : Z) :
  0 <= i < hi - lo -> nth_error (range lo hi) (Z.to_nat i) = Some (lo + i).
Proof.
  intros Hi. unfold range. rewrite nth_error_map, nth_error_seq.
  replace (Z.to_nat i <? Z.to_nat (hi - lo))%nat with true
    by (symmetry; apply Nat.ltb_lt; lia).
  cbn. f_equal. lia.
Qed.

(** ** Float formats *)

Open Scope Q_scope.

Lemma int_of_float_near (q : Q) : -1 < inject_Z (int_of_float q) - q < 1.
Proof.
  unfold int_of_float. destruct (Qle_bool 0 q).
  - pose proof (Qfloor_le q) as H1. pose proof (Qlt_floor q) as H2.
    rewrite inject_Z_plus in H2. change (inject_Z 1) with 1 in H2. lra.
  - pose proof (Qle_ceiling q) as H1. pose proof (Qceiling_lt q) as H2.
    unfold Z.sub in H2. rewrite inject_Z_plus, inject_Z_opp in H2.
    change (inject_Z 1) with 1 in H2. lra.
Qed.

Lemma int_of_float_exact (n : Z) (q : Q) : q == inject_Z n -> int_of_float q = n.
Proof.
  intros E. unfold int_of_float.
  rewrite (Qfloor_comp _ _ E), (Qceiling_comp _ _ E), Qfloor_Z, Qceiling_Z.
  now destruct (Qle_bool 0 q).
Qed.

Lemma Qgtb_spec (a b : Q) : Qgtb a b = true <-> b < a.
Proof.
  unfold Qgtb. rewrite negb_true_iff, <- not_true_iff_false, Qle_bool_iff.
  split; [apply Qnot_le_lt|apply Qlt_not_le].
Qed.

(** Exact arithmetic is a float format, whatever the range of integers. *)
Lemma exact_format (maxint : Z) : float_format exact 0 0 maxint.
Proof.
  split; unfold exact; intros; try assumption; try reflexivity; try lra.
  setoid_replace (q - q) with 0 by ring. cbn. lra.
Qed.

(** Rounding down to a multiple of [1 / scale] is a float format, with no
    relative error and the absolute error [1 / scale]. *)
Lemma fixed_point_format (scale : positive) (maxint : Z) :
  float_format (fixed_point scale) 0 (1 # scale) maxint.
Proof.
  assert (Hscale : 0 < inject_Z (Zpos scale)) by reflexivity.
  assert (Hmake : forall n : Z, (n # scale) == inject_Z n / inject_Z (Zpos scale)).
  { intros n. rewrite (Qmake_Qdiv n scale). reflexivity. }
  split.
  - intros p q Hpq. unfold fixed_point. rewrite !Hmake.
    apply Qmult_le_compat_r; [|apply Qlt_le_weak, Qinv_lt_0_compat, Hscale].
    rewrite <- Zle_Qle. apply Qfloor_resp_le.
    apply Qmult_le_compat_r; [exact Hpq|now apply Qlt_le_weak].
  - intros n _. unfold fixed_point. rewrite <- inject_Z_mult, Qfloor_Z, Hmake.
    rewrite inject_Z_mult. field. lra.
  - intros q _. unfold fixed_point.
    pose proof (Qfloor_le (q * inject_Z (Zpos scale))) as Hlo.
    pose proof (Qlt_floor (q * inject_Z (Zpos scale))) as Hhi.
    rewrite inject_Z_plus in Hhi. change (inject_Z 1) with 1 in Hhi.
    set (n := Qfloor (q * inject_Z (Z.pos scale))) in *.
    rewrite Hmake, (Hmake 1%Z). change (inject_Z 1) with 1.
    set (s := inject_Z (Zpos scale)) in *.
    assert (Hq : q == (q * s) / s) by (field; lra).
    assert (Hd : inject_Z n / s - q == (inject_Z n - q * s) / s)
      by (field; lra).
    rewrite Hd. apply Qabs_Qle_condition.
    assert (Hinv : 0 < / s) by now apply Qinv_lt_0_compat.
    unfold Qdiv. split; nra.
  - lra.
  - unfold Qle. cbn. lia.
Qed.

Section FloatFormat.

Variable fl : Q -> Q.
Variable eps eta : Q.
Variable maxint : Z.
Hypothesis F : float_format fl eps eta maxint.

Lemma fl_proper (p q : Q) : p == q -> fl p == fl q.
Proof.
  intros E. apply Qle_antisym; apply (fl_mono _ _ _ _ F); rewrite E; apply Qle_refl.
Qed.

Lemma fl_exact (n : Z) (q : Q) :
  (Z.abs n <= maxint)%Z -> q == inject_Z n -> fl q == inject_Z n.
Proof.
  intros Hn E. rewrite (fl_proper _ _ E). now apply (fl_int _ _ _ _ F).
Qed.

Lemma fl_near (q c : Q) :
  - c <= q <= c -> c <= inject_Z maxint ->
  - (eps * c + eta) <= fl q - q <= eps * c + eta.
Proof.
  intros Hq Hc. pose proof (fl_eps _ _ _ _ F) as H0.
  assert (Hqc : Qabs q <= c) by (apply Qabs_Qle_condition; exact Hq).
  assert (He : Qabs (fl q - q) <= eps * Qabs q + eta).
  { apply (fl_err _ _ _ _ F). lra. }
  apply Qabs_Qle_condition in He.
  assert (0 <= Qabs q) by apply Qabs_nonneg.
  nra.
Qed.

Lemma fl_clamp (lo hi : Z) (q : Q) :
  (Z.abs lo <= maxint)%Z -> (Z.abs hi <= maxint)%Z ->
  inject_Z lo <= q <= inject_Z hi -> inject_Z lo <= fl q <= inject_Z hi.
Proof.
  intros Hlo Hhi [H1 H2]. split.
  - rewrite <- (fl_int _ _ _ _ F lo Hlo). now apply (fl_mono _ _ _ _ F).
  - rewrite <- (fl_int _ _ _ _ F hi Hhi). now apply (fl_mono _ _ _ _ F).
Qed.

Variable B : Z.
Hypothesis HB : (2 * B <= maxint)%Z.
Hypothesis Hsmall :
  10 * eps * inject_Z B * inject_Z B + 4 * eta * inject_Z B * (inject_Z B + 1) < 1.

(** One coordinate of a stamp centre: exact at both ends of the line, and
    within one pixel of the exact interpolation in between. *)
Lemma interpolate_spec (a b i steps : Z) :
  (Z.abs a <= B)%Z -> (Z.abs b <= B)%Z ->
  (0 <= i <= steps)%Z -> (1 <= steps <= 2 * B)%Z ->
  let X := interpolate fl a b (fl (of_int fl i / of_int fl steps)) in
  (i = 0%Z -> X = a) /\ (i = steps -> X = b) /\
  Qabs (inject_Z X - on_segment a b i steps) <= 1.
Proof.
  intros Ha Hb Hi Hs X. unfold on_segment.
  pose proof (fl_eps _ _ _ _ F) as Heps.
  pose proof (fl_eta _ _ _ _ F) as Heta.
  assert (Ei : of_int fl i == inject_Z i) by (apply (fl_int _ _ _ _ F); lia).
  assert (Es : of_int fl steps == inject_Z steps)
    by (apply (fl_int _ _ _ _ F); lia).
  assert (Ea : of_int fl a == inject_Z a) by (apply (fl_int _ _ _ _ F); lia).
  assert (Ed : of_int fl (b - a) == inject_Z (b - a))
    by (apply (fl_int _ _ _ _ F); lia).
  assert (HS : 1 <= inject_Z steps)
    by (change 1 with (inject_Z 1); rewrite <- Zle_Qle; lia).
  assert (HI0 : 0 <= inject_Z i)
    by (change 0 with (inject_Z 0); rewrite <- Zle_Qle; lia).
  assert (HIS : inject_Z i <= inject_Z steps) by (rewrite <- Zle_Qle; lia).
  set (r := inject_Z i / inject_Z steps).
  assert (Hr : 0 <= r <= 1).
  { unfold r. split.
    - apply Qle_shift_div_l; lra.
    - apply Qle_shift_div_r; lra. }
  set (t := fl (of_int fl i / of_int fl steps)) in *.
  assert (Et : t == fl r).
  { unfold t, r. apply fl_proper. now rewrite Ei, Es. }
  assert (Ht : 0 <= t <= 1).
  { rewrite Et. apply (fl_clamp 0 1); try lia. exact Hr. }
  set (A := inject_Z a) in *. set (d := inject_Z (b - a)) in *.
  set (Bq := inject_Z B) in *.
  assert (HBq : 1 <= 2 * Bq).
  { change 1 with (inject_Z 1). change 2 with (inject_Z 2). unfold Bq.
    rewrite <- inject_Z_mult, <- Zle_Qle. lia. }
  assert (HBm : 2 * Bq <= inject_Z maxint).
  { change 2 with (inject_Z 2). unfold Bq.
    rewrite <- inject_Z_mult, <- Zle_Qle. lia. }
  assert (Htr : - (eps + eta) <= t - r <= eps + eta).
  { rewrite Et.
    pose proof (fl_near r 1 ltac:(lra) ltac:(lra)) as Hnear. lra. }
  assert (HSB : inject_Z steps <= 2 * Bq).
  { change 2 with (inject_Z 2). unfold Bq.
    rewrite <- inject_Z_mult, <- Zle_Qle. lia. }
  assert (HA : - Bq <= A <= Bq).
  { unfold A, Bq. rewrite <- inject_Z_opp, <- !Zle_Qle. lia. }
  assert (HAd : - Bq <= A + d <= Bq).
  { unfold A, d, Bq.
    rewrite <- inject_Z_plus, <- inject_Z_opp, <- !Zle_Qle. lia. }
  set (p := fl (t * of_int fl (b - a))).
  assert (Ep : p == fl (t * d)).
  { unfold p. apply fl_proper. now rewrite Ed. }
  assert (Hpn : - (eps * (2 * Bq) + eta) <= p - t * d <= eps * (2 * Bq) + eta).
  { rewrite Ep. apply fl_near; [nra|exact HBm]. }
  assert (Hpc : (0 <= d /\ 0 <= p <= d) \/ (d <= 0 /\ d <= p <= 0)).
  { destruct (Z_le_gt_dec 0 (b - a)) as [Hd|Hd].
    - left. assert (0 <= d)
        by (change 0 with (inject_Z 0); unfold d; rewrite <- Zle_Qle; lia).
      split; [assumption|]. rewrite Ep. apply (fl_clamp 0 (b - a)); try lia.
      fold d. change (inject_Z 0) with 0. nra.
    - right. assert (d <= 0)
        by (change 0 with (inject_Z 0); unfold d; rewrite <- Zle_Qle; lia).
      split; [assumption|]. rewrite Ep. apply (fl_clamp (b - a) 0); try lia.
      fold d. change (inject_Z 0) with 0. nra. }
  set (s := fl (of_int fl a + p)).
  assert (Es' : s == fl (A + p)).
  { unfold s. apply fl_proper. now rewrite Ea. }
  assert (Hsn : - (eps * Bq + eta) <= s - (A + p) <= eps * Bq + eta).
  { rewrite Es'. apply fl_near; lra. }
  assert (HX : X = int_of_float s) by reflexivity.
  pose proof (int_of_float_near s) as Hn. rewrite <- HX in Hn.
  repeat split.
  - intros ->.
    assert (E0 : r == 0) by (unfold r; change (inject_Z 0) with 0; field; lra).
    assert (E1 : t == 0).
    { rewrite Et. apply (fl_exact 0); [lia|assumption]. }
    assert (E2 : p == 0).
    { rewrite Ep. apply (fl_exact 0); [lia|].
      rewrite E1. change (inject_Z 0) with 0. ring. }
    rewrite HX. apply int_of_float_exact. rewrite Es'. apply fl_exact; [lia|].
    rewrite E2. fold A. ring.
  - intros ->.
    assert (E0 : r == 1) by (unfold r; field; lra).
    assert (E1 : t == 1).
    { rewrite Et. apply (fl_exact 1); [lia|assumption]. }
    assert (E2 : p == d).
    { rewrite Ep. apply (fl_exact (b - a)); [lia|]. rewrite E1. fold d. ring. }
    rewrite HX. apply int_of_float_exact. rewrite Es'. apply fl_exact; [lia|].
    rewrite E2. unfold A, d. rewrite <- inject_Z_plus. f_equiv. lia.
  - apply Qabs_Qle_condition.
    set (K := (steps * X - steps * a - i * (b - a))%Z).
    assert (HK : inject_Z K == inject_Z steps * (inject_Z X - (A + r * d))).
    { unfold K, Z.sub. rewrite !inject_Z_plus, !inject_Z_opp, !inject_Z_mult.
      fold A. unfold r. unfold d, Z.sub.
      rewrite !inject_Z_plus, !inject_Z_opp. fold A.
      field. lra. }
    assert (Hd2 : - (2 * Bq) <= d <= 2 * Bq) by lra.
    assert (Htd : - ((eps + eta) * (2 * Bq)) <= (t - r) * d
                  <= (eps + eta) * (2 * Bq)) by nra.
    set (delta := 5 * eps * Bq + 2 * eta * (Bq + 1)).
    assert (Hse : - delta <= s - (A + r * d) <= delta)
      by (unfold delta; lra).
    assert (Hdelta : 0 <= delta /\ 2 * Bq * delta < 1)
      by (unfold delta; split; nra).
    assert (HSe : -1 < inject_Z steps * (s - (A + r * d)) < 1) by nra.
    assert (HKb : - (inject_Z steps + 1) < inject_Z K < inject_Z steps + 1)
      by nra.
    assert (HKz : (- steps <= K <= steps)%Z).
    { change 1 with (inject_Z 1) in HKb.
      rewrite <- inject_Z_plus, <- inject_Z_opp, <- !Zlt_Qlt in HKb. lia. }
    assert (HKq : - inject_Z steps <= inject_Z K <= inject_Z steps).
    { rewrite <- inject_Z_opp, <- !Zle_Qle. lia. }
    nra.
Qed.

End FloatFormat.

Close Scope Q_scope.

Section Properties.

Variable display_width display_height : Z.
Variable fl : Q -> Q.

Local Abbreviation draw_brush := (draw_brush display_width display_height).
Local Abbreviation draw_line := (draw_line display_width display_height fl).
Local Abbreviation clear_drawing_area :=
  (clear_drawing_area display_width display_height).
Local Abbreviation display_sized := (display_sized display_width display_height).
Local Abbreviation footprint := (footprint display_width display_height).
Local Abbreviation section_height := (section_height display_height).
Local Abbreviation classify := (classify display_width display_height).
Local Abbreviation process_touch :=
  (process_touch display_width display_height fl).
Local Abbreviation loop_iteration :=
  (loop_iteration display_width display_height fl).
Local Abbreviation run := (run display_width display_height fl).
Local Abbreviation clear_button :=
  (clear_button display_width display_height fl).
Local Abbreviation size_button := (size_button fl).
Local Abbreviation drawing_area :=
  (drawing_area display_width display_height fl).
Local Abbreviation on_button := (on_button display_width display_height).
Local Abbreviation holds := (holds display_width display_height).
Local Abbreviation cooled := (cooled fl).
Local Abbreviation fires := (fires fl).
Local Abbreviation processed := (processed fl).
Local Abbreviation initial_state := (initial_state fl).
Local Abbreviation handled := (handled display_width display_height fl).

Lemma paints_sized (P : Z -> Z -> bool) (c : Z) (bm bm' : Bitmap) :
  paints P c bm bm' -> display_sized bm -> display_sized bm'.
Proof. intros (Hw & Hh & _) [Hw' Hh']. split; congruence. Qed.

Lemma setitem_paints (bm : Bitmap) (x y c : Z) :
  in_bitmap bm x y = true ->
  exists bm', setitem bm x y c = Ok bm' /\
              paints (fun px py => (px =? x) && (py =? y)) c bm bm'.
Proof.
  intros Hin. unfold setitem. rewrite Hin. eexists. split; [reflexivity|].
  repeat split.
Qed.

Lemma skip_paints (bm : Bitmap) (c : Z) : paints (fun _ _ => false) c bm bm.
Proof. repeat split. Qed.

Lemma paints_ext (P P' : Z -> Z -> bool) (c : Z) (bm bm' : Bitmap) :
  (forall px py, P px py = P' px py) -> paints P c bm bm' -> paints P' c bm bm'.
Proof.
  intros HP (Hw & Hh & Hpx). repeat split; auto.
  intros px py. rewrite <- HP. apply Hpx.
Qed.

(** A loop whose every iteration sets the pixels of a region sets the union
    of the regions. *)
Lemma for_each_paints {A : Type} (l : list A) (body : A -> Bitmap -> result Bitmap)
      (P : A -> Z -> Z -> bool) (c : Z) :
  (forall a bm, In a l -> display_sized bm ->
     exists bm', body a bm = Ok bm' /\ paints (P a) c bm bm') ->
  forall bm, display_sized bm ->
    exists bm', for_each l body bm = Ok bm' /\
      paints (fun px py => existsb (fun a => P a px py) l) c bm bm'.
Proof.
  induction l as [|a l IH]; intros Hbody bm Hbm; cbn [for_each].
  - exists bm. split; [reflexivity|]. apply skip_paints.
  - destruct (Hbody a bm) as (bm1 & -> & H1); [now left|assumption|].
    cbn [bind].
    destruct (IH (fun a' bm' Ha' => Hbody a' bm' (or_intror Ha')) bm1)
      as (bm2 & -> & H2); [eapply paints_sized; eassumption|].
    exists bm2. split; [reflexivity|].
    destruct H1 as (Hw1 & Hh1 & Hp1), H2 as (Hw2 & Hh2 & Hp2).
    repeat split; try congruence.
    intros px py. rewrite Hp2, Hp1. cbn [existsb].
    destruct (P a px py), (existsb (fun a' => P a' px py) l); reflexivity.
Qed.

Lemma for_each_paints_as {A : Type} (l : list A)
      (body : A -> Bitmap -> result Bitmap)
      (P : A -> Z -> Z -> bool) (R : Z -> Z -> bool) (c : Z) :
  (forall px py, existsb (fun a => P a px py) l = R px py) ->
  (forall a bm, In a l -> display_sized bm ->
     exists bm', body a bm = Ok bm' /\ paints (P a) c bm bm') ->
  forall bm, display_sized bm ->
    exists bm', for_each l body bm = Ok bm' /\ paints R c bm bm'.
Proof.
  intros HR Hbody bm Hbm.
  destruct (for_each_paints l body P c Hbody bm Hbm) as (bm' & Hrun & Hp).
  exists bm'. split; [exact Hrun|].
  eapply paints_ext; [|exact Hp]. exact HR.
Qed.

(** ** The brush stamp *)

Lemma In_brush_span (size i : Z) :
  In i (brush_span size) <-> - (size / 2) <= i <= size / 2.
Proof. unfold brush_span. rewrite In_range. lia. Qed.

Lemma brush_loops_footprint (x y size px py : Z) :
  existsb (fun i => existsb (fun j =>
      between 0 (x + i) display_width && between 0 (y + j) display_height &&
      ((px =? x + i) && (py =? y + j)))
    (brush_span size)) (brush_span size)
  = footprint x y size px py.
Proof.
  apply eq_true_iff_eq. unfold footprint.
  rewrite existsb_exists, !andb_true_iff, !between_spec, Z.leb_le. split.
  - intros (i & Hi & Hj). apply existsb_exists in Hj as (j & Hj & Hij).
    apply In_brush_span in Hi, Hj.
    rewrite !andb_true_iff, !between_spec, !Z.eqb_eq in Hij. lia.
  - intros Hp. exists (px - x). split; [apply In_brush_span; lia|].
    apply existsb_exists. exists (py - y). split; [apply In_brush_span; lia|].
    rewrite !andb_true_iff, !between_spec, !Z.eqb_eq. lia.
Qed.

Lemma draw_brush_paints (bm : Bitmap) (x y color size : Z) :
  display_sized bm ->
  exists bm', draw_brush bm x y color size = Ok bm' /\
              paints (footprint x y size) color bm bm'.
Proof.
  intros Hbm. unfold draw_brush.
  pose (cell := fun i j px py =>
    between 0 (x + i) display_width && between 0 (y + j) display_height &&
    ((px =? x + i) && (py =? y + j))).
  pose (row := fun i px py =>
    existsb (fun j => cell i j px py) (brush_span size)).
  apply for_each_paints_as with (P := row); [| |exact Hbm].
  - intros px py. apply brush_loops_footprint.
  - intros i bm1 _ Hbm1.
    apply for_each_paints with (P := cell i); [|exact Hbm1].
    intros j bm2 _ [Hw Hh]. cbv beta zeta. unfold cell.
    destruct (between 0 (x + i) display_width &&
              between 0 (y + j) display_height) eqn:Hin; cbn [andb].
    + apply setitem_paints. unfold in_bitmap. now rewrite Hw, Hh.
    + exists bm2. split; [reflexivity|]. apply skip_paints.
Qed.

(** C1. For every brush size, colour and centre [(x, y)], [draw_brush]
    returns, and the bitmap it returns holds the colour at exactly the pixels
    [(px, py)] that are inside the display and satisfy
    [max(|px - x|, |py - y|) <= size // 2]; every other pixel keeps the value
    it had. *)
Theorem draw_brush_footprint (bm : Bitmap) (x y color size : Z) :
  display_sized bm ->
  exists bm',
    draw_brush bm x y color size = Ok bm' /\
    display_sized bm' /\
    forall px py,
      bm_pixel bm' px py =
        if between 0 px display_width && between 0 py display_height &&
           (Z.max (Z.abs (px - x)) (Z.abs (py - y)) <=? size / 2)
        then color
        else bm_pixel bm px py.
Proof.
  intros Hbm.
  destruct (draw_brush_paints bm x y color size Hbm) as (bm' & Hrun & Hp).
  exists bm'. split; [exact Hrun|]. split.
  - eapply paints_sized; eassumption.
  - destruct Hp as (_ & _ & Hp). exact Hp.
Qed.

Lemma length_brush_span (size : Z) :
  0 <= size -> Z.of_nat (List.length (brush_span size)) = 2 * (size / 2) + 1.
Proof.
  intros Hs. unfold brush_span. rewrite length_range.
  assert (0 <= size / 2) by (apply Z.div_pos; lia). lia.
Qed.

(** The loops of [draw_brush] run over [stamp_columns] and [stamp_rows]. *)
Lemma draw_brush_visits (bm : Bitmap) (x y color size : Z) :
  draw_brush bm x y color size =
  for_each (stamp_columns x size) (fun x_pixel bitmap =>
    for_each (stamp_rows y size) (fun y_pixel bitmap =>
      if between 0 x_pixel display_width && between 0 y_pixel display_height
      then setitem bitmap x_pixel y_pixel color
      else Ok bitmap) bitmap) bm.
Proof.
  unfold draw_brush, stamp_columns, stamp_rows.
  rewrite for_each_map. apply for_each_ext. intros i bm1 _.
  now rewrite for_each_map.
Qed.

(** C2, as the code has it. A stamp visits, before the bounds test, the
    square of the columns [stamp_columns] and the rows [stamp_rows]:
    [2 * (size // 2) + 1] distinct columns and as many distinct rows, those
    at most [size // 2] away from the centre; as many as [size] for the odd
    sizes 1, 3 and 9, and one more than [size] for the even sizes 6 and 12. *)
Theorem brush_side (bm : Bitmap) (x y color size : Z) :
  In size brush_sizes ->
  draw_brush bm x y color size =
    for_each (stamp_columns x size) (fun x_pixel bitmap =>
      for_each (stamp_rows y size) (fun y_pixel bitmap =>
        if between 0 x_pixel display_width && between 0 y_pixel display_height
        then setitem bitmap x_pixel y_pixel color
        else Ok bitmap) bitmap) bm /\
  NoDup (stamp_columns x size) /\ NoDup (stamp_rows y size) /\
  (forall px, In px (stamp_columns x size) <-> Z.abs (px - x) <= size / 2) /\
  (forall py, In py (stamp_rows y size) <-> Z.abs (py - y) <= size / 2) /\
  Z.of_nat (List.length (stamp_columns x size)) = 2 * (size / 2) + 1 /\
  Z.of_nat (List.length (stamp_rows y size)) = 2 * (size / 2) + 1 /\
  2 * (size / 2) + 1 = (if Z.odd size then size else size + 1).
Proof.
  intros Hsize. split; [apply draw_brush_visits|].
  assert (Hpos : 0 <= size).
  { cbn in Hsize. intuition lia. }
  assert (Hmem : forall c p, In p (map (Z.add c) (brush_span size)) <->
                             Z.abs (p - c) <= size / 2).
  { intros c p. rewrite in_map_iff. split.
    - intros (i & <- & Hi). apply In_brush_span in Hi. lia.
    - intros Hp. exists (p - c). split; [lia|]. apply In_brush_span. lia. }
  assert (Hdup : forall c, NoDup (map (Z.add c) (brush_span size))).
  { intros c. apply Injective_map_NoDup; [|apply NoDup_range].
    intros a b. lia. }
  unfold stamp_columns, stamp_rows. rewrite !length_map.
  repeat split; try apply Hdup; try apply Hmem; try apply Hmem;
    try (apply length_brush_span; exact Hpos).
  cbn in Hsize.
  destruct Hsize as [<-|[<-|[<-|[<-|[<-|[]]]]]]; reflexivity.
Qed.

(** ** The clear button's loops *)

Lemma clear_drawing_area_paints (bm : Bitmap) :
  display_sized bm ->
  exists bm', clear_drawing_area bm = Ok bm' /\
    paints (fun px py => between palette_width px display_width &&
                         between 0 py display_height) 0 bm bm'.
Proof.
  intros Hbm. unfold clear_drawing_area.
  apply for_each_paints_as
    with (P := fun x_clear px py =>
                 existsb (fun y_clear => (px =? x_clear) && (py =? y_clear))
                         (range 0 display_height)); [| |exact Hbm].
  - intros px py. apply eq_true_iff_eq.
    rewrite existsb_exists, andb_true_iff, !between_spec. split.
    + intros (xc & Hxc & Hyc). apply existsb_exists in Hyc as (yc & Hyc & E).
      apply In_range in Hxc, Hyc.
      rewrite andb_true_iff, !Z.eqb_eq in E. lia.
    + intros [Hx Hy]. exists px. split; [now apply In_range|].
      apply existsb_exists. exists py. split; [now apply In_range|].
      now rewrite !Z.eqb_refl.
  - intros xc bm1 Hxc Hbm1.
    apply for_each_paints
      with (P := fun y_clear px py => (px =? xc) && (py =? y_clear));
      [|exact Hbm1].
    intros yc bm2 Hyc [Hw Hh]. apply setitem_paints.
    apply In_range in Hxc, Hyc. unfold in_bitmap.
    rewrite Hw, Hh, andb_true_iff, !between_spec.
    unfold palette_width in Hxc. lia.
Qed.

(** ** Lines *)

(** C9. A line from a point to itself is one stamp at the point: for every
    bitmap, [draw_line] with equal end points returns what [draw_brush]
    returns. *)
Theorem draw_line_degenerate (bm : Bitmap) (x y color size : Z) :
  draw_line bm x y x y color size = draw_brush bm x y color size.
Proof.
  unfold draw_line. rewrite !Z.sub_diag. reflexivity.
Qed.

Lemma bind_Ok {A : Type} (c : result A) : (a <- c ;; Ok a) = c.
Proof. now destruct c. Qed.

(** [draw_line] is the sequence of stamps at [stamp_centres]. *)
Lemma draw_line_stamps (bm : Bitmap) (x1 y1 x2 y2 color size : Z) :
  draw_line bm x1 y1 x2 y2 color size =
  for_each (stamp_centres fl x1 y1 x2 y2)
           (fun c bitmap => draw_brush bitmap (fst c) (snd c) color size) bm.
Proof.
  unfold draw_line, stamp_centres.
  destruct (Z.eqb_spec (Z.max (Z.abs (x2 - x1)) (Z.abs (y2 - y1))) 0)
    as [E|E].
  - cbn [for_each fst snd]. now rewrite bind_Ok.
  - rewrite for_each_map. apply for_each_ext. intros i bm' _.
    unfold truediv. destruct (Z.eqb_spec (Z.max (Z.abs (x2 - x1))
                                                (Z.abs (y2 - y1))) 0);
      [contradiction|reflexivity].
Qed.

(** The centres of the stamps of a line: as many as [steps + 1], the first at
    one end, the last at the other, each within a pixel of the segment. *)
Lemma stamp_centres_spec
    (eps eta : Q) (maxint B : Z) (x1 y1 x2 y2 : Z) :
  float_format fl eps eta maxint ->
  2 * B <= maxint ->
  (10 * eps * inject_Z B * inject_Z B +
   4 * eta * inject_Z B * (inject_Z B + 1) < 1)%Q ->
  Z.abs x1 <= B -> Z.abs y1 <= B -> Z.abs x2 <= B -> Z.abs y2 <= B ->
  let steps := Z.max (Z.abs (x2 - x1)) (Z.abs (y2 - y1)) in
  let centres := stamp_centres fl x1 y1 x2 y2 in
  List.length centres = Z.to_nat (steps + 1) /\
  nth_error centres 0 = Some (x1, y1) /\
  nth_error centres (Z.to_nat steps) = Some (x2, y2) /\
  forall i, 0 <= i <= steps ->
    exists x y,
      nth_error centres (Z.to_nat i) = Some (x, y) /\
      (Qabs (inject_Z x - on_segment x1 x2 i steps) <= 1)%Q /\
      (Qabs (inject_Z y - on_segment y1 y2 i steps) <= 1)%Q.
Proof.
  intros F HB Hsmall Hx1 Hy1 Hx2 Hy2 steps centres.
  unfold centres, stamp_centres. fold steps.
  destruct (Z.eqb_spec steps 0) as [E|E].
  - (* a single stamp *)
    assert (x2 = x1 /\ y2 = y1) as [-> ->] by (unfold steps in E; lia).
    rewrite E. repeat split.
    intros i Hi. assert (i = 0) as -> by lia.
    exists x1, y1. split; [reflexivity|].
    unfold on_segment. rewrite !Z.sub_diag.
    split; apply Qabs_Qle_condition; split; ring_simplify; cbn; lra.
  - assert (Hsteps : 1 <= steps <= 2 * B) by (unfold steps in *; lia).
    assert (Hcoord : forall i, 0 <= i <= steps ->
              nth_error (map (stamp_centre fl x1 y1 x2 y2 steps)
                             (range 0 (steps + 1))) (Z.to_nat i)
              = Some (stamp_centre fl x1 y1 x2 y2 steps i)).
    { intros i Hi. apply map_nth_error.
      rewrite nth_error_range by lia. f_equal. }
    pose proof (fun i => interpolate_spec fl eps eta maxint F B HB Hsmall
                           x1 x2 i steps Hx1 Hx2) as HX.
    pose proof (fun i => interpolate_spec fl eps eta maxint F B HB Hsmall
                           y1 y2 i steps Hy1 Hy2) as HY.
    cbv zeta in HX, HY.
    split; [now rewrite length_map, length_range, Z.sub_0_r|].
    split; [|split].
    + pose proof (Hcoord 0 ltac:(lia)) as H0. cbn [Z.to_nat] in H0.
      rewrite H0. unfold stamp_centre.
      destruct (HX 0 ltac:(lia) Hsteps) as (Hx & _).
      destruct (HY 0 ltac:(lia) Hsteps) as (Hy & _).
      now rewrite (Hx eq_refl), (Hy eq_refl).
    + rewrite (Hcoord steps) by lia. unfold stamp_centre.
      destruct (HX steps ltac:(lia) Hsteps) as (_ & Hx & _).
      destruct (HY steps ltac:(lia) Hsteps) as (_ & Hy & _).
      now rewrite (Hx eq_refl), (Hy eq_refl).
    + intros i Hi. rewrite (Hcoord i Hi). unfold stamp_centre.
      eexists _, _. split; [reflexivity|]. split.
      * now apply HX.
      * now apply HY.
Qed.

(** C8. For end points whose coordinates the float format represents exactly
    (every display coordinate), [draw_line] is the sequence of its
    [steps + 1] stamps; the first is centred at [(x1, y1)], the last at
    [(x2, y2)], and the centre of stamp [i] is within one pixel, in each
    coordinate, of the point of the segment at parameter [i / steps]. *)
Theorem draw_line_centres
    (eps eta : Q) (maxint B : Z) (bm : Bitmap) (x1 y1 x2 y2 color size : Z) :
  float_format fl eps eta maxint ->
  2 * B <= maxint ->
  (10 * eps * inject_Z B * inject_Z B +
   4 * eta * inject_Z B * (inject_Z B + 1) < 1)%Q ->
  Z.abs x1 <= B -> Z.abs y1 <= B -> Z.abs x2 <= B -> Z.abs y2 <= B ->
  let steps := Z.max (Z.abs (x2 - x1)) (Z.abs (y2 - y1)) in
  let centres := stamp_centres fl x1 y1 x2 y2 in
  draw_line bm x1 y1 x2 y2 color size =
    for_each centres
      (fun c bitmap => draw_brush bitmap (fst c) (snd c) color size) bm /\
  List.length centres = Z.to_nat (steps + 1) /\
  nth_error centres 0 = Some (x1, y1) /\
  nth_error centres (Z.to_nat steps) = Some (x2, y2) /\
  forall i, 0 <= i <= steps ->
    exists x y,
      nth_error centres (Z.to_nat i) = Some (x, y) /\
      (Qabs (inject_Z x - on_segment x1 x2 i steps) <= 1)%Q /\
      (Qabs (inject_Z y - on_segment y1 y2 i steps) <= 1)%Q.
Proof.
  intros F HB Hsmall Hx1 Hy1 Hx2 Hy2 steps centres.
  split; [apply draw_line_stamps|].
  now apply (stamp_centres_spec eps eta maxint B).
Qed.

(** ** The region dispatch *)

Lemma section_height_pos : 9 <= display_height -> 0 < section_height.
Proof.
  intros H9. unfold section_height.
  apply Z.div_str_pos. lia.
Qed.

(** The classification of a touch, by cases on its coordinates. *)
Lemma classify_spec (x y : Z) :
  9 <= display_height ->
  classify x y =
    Ok (if negb (between 0 x display_width) || negb (between 0 y display_height)
        then OutOfBounds
        else if x <? palette_width then
          if y / section_height =? 7 then ClearButton
          else if y / section_height =? 8 then SizeButton
          else if y / section_height <? 7 then PaletteColor (y / section_height)
          else NoBranch
        else Canvas).
Proof.
  intros H9. pose proof (section_height_pos H9) as Hsh. unfold classify.
  destruct (negb (between 0 x display_width) ||
            negb (between 0 y display_height)); [reflexivity|].
  destruct (Z.ltb_spec x palette_width) as [Hx|Hx].
  - unfold floordiv. destruct (Z.eqb_spec section_height 0); [lia|].
    cbn [bind].
    destruct (y / section_height =? 7); [reflexivity|].
    destruct (y / section_height =? 8); [reflexivity|].
    destruct (y / section_height <? 7); reflexivity.
  - destruct (Z.geb_spec x palette_width); [reflexivity|lia].
Qed.

(** ** The handlers of the four regions *)

Lemma brush_sizes_getitem (k : Z) :
  0 <= k < 5 -> exists size, list_getitem brush_sizes k = Ok size.
Proof.
  intros Hk.
  assert (k = 0 \/ k = 1 \/ k = 2 \/ k = 3 \/ k = 4) as Hcases by lia.
  destruct Hcases as [->|[->|[->|[->| ->]]]]; eexists; reflexivity.
Qed.

Lemma color_names_getitem (k : Z) :
  0 <= k < 7 -> exists name, list_getitem color_names k = Ok name.
Proof.
  intros Hk.
  assert (k = 0 \/ k = 1 \/ k = 2 \/ k = 3 \/ k = 4 \/ k = 5 \/ k = 6)
    as Hcases by lia.
  destruct Hcases as [->|[->|[->|[->|[->|[->| ->]]]]]]; eexists; reflexivity.
Qed.

Lemma for_each_sized {A : Type} (l : list A)
      (body : A -> Bitmap -> result Bitmap) :
  (forall a bm, In a l -> display_sized bm ->
     exists bm', body a bm = Ok bm' /\ display_sized bm') ->
  forall bm, display_sized bm ->
    exists bm', for_each l body bm = Ok bm' /\ display_sized bm'.
Proof.
  induction l as [|a l IH]; intros Hbody bm Hbm; cbn [for_each].
  - now exists bm.
  - destruct (Hbody a bm) as (bm1 & -> & H1); [now left|assumption|].
    cbn [bind]. apply IH; [|exact H1].
    intros a' bm' Ha'. apply Hbody. now right.
Qed.

Lemma draw_brush_sized (bm : Bitmap) (x y color size : Z) :
  display_sized bm ->
  exists bm', draw_brush bm x y color size = Ok bm' /\ display_sized bm'.
Proof.
  intros Hbm.
  destruct (draw_brush_paints bm x y color size Hbm) as (bm' & Hrun & Hp).
  exists bm'. split; [exact Hrun|]. eapply paints_sized; eassumption.
Qed.

Lemma draw_line_sized (bm : Bitmap) (x1 y1 x2 y2 color size : Z) :
  display_sized bm ->
  exists bm', draw_line bm x1 y1 x2 y2 color size = Ok bm' /\
              display_sized bm'.
Proof.
  intros Hbm. rewrite draw_line_stamps.
  apply for_each_sized; [|exact Hbm].
  intros c bm1 _ Hbm1. now apply draw_brush_sized.
Qed.

Lemma clear_button_spec (t : Q) (st : painter) :
  display_sized (bitmap st) ->
  if fires Clear t st then
    exists bm', display_sized bm' /\
      clear_button t st =
        Ok (set_stroke None false
             (set_clear_button_last_change t
               (set_clear_button_pressed true
                 (print MsgCleared
                   (set_bitmap bm' (print MsgClearing st))))))
  else clear_button t st = Ok st.
Proof.
  intros Hbm. unfold fires, cooled, clear_button. cbn [pressed last_change].
  destruct (clear_button_pressed st); cbn [negb andb]; [reflexivity|].
  destruct (Qgtb _ _); [|reflexivity].
  destruct (clear_drawing_area_paints (bitmap st) Hbm) as (bm' & Hrun & Hp).
  exists bm'. split; [eapply paints_sized; eassumption|].
  cbn [bitmap print]. now rewrite Hrun.
Qed.

(** C7. The action of the clear button (the branch taken when the button is
    not pressed and its debounce time has passed) returns; it sets every
    pixel of the drawing area ([palette_width <= x < W], every row) to
    [0x0000] and leaves every pixel of the palette band ([x < palette_width])
    as it was. *)
Theorem clear_button_clears_drawing_area (t : Q) (st : painter) :
  display_sized (bitmap st) -> fires Clear t st = true ->
  exists st',
    clear_button t st = Ok st' /\
    clear_drawing_area (bitmap st) = Ok (bitmap st') /\
    display_sized (bitmap st') /\
    (forall x y, palette_width <= x < display_width ->
                 0 <= y < display_height -> bm_pixel (bitmap st') x y = 0) /\
    (forall x y, x < palette_width ->
                 bm_pixel (bitmap st') x y = bm_pixel (bitmap st) x y).
Proof.
  intros Hbm Hf.
  destruct (clear_drawing_area_paints (bitmap st) Hbm) as (bm' & Hrun & Hp).
  pose proof (clear_button_spec t st Hbm) as Hs. rewrite Hf in Hs.
  destruct Hs as (bm1 & _ & Hs).
  assert (bm1 = bm') as ->.
  { unfold clear_button in Hs. unfold fires, cooled in Hf.
    cbn [pressed last_change] in Hf. apply andb_true_iff in Hf as [Hp1 Hc1].
    rewrite Hp1, Hc1 in Hs. cbn [bitmap print] in Hs. rewrite Hrun in Hs.
    cbn [bind] in Hs. injection Hs as Hs. congruence. }
  eexists. split; [exact Hs|]. cbn [bitmap set_stroke
    set_clear_button_last_change set_clear_button_pressed print set_bitmap].
  split; [exact Hrun|]. split; [eapply paints_sized; eassumption|].
  destruct Hp as (_ & _ & Hp). split.
  - intros x y Hx Hy. rewrite Hp.
    replace (between palette_width x display_width) with true
      by (symmetry; now apply between_spec).
    replace (between 0 y display_height) with true
      by (symmetry; now apply between_spec).
    reflexivity.
  - intros x y Hx. rewrite Hp.
    replace (between palette_width x display_width) with false; [reflexivity|].
    symmetry. apply not_true_is_false. rewrite between_spec. lia.
Qed.

Lemma size_button_spec (t : Q) (st : painter) :
  if fires Size t st then
    exists size,
      size_button t st =
        Ok (set_stroke None false
             (set_size_button_last_change t
               (set_size_button_pressed true
                 (print (MsgBrushSize size)
                   (set_brush ((current_brush_index st + 1) mod 5) size st)))))
  else size_button t st = Ok st.
Proof.
  unfold fires, cooled, size_button. cbn [pressed last_change].
  destruct (size_button_pressed st); cbn [negb andb]; [reflexivity|].
  destruct (Qgtb _ _); [|reflexivity].
  change (Z.of_nat (List.length brush_sizes)) with 5.
  destruct (brush_sizes_getitem ((current_brush_index st + 1) mod 5))
    as (size & ->); [apply Z.mod_pos_bound; lia|].
  exists size. reflexivity.
Qed.

Lemma color_selection_spec (section x y : Z) (st : painter) :
  display_sized (bitmap st) ->
  0 <= x < display_width -> 0 <= y < display_height -> 0 <= section < 7 ->
  exists name,
    color_selection section x y st =
      Ok (set_stroke None false
           (print (MsgColor name (bm_pixel (bitmap st) x y))
             (set_current_color (bm_pixel (bitmap st) x y) st))).
Proof.
  intros [Hw Hh] Hx Hy Hsec. unfold color_selection, getitem, in_bitmap.
  rewrite Hw, Hh.
  replace (between 0 x display_width) with true
    by (symmetry; now apply between_spec).
  replace (between 0 y display_height) with true
    by (symmetry; now apply between_spec).
  cbn [andb bind].
  change (Z.of_nat (List.length color_names)) with 8.
  replace (section <? 8) with true by (symmetry; apply Z.ltb_lt; lia).
  destruct (color_names_getitem section Hsec) as (name & ->).
  exists name. reflexivity.
Qed.

Lemma drawing_area_spec (x y : Z) (st : painter) :
  display_sized (bitmap st) ->
  exists bm', display_sized bm' /\
    drawing_area x y st = Ok (set_stroke (Some (x, y)) true (set_bitmap bm' st)).
Proof.
  intros Hbm. unfold drawing_area.
  assert (Hdraw : exists bm',
    match is_drawing st, last_draw_pos st with
    | true, Some (x0, y0) =>
        draw_line (bitmap st) x0 y0 x y (current_color st) (pixel_size st)
    | _, _ => draw_brush (bitmap st) x y (current_color st) (pixel_size st)
    end = Ok bm' /\ display_sized bm').
  { destruct (is_drawing st), (last_draw_pos st) as [[x0 y0]|];
      try (now apply draw_brush_sized); now apply draw_line_sized. }
  destruct Hdraw as (bm' & -> & Hs). exists bm'. split; [exact Hs|reflexivity].
Qed.

(** ** One touch *)

Lemma classify_in_bounds (x y : Z) (h : hit) :
  9 <= display_height -> classify x y = Ok h -> h <> OutOfBounds ->
  0 <= x < display_width /\ 0 <= y < display_height.
Proof.
  intros H9 Hc Hh. rewrite (classify_spec x y H9) in Hc.
  destruct (between 0 x display_width) eqn:Ex;
    destruct (between 0 y display_height) eqn:Ey;
    cbn [negb orb] in Hc; try (injection Hc as <-; contradiction).
  now apply between_spec in Ex, Ey.
Qed.

Lemma classify_palette (x y section : Z) :
  9 <= display_height -> classify x y = Ok (PaletteColor section) ->
  section = y / section_height /\ 0 <= section < 7 /\ x < palette_width.
Proof.
  intros H9 Hc.
  destruct (classify_in_bounds x y _ H9 Hc) as [Hx Hy]; [discriminate|].
  pose proof (section_height_pos H9) as Hsh.
  rewrite (classify_spec x y H9) in Hc.
  destruct (negb (between 0 x display_width) ||
            negb (between 0 y display_height)); [discriminate|].
  destruct (Z.ltb_spec x palette_width); [|discriminate].
  destruct (y / section_height =? 7); [discriminate|].
  destruct (y / section_height =? 8); [discriminate|].
  destruct (Z.ltb_spec (y / section_height) 7); [|discriminate].
  injection Hc as <-. repeat split; try assumption.
  apply Z.div_pos; lia.
Qed.

(** Every touch is handled: the dispatch returns, in the state that the
    branch of the hit leaves, with [last_touch_time] assigned. *)
Lemma process_touch_handled (t : Q) (x y : Z) (h : hit) (st : painter) :
  9 <= display_height -> display_sized (bitmap st) ->
  classify x y = Ok h ->
  match h with
  | OutOfBounds => process_touch t (x, y) st = Ok st
  | _ => exists st1, handled t x y st h st1 /\
           process_touch t (x, y) st = Ok (set_last_touch_time t st1)
  end.
Proof.
  intros H9 Hbm Hc.
  unfold process_touch. rewrite Hc. cbn [bind].
  destruct h as [ | | |section| | ].
  - reflexivity.
  - pose proof (clear_button_spec t st Hbm) as Hs.
    destruct (fires Clear t st) eqn:Ef.
    + destruct Hs as (bm' & Hbm' & ->). eexists. split; [|reflexivity].
      now apply handled_clear.
    + rewrite Hs. eexists. split; [|reflexivity].
      now apply handled_clear_debounced.
  - pose proof (size_button_spec t st) as Hs.
    destruct (fires Size t st) eqn:Ef.
    + destruct Hs as (size & ->). eexists. split; [|reflexivity].
      now apply handled_size.
    + rewrite Hs. eexists. split; [|reflexivity].
      now apply handled_size_debounced.
  - destruct (classify_in_bounds x y _ H9 Hc) as [Hx Hy]; [discriminate|].
    destruct (classify_palette x y _ H9 Hc) as (_ & Hsec & _).
    destruct (color_selection_spec section x y st Hbm Hx Hy Hsec)
      as (name & ->).
    eexists. split; [|reflexivity]. apply handled_color.
  - destruct (drawing_area_spec x y st Hbm) as (bm' & Hbm' & ->).
    eexists. split; [|reflexivity]. now apply handled_canvas.
  - eexists. split; [|reflexivity]. apply handled_nothing.
Qed.

Lemma classify_total (x y : Z) :
  9 <= display_height -> exists h, classify x y = Ok h.
Proof. intros H9. eexists. apply (classify_spec x y H9). Qed.

(** ** What a handled touch does to the stroke and to the buttons *)

Lemma activations_print (b : button) (m : message) (st : painter) :
  activations b (print m st) =
  (activations b st + if announces b m then 1 else 0)%nat.
Proof.
  unfold activations. cbn [console print].
  rewrite filter_app, length_app. cbn [filter].
  now destruct (announces b m).
Qed.

Lemma handled_sized (t : Q) (x y : Z) (st st1 : painter) (h : hit) :
  handled t x y st h st1 -> display_sized (bitmap st) ->
  display_sized (bitmap st1).
Proof. intros Hh Hbm. destruct Hh; cbn; assumption. Qed.

Lemma handled_last_touch_time (t : Q) (x y : Z) (st st1 : painter) (h : hit) :
  handled t x y st h st1 -> last_touch_time st1 = last_touch_time st.
Proof. intros Hh. destruct Hh; reflexivity. Qed.

Lemma handled_stroke (t : Q) (x y : Z) (st st1 : painter) (h : hit) :
  handled t x y st h st1 ->
  (is_drawing st1 = is_drawing st /\ last_draw_pos st1 = last_draw_pos st) \/
  idle st1 \/
  (is_drawing st1 = true /\ last_draw_pos st1 = Some (x, y)).
Proof.
  intros Hh. destruct Hh; cbn; unfold idle; cbn; auto.
Qed.

Lemma fires_pressed (b : button) (t : Q) (st : painter) :
  pressed b st = true -> fires b t st = false.
Proof. unfold fires. now intros ->. Qed.

Lemma fires_not_cooled (b : button) (t : Q) (st : painter) :
  cooled b t st = false -> fires b t st = false.
Proof. unfold fires. intros ->. apply andb_false_r. Qed.

Lemma fires_same_latch (b : button) (t : Q) (st st' : painter) :
  same_latch b st st' -> fires b t st' = fires b t st.
Proof.
  intros (Hp & Hl & _). unfold fires, cooled. now rewrite Hp, Hl.
Qed.

(** A handled touch runs the action of the button it lands on when the
    debouncing lets it, and leaves the button alone otherwise. *)
Lemma handled_button (b : button) (t : Q) (x y : Z) (st st1 : painter)
      (h : hit) :
  handled t x y st h st1 ->
  (h = button_hit b /\ fires b t st = true /\ latched_once b t st st1) \/
  ((h <> button_hit b \/ fires b t st = false) /\ same_latch b st st1).
Proof.
  intros Hh.
  assert (Hsame : forall st', pressed b st' = pressed b st ->
            last_change b st' = last_change b st ->
            filter (announces b) (console st') = filter (announces b) (console st) ->
            same_latch b st st').
  { intros st' Hp Hl Hc. unfold same_latch, activations. now rewrite Hp, Hl, Hc. }
  destruct Hh, b; cbn [button_hit].
  all: try (right; split; [left; discriminate|]; apply Hsame; cbn;
            rewrite ?filter_app; cbn; rewrite ?app_nil_r; reflexivity).
  all: try (right; split; [right; assumption|]; apply Hsame; reflexivity).
  all: left; split; [reflexivity|]; split; [assumption|].
  all: unfold latched_once, activations; cbn.
  all: rewrite ?filter_app, ?length_app; cbn.
  all: repeat split; lia.
Qed.

Lemma process_touch_total (t : Q) (touch : Z * Z) (st : painter) :
  9 <= display_height -> display_sized (bitmap st) ->
  exists h st',
    classify (fst touch) (snd touch) = Ok h /\
    process_touch t touch st = Ok st' /\
    display_sized (bitmap st') /\
    (h = OutOfBounds /\ st' = st \/
     h <> OutOfBounds /\
     exists st1, handled t (fst touch) (snd touch) st h st1 /\
                 st' = set_last_touch_time t st1).
Proof.
  intros H9 Hbm. destruct touch as [x y]. cbn [fst snd].
  destruct (classify_total x y H9) as (h & Hc).
  pose proof (process_touch_handled t x y h st H9 Hbm Hc) as Hp.
  exists h.
  destruct h; try (destruct Hp as (st1 & Hh & Hp);
    exists (set_last_touch_time t st1);
    split; [exact Hc|]; split; [exact Hp|];
    split; [exact (handled_sized _ _ _ _ _ _ Hh Hbm)|];
    right; split; [discriminate|]; exists st1; now split).
  exists st. repeat split; try assumption; try apply Hbm. now left.
Qed.

Lemma for_each_invariant {A S : Type} (Inv : S -> Prop) (l : list A)
      (body : A -> S -> result S) :
  (forall a s, In a l -> Inv s -> exists s', body a s = Ok s' /\ Inv s') ->
  forall s, Inv s -> exists s', for_each l body s = Ok s' /\ Inv s'.
Proof.
  induction l as [|a l IH]; intros Hbody s Hs; cbn [for_each].
  - now exists s.
  - destruct (Hbody a s) as (s1 & -> & H1); [now left|assumption|].
    cbn [bind]. apply IH; [|exact H1].
    intros a' s' Ha'. apply Hbody. now right.
Qed.

(** ** Region boundaries *)

(** C5. With [palette_width = 160] and [section_height = height // 9], on a
    display wider than the palette: [(159, 0)] is a palette hit and
    [(160, 0)] a canvas hit; in the left column every row of section 7 is the
    clear button and every row of section 8 the size button, among them the
    rows [7 * section_height], [8 * section_height] and
    [9 * section_height - 1]. *)
Theorem region_boundaries :
  palette_width < display_width -> 9 <= display_height ->
  classify (palette_width - 1) 0 = Ok (PaletteColor 0) /\
  classify palette_width 0 = Ok Canvas /\
  (forall x y, 0 <= x < palette_width -> 0 <= y < display_height ->
     y / section_height = 7 -> classify x y = Ok ClearButton) /\
  (forall x y, 0 <= x < palette_width -> 0 <= y < display_height ->
     y / section_height = 8 -> classify x y = Ok SizeButton) /\
  (forall x, 0 <= x < palette_width ->
     classify x (7 * section_height) = Ok ClearButton /\
     classify x (8 * section_height) = Ok SizeButton /\
     classify x (9 * section_height - 1) = Ok SizeButton).
Proof.
  intros HW H9. pose proof (section_height_pos H9) as Hsh.
  assert (Hfit : 9 * section_height <= display_height).
  { unfold section_height. apply Z.mul_div_le. lia. }
  assert (Hleft : forall x y, 0 <= x < palette_width -> 0 <= y < display_height ->
            classify x y =
              Ok (if y / section_height =? 7 then ClearButton
                  else if y / section_height =? 8 then SizeButton
                  else if y / section_height <? 7
                       then PaletteColor (y / section_height)
                       else NoBranch)).
  { intros x y Hx Hy. rewrite (classify_spec x y H9).
    replace (between 0 x display_width) with true
      by (symmetry; apply between_spec; lia).
    replace (between 0 y display_height) with true
      by (symmetry; now apply between_spec).
    replace (x <? palette_width) with true by (symmetry; apply Z.ltb_lt; lia).
    reflexivity. }
  assert (H7 : 7 * section_height / section_height = 7)
    by (apply Z.div_mul; lia).
  assert (H8 : 8 * section_height / section_height = 8)
    by (apply Z.div_mul; lia).
  assert (H9' : (9 * section_height - 1) / section_height = 8).
  { symmetry. apply (Z.div_unique _ _ 8 (section_height - 1)); lia. }
  unfold palette_width in *.
  split; [|split; [|split; [|split]]].
  - rewrite Hleft by lia. now rewrite Z.div_0_l by lia.
  - rewrite (classify_spec 160 0 H9).
    replace (between 0 160 display_width) with true
      by (symmetry; apply between_spec; lia).
    replace (between 0 0 display_height) with true
      by (symmetry; apply between_spec; lia).
    reflexivity.
  - intros x y Hx Hy E. rewrite Hleft, E by assumption. reflexivity.
  - intros x y Hx Hy E. rewrite Hleft, E by assumption. reflexivity.
  - intros x Hx.
    rewrite !Hleft by lia. now rewrite H7, H8, H9'.
Qed.

(** ** Colour selection *)

(** C6. For every in-bounds touch [(x, y)] with [x < palette_width] and
    [y // section_height < 7], the dispatch returns and the current colour
    is then the pixel [bitmap[x, y]] of the bitmap, which it leaves as it
    was. *)
Theorem color_from_bitmap (t : Q) (x y : Z) (st : painter) :
  9 <= display_height -> display_sized (bitmap st) ->
  0 <= x < display_width -> 0 <= y < display_height ->
  x < palette_width -> y / section_height < 7 ->
  exists st',
    process_touch t (x, y) st = Ok st' /\
    getitem (bitmap st) x y = Ok (current_color st') /\
    current_color st' = bm_pixel (bitmap st) x y /\
    bitmap st' = bitmap st.
Proof.
  intros H9 Hbm Hx Hy Hpal Hsec.
  assert (Hc : classify x y = Ok (PaletteColor (y / section_height))).
  { rewrite (classify_spec x y H9).
    replace (between 0 x display_width) with true
      by (symmetry; now apply between_spec).
    replace (between 0 y display_height) with true
      by (symmetry; now apply between_spec).
    replace (x <? palette_width) with true by (symmetry; now apply Z.ltb_lt).
    cbn [negb orb].
    replace (y / section_height =? 7) with false
      by (symmetry; apply Z.eqb_neq; lia).
    replace (y / section_height =? 8) with false
      by (symmetry; apply Z.eqb_neq; lia).
    replace (y / section_height <? 7) with true
      by (symmetry; now apply Z.ltb_lt).
    reflexivity. }
  destruct (process_touch_handled t x y _ st H9 Hbm Hc) as (st1 & Hh & Hp).
  exists (set_last_touch_time t st1). split; [exact Hp|].
  inversion Hh; subst. cbn. repeat split.
  unfold getitem, in_bitmap. destruct Hbm as [-> ->].
  replace (between 0 x display_width) with true
    by (symmetry; now apply between_spec).
  replace (between 0 y display_height) with true
    by (symmetry; now apply between_spec).
  reflexivity.
Qed.

(** ** The stroke tracker *)

(** C3, as the code has it. A touch on the palette (sections 0 to 6) leaves
    the stroke tracker idle; a touch on a button leaves it idle when the
    action of the button runs (the button is not pressed and its debounce
    time has passed), and leaves both stroke variables as they were when the
    debouncing skips the action. *)
Theorem non_canvas_hit_stroke (t : Q) (x y : Z) (st : painter) :
  9 <= display_height -> display_sized (bitmap st) ->
  (forall section, classify x y = Ok (PaletteColor section) ->
     exists st', process_touch t (x, y) st = Ok st' /\ idle st') /\
  (forall b, classify x y = Ok (button_hit b) ->
     exists st', process_touch t (x, y) st = Ok st' /\
       if fires b t st then idle st'
       else is_drawing st' = is_drawing st /\
            last_draw_pos st' = last_draw_pos st).
Proof.
  intros H9 Hbm. split.
  - intros section Hc.
    destruct (process_touch_handled t x y _ st H9 Hbm Hc) as (st1 & Hh & Hp).
    exists (set_last_touch_time t st1). split; [exact Hp|].
    inversion Hh; subst. split; reflexivity.
  - intros b Hc.
    pose proof (process_touch_handled t x y _ st H9 Hbm Hc) as Hp.
    destruct b; cbn [button_hit] in Hp; destruct Hp as (st1 & Hh & Hp);
      exists (set_last_touch_time t st1); (split; [exact Hp|]);
      inversion Hh; subst;
      match goal with E : fires _ _ _ = _ |- _ => rewrite E end;
      split; reflexivity.
Qed.

Lemma process_touch_consistent (t : Q) (touch : Z * Z) (st : painter) :
  9 <= display_height ->
  display_sized (bitmap st) /\ stroke_consistent st ->
  exists st', process_touch t touch st = Ok st' /\
              (display_sized (bitmap st') /\ stroke_consistent st').
Proof.
  intros H9 [Hbm Hst].
  destruct (process_touch_total t touch st H9 Hbm)
    as (h & st' & _ & Hp & Hbm' & [[_ ->]|[_ (st1 & Hh & ->)]]).
  - exists st. auto.
  - eexists. split; [exact Hp|]. split; [exact Hbm'|].
    unfold stroke_consistent in *. cbn [is_drawing last_draw_pos set_last_touch_time].
    destruct (handled_stroke _ _ _ _ _ _ Hh) as [[-> ->]|[[-> ->]|[-> ->]]].
    + exact Hst.
    + split; [discriminate|congruence].
    + split; [discriminate|reflexivity].
Qed.

Lemma touch_released_consistent (st : painter) :
  stroke_consistent st -> stroke_consistent (touch_released st).
Proof.
  unfold stroke_consistent, touch_released. intros Hst.
  destruct (is_drawing st) eqn:E; cbn; [|now rewrite E].
  split; [discriminate|congruence].
Qed.

Lemma loop_iteration_consistent (sample : Q * touch_poll) (st : painter) :
  9 <= display_height ->
  display_sized (bitmap st) /\ stroke_consistent st ->
  exists st', loop_iteration sample st = Ok st' /\
              (display_sized (bitmap st') /\ stroke_consistent st').
Proof.
  intros H9 [Hbm Hst]. destruct sample as [t [ | |touches]]; cbn.
  - eexists. split; [reflexivity|]. split.
    + unfold touch_released. now destruct (is_drawing st).
    + now apply touch_released_consistent.
  - exists st. auto.
  - destruct (Qgtb _ _); [|exists st; auto].
    apply for_each_invariant; [|auto].
    intros touch s _ Hs. now apply process_touch_consistent.
Qed.

(** C10. The two stroke variables agree ([is_drawing] is true exactly when
    [last_draw_pos] is not [None]) in the initial state; every touch of a
    sample and every iteration of the loop (touch or release) returns and
    keeps them in agreement; so they agree after any number of iterations. *)
Theorem stroke_invariant :
  9 <= display_height ->
  (forall bm white, stroke_consistent (initial_state bm white)) /\
  (forall t touch st,
     display_sized (bitmap st) -> stroke_consistent st ->
     exists st', process_touch t touch st = Ok st' /\ stroke_consistent st') /\
  (forall sample st,
     display_sized (bitmap st) -> stroke_consistent st ->
     exists st', loop_iteration sample st = Ok st' /\
                 display_sized (bitmap st') /\ stroke_consistent st') /\
  (forall bm white samples,
     display_sized bm ->
     exists st', run samples (initial_state bm white) = Ok st' /\
                 stroke_consistent st').
Proof.
  intros H9. split; [|split; [|split]].
  - intros bm white. unfold stroke_consistent. cbn.
    split; [discriminate|congruence].
  - intros t touch st Hbm Hst.
    destruct (process_touch_consistent t touch st H9 (conj Hbm Hst))
      as (st' & Hp & _ & Hst').
    now exists st'.
  - intros sample st Hbm Hst.
    now apply loop_iteration_consistent.
  - intros bm white samples Hbm.
    destruct (for_each_invariant
                (fun st => display_sized (bitmap st) /\ stroke_consistent st)
                samples loop_iteration) with (s := initial_state bm white)
      as (st' & Hrun & _ & Hst').
    + intros sample st _ Hs. now apply loop_iteration_consistent.
    + split; [exact Hbm|]. unfold stroke_consistent. cbn.
      split; [discriminate|congruence].
    + now exists st'.
Qed.

(** ** Button debouncing *)

Lemma same_latch_refl (b : button) (st : painter) : same_latch b st st.
Proof. unfold same_latch. auto. Qed.

Lemma same_latch_trans (b : button) (st1 st2 st3 : painter) :
  same_latch b st1 st2 -> same_latch b st2 st3 -> same_latch b st1 st3.
Proof. unfold same_latch. intuition congruence. Qed.

Lemma latch_last_touch_time (b : button) (t : Q) (st : painter) :
  same_latch b st (set_last_touch_time t st).
Proof. unfold same_latch, activations. destruct b; cbn; auto. Qed.

Lemma latched_once_then_same (b : button) (t : Q) (st1 st2 st3 : painter) :
  latched_once b t st1 st2 -> same_latch b st2 st3 -> latched_once b t st1 st3.
Proof. unfold latched_once, same_latch. intuition congruence. Qed.

Lemma same_then_latched_once (b : button) (t : Q) (st1 st2 st3 : painter) :
  same_latch b st1 st2 -> latched_once b t st2 st3 -> latched_once b t st1 st3.
Proof. unfold latched_once, same_latch. intuition congruence. Qed.

Lemma on_button_dec (b : button) (touch : Z * Z) :
  on_button b touch \/ ~ on_button b touch.
Proof.
  unfold on_button.
  destruct (classify (fst touch) (snd touch)) as [h|e];
    [|right; discriminate].
  destruct h, b; cbn [button_hit];
    solve [now left | right; discriminate].
Qed.

(** One touch and one button. *)
Lemma process_touch_button (b : button) (t : Q) (touch : Z * Z) (st : painter) :
  9 <= display_height -> display_sized (bitmap st) ->
  exists st', process_touch t touch st = Ok st' /\
    display_sized (bitmap st') /\
    ((on_button b touch /\ fires b t st = true /\ latched_once b t st st') \/
     ((~ on_button b touch \/ fires b t st = false) /\ same_latch b st st')).
Proof.
  intros H9 Hbm.
  destruct (process_touch_total t touch st H9 Hbm)
    as (h & st' & Hc & Hp & Hbm' & [[-> ->]|[_ (st1 & Hh & ->)]]).
  - exists st. split; [exact Hp|]. split; [exact Hbm|]. right.
    split; [|apply same_latch_refl]. left. unfold on_button.
    rewrite Hc. destruct b; discriminate.
  - eexists. split; [exact Hp|]. split; [exact Hbm'|].
    destruct (handled_button b _ _ _ _ _ _ Hh)
      as [(-> & Hf & Hl)|([Hn|Hf] & Hs)].
    + left. split; [exact Hc|]. split; [exact Hf|].
      eapply latched_once_then_same; [exact Hl|apply latch_last_touch_time].
    + right. split.
      * left. unfold on_button. rewrite Hc. congruence.
      * eapply same_latch_trans; [exact Hs|apply latch_last_touch_time].
    + right. split; [now right|].
      eapply same_latch_trans; [exact Hs|apply latch_last_touch_time].
Qed.

(** The touches of one sample and one button: the action runs once when the
    debouncing lets it and some touch lands on the button, and not at all
    otherwise. *)
Lemma touches_button (b : button) (t : Q) (touches : list (Z * Z)) :
  9 <= display_height ->
  forall st, display_sized (bitmap st) ->
  exists st', for_each touches (process_touch t) st = Ok st' /\
    display_sized (bitmap st') /\
    (((exists touch, In touch touches /\ on_button b touch) /\
      fires b t st = true /\ latched_once b t st st') \/
     ((~ (exists touch, In touch touches /\ on_button b touch) \/
       fires b t st = false) /\ same_latch b st st')).
Proof.
  intros H9. induction touches as [|touch touches IH]; intros st Hbm.
  - exists st. split; [reflexivity|]. split; [exact Hbm|]. right.
    split; [|apply same_latch_refl]. left. intros (touch & [] & _).
  - cbn [for_each].
    destruct (process_touch_button b t touch st H9 Hbm)
      as (st1 & -> & Hbm1 & Hone).
    cbn [bind]. destruct (IH st1 Hbm1) as (st' & -> & Hbm' & Hrest).
    exists st'. split; [reflexivity|]. split; [exact Hbm'|].
    destruct Hone as [(Hon & Hf & Hl)|(Hskip & Hs)].
    + (* the action ran at this touch: the button is pressed from here on *)
      left. split; [exists touch; split; [now left|exact Hon]|].
      split; [exact Hf|].
      assert (Hf1 : fires b t st1 = false)
        by (apply fires_pressed; apply Hl).
      destruct Hrest as [(_ & Hf1' & _)|(_ & Hs')]; [congruence|].
      eapply latched_once_then_same; eassumption.
    + rewrite (fires_same_latch b t st st1 Hs) in Hrest.
      destruct Hrest as [((touch' & Hin & Hon) & Hf & Hl)|(Hskip' & Hs')].
      * left. split; [exists touch'; split; [now right|exact Hon]|].
        split; [exact Hf|]. eapply same_then_latched_once; eassumption.
      * right. split; [|eapply same_latch_trans; eassumption].
        destruct Hskip' as [Hnone|Hf]; [|now right].
        destruct Hskip as [Hnot|Hf]; [|now right].
        left. intros (touch' & [<-|Hin] & Hon); [contradiction|].
        apply Hnone. now exists touch'.
Qed.

Lemma In_last {A : Type} (l : list A) (d : A) : In (last l d) (d :: l).
Proof.
  induction l as [|a l IH]; [now left|].
  destruct l as [|a' l]; [right; now left|].
  change (last (a :: a' :: l) d) with (last (a' :: l) d).
  destruct IH as [E|Hin]; [now left|right; now right].
Qed.

Lemma cooled_mono (eps eta : Q) (maxint : Z) (b : button) (t t' : Q)
      (st : painter) :
  float_format fl eps eta maxint -> (t <= t')%Q ->
  cooled b t st = true -> cooled b t' st = true.
Proof.
  intros F Htt'. unfold cooled, fsub. rewrite !Qgtb_spec. intros Hc.
  eapply Qlt_le_trans; [exact Hc|].
  apply (fl_mono _ _ _ _ F). lra.
Qed.

(** A sample taken three debounce times after one that was not before the
    last processed touch passes the test on [touch_delay]. *)
Lemma processed_after_hold (eps eta : Q) (maxint : Z) (t0 tn : Q)
      (st : painter) :
  float_format fl eps eta maxint ->
  (eps <= 1 # 4)%Q -> (eta <= 1 # 100)%Q -> 1 <= maxint ->
  (last_touch_time st <= t0)%Q ->
  (t0 + 3 * button_debounce_time fl <= tn)%Q ->
  processed tn st = true.
Proof.
  intros F Heps Heta Hmax Hltt Hspan. unfold processed, fsub, touch_delay.
  apply Qgtb_spec. unfold button_debounce_time in Hspan.
  pose proof (fl_eps _ _ _ _ F) as H0.
  pose proof (fl_eta _ _ _ _ F) as H1.
  assert (Hone : (1 <= inject_Z maxint)%Q)
    by (change 1%Q with (inject_Z 1); rewrite <- Zle_Qle; exact Hmax).
  pose proof (fl_near fl eps eta maxint F (1 # 2) (1 # 2)
                ltac:(lra) ltac:(lra)) as Hcd.
  pose proof (fl_near fl eps eta maxint F (3 # 4) (3 # 4)
                ltac:(lra) ltac:(lra)) as H34.
  pose proof (fl_near fl eps eta maxint F (5 # 1000) (5 # 1000)
                ltac:(lra) ltac:(lra)) as Htd.
  assert (Hlow : (fl (3 # 4) <= fl (tn - last_touch_time st))%Q).
  { apply (fl_mono _ _ _ _ F). nra. }
  nra.
Qed.

Lemma loop_iteration_touching (t : Q) (touches : list (Z * Z)) (st : painter) :
  loop_iteration (t, Touching touches) st =
  if processed t st then for_each touches (process_touch t) st else Ok st.
Proof. reflexivity. Qed.

(** While the button stays pressed and the touch is not released, its
    action does not run. *)
Lemma latched_stays (b : button) (samples : list (Q * touch_poll)) :
  9 <= display_height -> Forall (holds b) samples ->
  forall st, display_sized (bitmap st) -> pressed b st = true ->
  exists st', run samples st = Ok st' /\ display_sized (bitmap st') /\
              pressed b st' = true /\ activations b st' = activations b st.
Proof.
  intros H9 Hhold. induction Hhold as [|[t poll] samples Hs _ IH];
    intros st Hbm Hp.
  - exists st. auto.
  - destruct Hs as (touches & Hpoll & _). cbn [snd] in Hpoll. subst poll.
    unfold run. cbn [for_each]. rewrite loop_iteration_touching.
    destruct (processed t st).
    + destruct (touches_button b t touches H9 st Hbm)
        as (st1 & -> & Hbm1 & [(_ & Hf & _)|(_ & Hp1 & _ & Ha1)]).
      * rewrite (fires_pressed b t st Hp) in Hf. discriminate.
      * cbn [bind]. destruct (IH st1 Hbm1) as (st' & Hrun & Hbm' & Hp' & Ha');
          [congruence|].
        exists st'. split; [exact Hrun|]. split; [exact Hbm'|].
        split; [exact Hp'|]. now rewrite Ha'.
    + cbn [bind]. now apply IH.
Qed.

(** A touch held on a released button whose debounce time has passed: as
    long as no sample is processed nothing changes, and from the first
    processed sample on the action has run exactly once. *)
Lemma hold_runs_once (eps eta : Q) (maxint : Z) (b : button)
      (samples : list (Q * touch_poll)) :
  float_format fl eps eta maxint -> 9 <= display_height ->
  Forall (holds b) samples ->
  forall t0 st,
    display_sized (bitmap st) -> pressed b st = false ->
    cooled b t0 st = true -> ascending t0 samples ->
    exists st', run samples st = Ok st' /\
      ((st' = st /\ Forall (fun s => processed (fst s) st = false) samples) \/
       (pressed b st' = true /\ activations b st' = S (activations b st))).
Proof.
  intros F H9 Hhold. induction Hhold as [|[t poll] samples Hs Hrest IH];
    intros t0 st Hbm Hp Hc Hasc.
  - exists st. split; [reflexivity|]. left. auto.
  - destruct Hasc as [Ht0 Hasc]. cbn [fst] in Ht0, Hasc.
    assert (Hc' : cooled b t st = true) by (eapply cooled_mono; eassumption).
    destruct Hs as (touches & Hpoll & Hon). cbn [snd] in Hpoll. subst poll.
    unfold run. cbn [for_each]. rewrite loop_iteration_touching.
    destruct (processed t st) eqn:Hproc.
    + destruct (touches_button b t touches H9 st Hbm)
        as (st1 & -> & Hbm1 & [(_ & _ & Hp1 & _ & Ha1)|([Hnone|Hf] & _)]).
      * cbn [bind].
        destruct (latched_stays b samples H9 Hrest st1 Hbm1 Hp1)
          as (st' & Hrun & _ & Hp' & Ha').
        exists st'. split; [exact Hrun|]. right. split; [exact Hp'|].
        congruence.
      * contradiction.
      * unfold fires in Hf. rewrite Hp, Hc' in Hf. discriminate.
    + cbn [bind].
      destruct (IH t st Hbm Hp Hc' Hasc) as (st' & Hrun & [[-> Hall]|Hdone]).
      * exists st. split; [exact Hrun|]. left. split; [reflexivity|].
        constructor; assumption.
      * exists st'. split; [exact Hrun|]. now right.
Qed.

(** While the debounce time of a button has not passed, its action does
    not run, whatever the samples are. *)
Lemma not_cooled_never_runs (b : button) (samples : list (Q * touch_poll)) :
  9 <= display_height ->
  forall st, display_sized (bitmap st) ->
    Forall (fun s => Qgtb (fsub fl (fst s) (last_change b st))
                          (button_debounce_time fl) = false) samples ->
    exists st', run samples st = Ok st' /\
                activations b st' = activations b st.
Proof.
  intros H9. induction samples as [|[t poll] samples IH]; intros st Hbm Hall.
  - now exists st.
  - inversion Hall as [|s l Hnow Hlater]; subst. cbn [fst] in Hnow.
    assert (Hstep : exists st1, loop_iteration (t, poll) st = Ok st1 /\
              display_sized (bitmap st1) /\
              last_change b st1 = last_change b st /\
              activations b st1 = activations b st).
    { destruct poll as [ | |touches].
      - eexists. split; [reflexivity|]. unfold touch_released, activations.
        destruct (is_drawing st), b; cbn; auto.
      - exists st. auto.
      - rewrite loop_iteration_touching. destruct (processed t st).
        + destruct (touches_button b t touches H9 st Hbm)
            as (st1 & Hrun & Hbm1 & [(_ & Hf & _)|(_ & _ & Hl & Ha)]).
          * rewrite fires_not_cooled in Hf by exact Hnow. discriminate.
          * exists st1. auto.
        + exists st. auto. }
    destruct Hstep as (st1 & Hrun1 & Hbm1 & Hl1 & Ha1).
    unfold run. cbn [for_each]. rewrite Hrun1. cbn [bind].
    destruct (IH st1 Hbm1) as (st' & Hrun & Ha'); [now rewrite Hl1|].
    exists st'. split; [exact Hrun|]. congruence.
Qed.

Lemma touch_released_latch (b : button) (st : painter) :
  display_sized (bitmap st) ->
  display_sized (bitmap (touch_released st)) /\
  pressed b (touch_released st) = false /\
  last_change b (touch_released st) = last_change b st /\
  last_touch_time (touch_released st) = last_touch_time st /\
  activations b (touch_released st) = activations b st.
Proof.
  intros Hbm. unfold touch_released, activations.
  destruct (is_drawing st), b; cbn; auto.
Qed.


End Properties.
(** In exact arithmetic the same holds for every pair of end points. *)
Corollary stamp_centres_exact (x1 y1 x2 y2 : Z) :
  let steps := Z.max (Z.abs (x2 - x1)) (Z.abs (y2 - y1)) in
  let centres := stamp_centres exact x1 y1 x2 y2 in
  List.length centres = Z.to_nat (steps + 1) /\
  nth_error centres 0 = Some (x1, y1) /\
  nth_error centres (Z.to_nat steps) = Some (x2, y2) /\
  forall i, 0 <= i <= steps ->
    exists x y,
      nth_error centres (Z.to_nat i) = Some (x, y) /\
      (Qabs (inject_Z x - on_segment x1 x2 i steps) <= 1)%Q /\
      (Qabs (inject_Z y - on_segment y1 y2 i steps) <= 1)%Q.
Proof.
  set (B := Z.max (Z.max (Z.abs x1) (Z.abs y1)) (Z.max (Z.abs x2) (Z.abs y2))).
  apply (stamp_centres_spec exact 0 0 (2 * B) B);
    try apply exact_format; try lia.
  ring_simplify. reflexivity.
Qed.

(** * The properties on the demo display *)

Lemma demo_canvas_sized : display_sized 720 720 demo_canvas.
Proof. split; reflexivity. Defined.

Lemma demo_palette_sized : display_sized 720 720 demo_palette.
Proof. split; reflexivity. Defined.

(** A stamp of size 6 at (300, 300) on the black canvas reaches column 303
    and not column 304. *)
Lemma draw_brush_footprint_witness :
  display_sized 720 720 demo_canvas /\
  exists bm', draw_brush 720 720 demo_canvas 300 300 65535 6 = Ok bm' /\
              bm_pixel bm' 303 297 = 65535 /\ bm_pixel bm' 304 297 = 0.
Proof.
  split; [exact demo_canvas_sized|].
  destruct (draw_brush_footprint 720 720 demo_canvas 300 300 65535 6
              demo_canvas_sized) as (bm' & Hrun & _ & Hpx).
  exists bm'. split; [exact Hrun|]. rewrite !Hpx. split; reflexivity.
Defined.

(** C2, as stated, fails at size 6: the stamp visits 7 columns and 7 rows,
    and on the black canvas it changes 7 pixels of the row and 7 pixels of the
    column through its centre. *)
Lemma even_brush_is_wider :
  In 6 brush_sizes /\
  NoDup (stamp_columns 300 6) /\ NoDup (stamp_rows 300 6) /\
  List.length (stamp_columns 300 6) = 7%nat /\
  List.length (stamp_rows 300 6) = 7%nat /\
  match draw_brush 720 720 demo_canvas 300 300 65535 6 with
  | Ok bm' =>
      changed_in_row demo_canvas bm' 300 = [297; 298; 299; 300; 301; 302; 303] /\
      changed_in_column demo_canvas bm' 300 = [297; 298; 299; 300; 301; 302; 303]
  | Raise _ => False
  end.
Proof.
  split; [cbn; auto|].
  split; [apply NoDup_map_range|].
  split; [apply NoDup_map_range|].
  vm_compute. repeat split.
Qed.

Lemma brush_side_witness :
  In 9 brush_sizes /\
  Z.of_nat (List.length (stamp_columns 300 9)) = 9 /\
  Z.of_nat (List.length (stamp_rows 300 9)) = 9.
Proof.
  assert (H : In 9 brush_sizes) by (cbn; auto).
  split; [exact H|].
  destruct (brush_side 720 720 demo_canvas 300 300 65535 9 H)
    as (_ & _ & _ & _ & _ & Hc & Hr & _).
  split; [exact Hc|exact Hr].
Defined.

(** The clear button, touched at time 1 on the gradient bitmap. *)
Lemma clear_button_clears_drawing_area_witness :
  display_sized 720 720 (bitmap (initial_state exact demo_palette 65535)) /\
  fires exact Clear 1 (initial_state exact demo_palette 65535) = true /\
  exists st',
    clear_button 720 720 exact 1 (initial_state exact demo_palette 65535)
      = Ok st' /\
    bm_pixel (bitmap st') 160 5 = 0 /\ bm_pixel (bitmap st') 159 5 = 194.
Proof.
  assert (Hf : fires exact Clear 1 (initial_state exact demo_palette 65535)
               = true) by reflexivity.
  split; [exact demo_palette_sized|]. split; [exact Hf|].
  destruct (clear_button_clears_drawing_area 720 720 exact 1
              (initial_state exact demo_palette 65535) demo_palette_sized Hf)
    as (st' & Hrun & _ & _ & Hclear & Hkeep).
  exists st'. split; [exact Hrun|]. split.
  - apply Hclear; unfold palette_width; lia.
  - rewrite Hkeep by (unfold palette_width; lia). reflexivity.
Defined.

(** The line from (100, 650) to (300, 653), in arithmetic that rounds every
    operation down to a multiple of 2^-30. *)
Lemma draw_line_centres_witness :
  float_format (fixed_point 1073741824) 0 (1 # 1073741824) 1440 /\
  2 * 720 <= 1440 /\
  (10 * 0 * inject_Z 720 * inject_Z 720 +
   4 * (1 # 1073741824) * inject_Z 720 * (inject_Z 720 + 1) < 1)%Q /\
  Z.abs 100 <= 720 /\ Z.abs 650 <= 720 /\ Z.abs 300 <= 720 /\ Z.abs 653 <= 720 /\
  List.length (stamp_centres (fixed_point 1073741824) 100 650 300 653)
    = 201%nat /\
  nth_error (stamp_centres (fixed_point 1073741824) 100 650 300 653) 0
    = Some (100, 650) /\
  nth_error (stamp_centres (fixed_point 1073741824) 100 650 300 653) 200
    = Some (300, 653).
Proof.
  assert (Hsmall : (10 * 0 * inject_Z 720 * inject_Z 720 +
            4 * (1 # 1073741824) * inject_Z 720 * (inject_Z 720 + 1) < 1)%Q)
    by reflexivity.
  assert (H1 : Z.abs 100 <= 720) by lia.
  assert (H2 : Z.abs 650 <= 720) by lia.
  assert (H3 : Z.abs 300 <= 720) by lia.
  assert (H4 : Z.abs 653 <= 720) by lia.
  assert (HB : 2 * 720 <= 1440) by lia.
  repeat (split; [assumption || apply fixed_point_format|]).
  destruct (draw_line_centres 720 720 (fixed_point 1073741824)
              0 (1 # 1073741824) 1440 720 demo_canvas
              100 650 300 653 65535 6 (fixed_point_format 1073741824 1440)
              HB Hsmall H1 H2 H3 H4) as (_ & Hlen & Hfirst & Hlast & _).
  repeat split; assumption.
Defined.

(** [binary64] on some values: the integers up to 2^53 are kept, 2^53 + 1
    and 2^53 + 3 are ties and go to the even neighbours, and 1/10 goes to
    the nearest multiple of 2^-56. *)
Example binary64_values :
  (binary64 720 = 720 /\
   binary64 (inject_Z 9007199254740992) = inject_Z 9007199254740992 /\
   binary64 (inject_Z 9007199254740993) = inject_Z 9007199254740992 /\
   binary64 (inject_Z 9007199254740995) = inject_Z 9007199254740996 /\
   binary64 (- inject_Z 9007199254740993) = inject_Z (- 9007199254740992) /\
   binary64 (1 # 2) = 1 # 2 /\
   binary64 (1 # 10) = 3602879701896397 # 36028797018963968)%Q.
Proof. vm_compute. repeat split. Qed.

(** In binary64 the line of the witness has the same first and last stamp
    as in exact arithmetic. *)
Example binary64_line_on_the_display :
  nth_error (stamp_centres binary64 100 650 300 653) 0 = Some (100, 650) /\
  nth_error (stamp_centres binary64 100 650 300 653) 200 = Some (300, 653) /\
  stamp_centres binary64 0 0 3 0 = [(0, 0); (1, 0); (2, 0); (3, 0)].
Proof. vm_compute. repeat split. Qed.

(** C8, as stated for every pair of integer points, fails beyond the
    integers that the floats represent. In binary64, the line from
    (2^53 + 1, 0) to (2^53 + 3, 0) has its three stamps at the columns 2^53,
    2^53 and 2^53 + 2: neither end point is stamped. On a display 2^54
    wide and one pixel high, a line of size 1 leaves both end points black
    and paints the two columns beside them. *)
Lemma far_end_points_not_stamped :
  stamp_centres binary64 9007199254740993 0 9007199254740995 0 =
    [(9007199254740992, 0); (9007199254740992, 0); (9007199254740994, 0)] /\
  ~ In (9007199254740993, 0)
       (stamp_centres binary64 9007199254740993 0 9007199254740995 0) /\
  ~ In (9007199254740995, 0)
       (stamp_centres binary64 9007199254740993 0 9007199254740995 0) /\
  match draw_line 18014398509481984 1 binary64
          (blank 18014398509481984 1 0)
          9007199254740993 0 9007199254740995 0 65535 1 with
  | Ok bm' =>
      bm_pixel bm' 9007199254740993 0 = 0 /\
      bm_pixel bm' 9007199254740995 0 = 0 /\
      bm_pixel bm' 9007199254740992 0 = 65535 /\
      bm_pixel bm' 9007199254740994 0 = 65535
  | Raise _ => False
  end.
Proof.
  assert (Hc : stamp_centres binary64 9007199254740993 0 9007199254740995 0 =
    [(9007199254740992, 0); (9007199254740992, 0); (9007199254740994, 0)])
    by (vm_compute; reflexivity).
  split; [exact Hc|]. rewrite Hc.
  split; [|split].
  - intros [H|[H|[H|[]]]]; discriminate.
  - intros [H|[H|[H|[]]]]; discriminate.
  - vm_compute. repeat split.
Qed.

(** Rounding can move a stamp by a pixel: a third of the way from 0 to 3,
    exact arithmetic stamps at column 1, and arithmetic rounded down to
    multiples of 2^-30 at column 0. *)
Example rounding_moves_a_stamp :
  nth_error (stamp_centres exact 0 0 3 0) 1 = Some (1, 0) /\
  nth_error (stamp_centres (fixed_point 1073741824) 0 0 3 0) 1 = Some (0, 0).
Proof. split; reflexivity. Qed.

Lemma region_boundaries_witness :
  palette_width < 720 /\ 9 <= 720 /\
  section_height 720 = 80 /\
  classify 720 720 159 0 = Ok (PaletteColor 0) /\
  classify 720 720 160 0 = Ok Canvas /\
  classify 720 720 10 560 = Ok ClearButton /\
  classify 720 720 10 640 = Ok SizeButton /\
  classify 720 720 10 719 = Ok SizeButton.
Proof.
  assert (HW : palette_width < 720) by (unfold palette_width; lia).
  assert (H9 : 9 <= 720) by lia.
  destruct (region_boundaries 720 720 HW H9)
    as (Hpal & Hcanvas & _ & _ & Hrows).
  destruct (Hrows 10) as (H7 & H8 & Hlast); [unfold palette_width; lia|].
  repeat split; assumption.
Defined.

(** A touch at (50, 10) picks the pixel of the palette there, 50 + 7 * 10. *)
Lemma color_from_bitmap_witness :
  9 <= 720 /\ display_sized 720 720 demo_palette /\
  0 <= 50 < 720 /\ 0 <= 10 < 720 /\ 50 < palette_width /\
  10 / section_height 720 < 7 /\
  exists st',
    process_touch 720 720 exact 1 (50, 10)
      (initial_state exact demo_palette 65535) = Ok st' /\
    current_color st' = 120.
Proof.
  assert (H9 : 9 <= 720) by lia.
  assert (Hx : 0 <= 50 < 720) by lia.
  assert (Hy : 0 <= 10 < 720) by lia.
  assert (Hp : 50 < palette_width) by (unfold palette_width; lia).
  assert (Hs : 10 / section_height 720 < 7) by (cbn; lia).
  repeat (split; [assumption || exact demo_palette_sized|]).
  destruct (color_from_bitmap 720 720 exact 1 50 10
              (initial_state exact demo_palette 65535)
              H9 demo_palette_sized Hx Hy Hp Hs)
    as (st' & Hrun & _ & Hcolor & _).
  exists st'. split; [exact Hrun|]. rewrite Hcolor. reflexivity.
Defined.

(** C3, as stated, fails. After [demo_slide] the finger is on the size
    button, which is still pressed, and the stroke goes on from (300, 300);
    after [demo_return] the finger is on the released size button within its
    debounce time, and the stroke goes on as well. The next canvas touch, at
    (400, 300), then draws the segment between the two canvas points. *)
Lemma debounced_button_keeps_stroke :
  classify 720 720 10 650 = Ok SizeButton /\
  match run 720 720 exact demo_slide demo_painter with
  | Ok st =>
      pressed Size st = true /\
      is_drawing st = true /\ last_draw_pos st = Some (300, 300) /\
      ~ idle st /\
      match process_touch 720 720 exact (13 # 10) (400, 300) st with
      | Ok st' => bm_pixel (bitmap st') 350 300 = 65535
      | Raise _ => False
      end
  | Raise _ => False
  end /\
  match run 720 720 exact demo_return demo_painter with
  | Ok st =>
      pressed Size st = false /\ cooled exact Size (13 # 10) st = false /\
      is_drawing st = true /\ last_draw_pos st = Some (300, 300) /\
      ~ idle st
  | Raise _ => False
  end.
Proof.
  split; [reflexivity|]. unfold idle.
  vm_compute. repeat split; try discriminate; intros [H _]; discriminate.
Qed.

Lemma demo_slid_sized : display_sized 720 720 (bitmap demo_slid).
Proof. split; vm_compute; reflexivity. Defined.

(** From the state with the size button pressed and a stroke in progress at
    (300, 300): a touch on the palette and a touch on the clear button,
    whose action runs, end the stroke; a touch on the size button, which is
    pressed, leaves the stroke in progress. *)
Lemma non_canvas_hit_stroke_witness :
  9 <= 720 /\ display_sized 720 720 (bitmap demo_slid) /\
  is_drawing demo_slid = true /\ last_draw_pos demo_slid = Some (300, 300) /\
  classify 720 720 50 10 = Ok (PaletteColor 0) /\
  classify 720 720 10 570 = Ok (button_hit Clear) /\
  classify 720 720 10 650 = Ok (button_hit Size) /\
  fires exact Clear (12 # 10) demo_slid = true /\
  fires exact Size (12 # 10) demo_slid = false /\
  (exists st',
     process_touch 720 720 exact (12 # 10) (50, 10) demo_slid = Ok st' /\
     idle st') /\
  (exists st',
     process_touch 720 720 exact (12 # 10) (10, 570) demo_slid = Ok st' /\
     idle st') /\
  (exists st',
     process_touch 720 720 exact (12 # 10) (10, 650) demo_slid = Ok st' /\
     is_drawing st' = true /\ last_draw_pos st' = Some (300, 300)).
Proof.
  assert (H9 : 9 <= 720) by lia.
  assert (Hd : is_drawing demo_slid = true) by (vm_compute; reflexivity).
  assert (Hl : last_draw_pos demo_slid = Some (300, 300))
    by (vm_compute; reflexivity).
  assert (Hp : classify 720 720 50 10 = Ok (PaletteColor 0)) by reflexivity.
  assert (Hc : classify 720 720 10 570 = Ok (button_hit Clear))
    by reflexivity.
  assert (Hb : classify 720 720 10 650 = Ok (button_hit Size)) by reflexivity.
  assert (Hfc : fires exact Clear (12 # 10) demo_slid = true)
    by (vm_compute; reflexivity).
  assert (Hfs : fires exact Size (12 # 10) demo_slid = false)
    by (vm_compute; reflexivity).
  repeat (split; [assumption || exact demo_slid_sized|]).
  destruct (non_canvas_hit_stroke 720 720 exact (12 # 10) 50 10 demo_slid
              H9 demo_slid_sized) as (Hpalette & _).
  destruct (non_canvas_hit_stroke 720 720 exact (12 # 10) 10 570 demo_slid
              H9 demo_slid_sized) as (_ & Hclear).
  destruct (non_canvas_hit_stroke 720 720 exact (12 # 10) 10 650 demo_slid
              H9 demo_slid_sized) as (_ & Hsize).
  split; [exact (Hpalette 0 Hp)|]. split.
  - destruct (Hclear Clear Hc) as (st' & Hrun & Hst).
    rewrite Hfc in Hst. exists st'. split; [exact Hrun|exact Hst].
  - destruct (Hsize Size Hb) as (st' & Hrun & Hst).
    rewrite Hfs in Hst. destruct Hst as [Hd' Hl'].
    exists st'. split; [exact Hrun|].
    split; [now rewrite Hd'|now rewrite Hl'].
Defined.

Lemma stroke_invariant_witness :
  9 <= 720 /\ display_sized 720 720 demo_canvas /\
  exists st', run 720 720 exact demo_return demo_painter = Ok st' /\
              stroke_consistent st'.
Proof.
  assert (H9 : 9 <= 720) by lia.
  split; [exact H9|]. split; [exact demo_canvas_sized|].
  destruct (stroke_invariant 720 720 exact H9) as (_ & _ & _ & Hrun).
  exact (Hrun demo_canvas 65535 demo_return demo_canvas_sized).
Defined.

Lemma demo_hold_holds : Forall (holds 720 720 Size) demo_hold.
Proof.
  repeat constructor; eexists; (split; [reflexivity|]);
    exists (10, 650); (split; [now left|reflexivity]).
Defined.

Lemma demo_held_sized : display_sized 720 720 (bitmap demo_held).
Proof. split; vm_compute; reflexivity. Defined.

Lemma demo_tapped_sized : display_sized 720 720 (bitmap demo_tapped).
Proof. split; vm_compute; reflexivity. Defined.



(** On a display whose height is not a multiple of 9, the rows below
    [9 * section_height] of the left column belong to section 9, which takes
    none of the three branches. *)
Example remainder_rows_take_no_branch :
  section_height 480 = 53 /\ classify 480 480 10 477 = Ok NoBranch.
Proof. split; reflexivity. Qed.


(** * Further properties of the drawing primitives and of the loop *)

(** The Hoare rule of a loop over [range(lo, hi)]. *)
Lemma for_each_range_invariant {S : Type} (Inv : Z -> S -> Prop) (lo hi : Z)
      (body : Z -> S -> result S) :
  lo <= hi ->
  (forall i s, lo <= i < hi -> Inv i s ->
     exists s', body i s = Ok s' /\ Inv (i + 1) s') ->
  forall s, Inv lo s ->
    exists s', for_each (range lo hi) body s = Ok s' /\ Inv hi s'.
Proof.
  intros Hle Hbody.
  remember (Z.to_nat (hi - lo)) as n eqn:Hn.
  revert lo Hle Hbody Hn. induction n as [|n IH]; intros lo Hle Hbody Hn s Hs.
  - assert (lo = hi) as -> by lia.
    unfold range. rewrite Z.sub_diag. cbn. now exists s.
  - rewrite range_cons by lia. cbn [for_each].
    destruct (Hbody lo s) as (s1 & -> & H1); [lia|exact Hs|].
    cbn [bind]. apply IH; try lia; [|exact H1].
    intros i s' Hi. apply Hbody. lia.
Qed.

Section MoreProperties.

Variable display_width display_height : Z.
Variable fl : Q -> Q.

Local Abbreviation draw_brush := (draw_brush display_width display_height).
Local Abbreviation draw_line := (draw_line display_width display_height fl).
Local Abbreviation clear_drawing_area :=
  (clear_drawing_area display_width display_height).
Local Abbreviation display_sized := (display_sized display_width display_height).
Local Abbreviation footprint := (footprint display_width display_height).
Local Abbreviation section_height := (section_height display_height).
Local Abbreviation classify := (classify display_width display_height).
Local Abbreviation process_touch :=
  (process_touch display_width display_height fl).
Local Abbreviation process_touches :=
  (process_touches display_width display_height fl).
Local Abbreviation loop_iteration :=
  (loop_iteration display_width display_height fl).
Local Abbreviation run := (run display_width display_height fl).
Local Abbreviation cooled := (cooled fl).
Local Abbreviation fires := (fires fl).
Local Abbreviation processed := (processed fl).
Local Abbreviation initial_state := (initial_state fl).
Local Abbreviation handled := (handled display_width display_height fl).
Local Abbreviation stroke_on_canvas :=
  (stroke_on_canvas display_width display_height).
Local Abbreviation polyline := (polyline display_width display_height fl).
Local Abbreviation stroke := (stroke display_width display_height fl).

(** ** Lines and stamps *)

Lemma draw_line_paints (bm : Bitmap) (x1 y1 x2 y2 color size : Z) :
  display_sized bm ->
  exists bm', draw_line bm x1 y1 x2 y2 color size = Ok bm' /\
    paints (fun px py =>
              existsb (fun c => footprint (fst c) (snd c) size px py)
                      (stamp_centres fl x1 y1 x2 y2)) color bm bm'.
Proof.
  intros Hbm. rewrite draw_line_stamps.
  apply (for_each_paints display_width display_height
           (stamp_centres fl x1 y1 x2 y2) _
           (fun c => footprint (fst c) (snd c) size)); [|exact Hbm].
  intros c bm1 _ Hbm1. now apply draw_brush_paints.
Qed.

(** X1. For end points in the range that the float format represents
    exactly (beyond the range of the floats the conversion of a coordinate
    raises [OverflowError], which the float model does not have) and a
    colour of 16 bits, [draw_line] on a bitmap of the size of the display
    returns, and sets to the colour exactly the union of the footprints of
    its stamps; every other pixel keeps its value. End points outside the
    display are clipped, not an error. *)
Theorem draw_line_footprint (eps eta : Q) (maxint B : Z) (bm : Bitmap)
        (x1 y1 x2 y2 color size : Z) :
  float_format fl eps eta maxint -> 2 * B <= maxint ->
  Z.abs x1 <= B -> Z.abs y1 <= B -> Z.abs x2 <= B -> Z.abs y2 <= B ->
  0 <= color <= 65535 ->
  display_sized bm ->
  exists bm',
    draw_line bm x1 y1 x2 y2 color size = Ok bm' /\
    display_sized bm' /\
    forall px py,
      bm_pixel bm' px py =
        if existsb (fun c => footprint (fst c) (snd c) size px py)
                   (stamp_centres fl x1 y1 x2 y2)
        then color
        else bm_pixel bm px py.
Proof.
  intros _ _ _ _ _ _ _ Hbm.
  destruct (draw_line_paints bm x1 y1 x2 y2 color size Hbm)
    as (bm' & Hrun & Hp).
  exists bm'. split; [exact Hrun|].
  split; [eapply paints_sized; eassumption|].
  destruct Hp as (_ & _ & Hp). exact Hp.
Qed.

(** X2. The sizes at the edge: a negative size draws nothing ([draw_brush]
    returns the bitmap it was given), and the sizes 0 and 1 both set the one
    pixel at the centre, when it is on the display. *)
Theorem draw_brush_small_sizes (bm : Bitmap) (x y color size : Z) :
  (size < 0 -> draw_brush bm x y color size = Ok bm) /\
  (0 <= size <= 1 -> display_sized bm ->
   exists bm',
     draw_brush bm x y color size = Ok bm' /\
     forall px py,
       bm_pixel bm' px py =
         if between 0 x display_width && between 0 y display_height &&
            ((px =? x) && (py =? y))
         then color
         else bm_pixel bm px py).
Proof.
  split.
  - intros Hneg. unfold draw_brush, brush_span.
    assert (Hhalf : size / 2 < 0) by (apply Z.div_lt_upper_bound; lia).
    unfold range.
    replace (Z.to_nat (size / 2 + 1 - - (size / 2))) with 0%nat by lia.
    reflexivity.
  - intros Hsize Hbm.
    destruct (draw_brush_paints display_width display_height
                bm x y color size Hbm) as (bm' & Hrun & _ & _ & Hp).
    exists bm'. split; [exact Hrun|]. intros px py. rewrite Hp.
    assert (Hhalf : size / 2 = 0) by (apply Z.div_small; lia).
    unfold footprint.
    match goal with
    | |- (if ?a then _ else _) = (if ?b then _ else _) =>
        replace a with b; [reflexivity|]
    end.
    apply eq_true_iff_eq.
    rewrite !andb_true_iff, !between_spec, Z.leb_le, !Z.eqb_eq. lia.
Qed.

(** X3. Stamps of one colour compose as the union of their footprints: two
    stamps give the same pixels in either order, and a stamp repeated gives
    the pixels of the stamp drawn once. *)
Theorem stamps_compose (bm : Bitmap) (x1 y1 s1 x2 y2 s2 color : Z) :
  display_sized bm ->
  exists a b ab ba aa,
    draw_brush bm x1 y1 color s1 = Ok a /\
    draw_brush a x2 y2 color s2 = Ok ab /\
    draw_brush bm x2 y2 color s2 = Ok b /\
    draw_brush b x1 y1 color s1 = Ok ba /\
    draw_brush a x1 y1 color s1 = Ok aa /\
    (forall px py, bm_pixel ab px py = bm_pixel ba px py) /\
    (forall px py, bm_pixel aa px py = bm_pixel a px py).
Proof.
  intros Hbm.
  destruct (draw_brush_paints display_width display_height
              bm x1 y1 color s1 Hbm) as (a & Ha & Hpa).
  pose proof (paints_sized _ _ _ _ _ _ Hpa Hbm) as Hsa.
  destruct (draw_brush_paints display_width display_height
              a x2 y2 color s2 Hsa) as (ab & Hab & Hpab).
  destruct (draw_brush_paints display_width display_height
              bm x2 y2 color s2 Hbm) as (b & Hb & Hpb).
  pose proof (paints_sized _ _ _ _ _ _ Hpb Hbm) as Hsb.
  destruct (draw_brush_paints display_width display_height
              b x1 y1 color s1 Hsb) as (ba & Hba & Hpba).
  destruct (draw_brush_paints display_width display_height
              a x1 y1 color s1 Hsa) as (aa & Haa & Hpaa).
  exists a, b, ab, ba, aa. repeat (split; [assumption|]).
  destruct Hpa as (_ & _ & Hpa), Hpab as (_ & _ & Hpab),
           Hpb as (_ & _ & Hpb), Hpba as (_ & _ & Hpba),
           Hpaa as (_ & _ & Hpaa).
  split; intros px py.
  - rewrite Hpab, Hpa, Hpba, Hpb.
    now destruct (footprint x1 y1 s1 px py), (footprint x2 y2 s2 px py).
  - rewrite Hpaa, Hpa. now destruct (footprint x1 y1 s1 px py).
Qed.

Lemma int_of_float_between (lo hi : Z) (q : Q) :
  (inject_Z lo <= q <= inject_Z hi)%Q -> lo <= int_of_float q <= hi.
Proof.
  intros [Hlo Hhi]. unfold int_of_float. destruct (Qle_bool 0 q).
  - rewrite <- (Qfloor_Z lo), <- (Qfloor_Z hi).
    split; now apply Qfloor_resp_le.
  - rewrite <- (Qceiling_Z lo), <- (Qceiling_Z hi).
    split; now apply Qceiling_resp_le.
Qed.

(** One coordinate of a stamp centre lies between the two ends. *)
Lemma interpolate_between (eps eta : Q) (maxint B a b i steps : Z) :
  float_format fl eps eta maxint -> 2 * B <= maxint ->
  Z.abs a <= B -> Z.abs b <= B ->
  0 <= i <= steps -> 1 <= steps <= 2 * B ->
  Z.min a b <= interpolate fl a b (fl (of_int fl i / of_int fl steps)%Q)
            <= Z.max a b.
Proof.
  intros F HB Ha Hb Hi Hs.
  assert (Ei : (of_int fl i == inject_Z i)%Q)
    by (apply (fl_int _ _ _ _ F); lia).
  assert (Es : (of_int fl steps == inject_Z steps)%Q)
    by (apply (fl_int _ _ _ _ F); lia).
  assert (Ea : (of_int fl a == inject_Z a)%Q)
    by (apply (fl_int _ _ _ _ F); lia).
  assert (Ed : (of_int fl (b - a) == inject_Z (b - a))%Q)
    by (apply (fl_int _ _ _ _ F); lia).
  assert (HS : (1 <= inject_Z steps)%Q)
    by (change 1%Q with (inject_Z 1); rewrite <- Zle_Qle; lia).
  assert (HI0 : (0 <= inject_Z i)%Q)
    by (change 0%Q with (inject_Z 0); rewrite <- Zle_Qle; lia).
  assert (HIS : (inject_Z i <= inject_Z steps)%Q) by (rewrite <- Zle_Qle; lia).
  set (t := fl (of_int fl i / of_int fl steps)%Q).
  assert (Ht : (0 <= t <= 1)%Q).
  { assert (Et : (t == fl (inject_Z i / inject_Z steps))%Q).
    { unfold t. apply (fl_proper fl eps eta maxint F). now rewrite Ei, Es. }
    assert (Hr : (0 <= inject_Z i / inject_Z steps <= 1)%Q).
    { split.
      - apply Qle_shift_div_l; lra.
      - apply Qle_shift_div_r; lra. }
    rewrite Et.
    apply (fl_clamp fl eps eta maxint F 0 1); try lia. exact Hr. }
  unfold interpolate, fadd, fmul.
  set (d := inject_Z (b - a)) in *.
  set (p := fl (t * of_int fl (b - a))%Q).
  assert (Ep : (p == fl (t * d))%Q).
  { unfold p. apply (fl_proper fl eps eta maxint F). now rewrite Ed. }
  assert (Hd : (inject_Z a + d == inject_Z b)%Q).
  { unfold d. rewrite <- inject_Z_plus. f_equiv. lia. }
  apply int_of_float_between.
  assert (Esum : (fl (of_int fl a + p) == fl (inject_Z a + p))%Q).
  { apply (fl_proper fl eps eta maxint F). now rewrite Ea. }
  rewrite Esum.
  destruct (Z_le_gt_dec a b) as [Hab|Hab].
  - rewrite Z.min_l, Z.max_r by lia.
    assert (H0d : (0 <= d)%Q)
      by (change 0%Q with (inject_Z 0); unfold d; rewrite <- Zle_Qle; lia).
    assert (Hp : (inject_Z 0 <= p <= inject_Z (b - a))%Q).
    { rewrite Ep. apply (fl_clamp fl eps eta maxint F 0 (b - a)); try lia.
      fold d. change (inject_Z 0) with 0%Q. nra. }
    fold d in Hp. change (inject_Z 0) with 0%Q in Hp.
    apply (fl_clamp fl eps eta maxint F a b); try lia. lra.
  - rewrite Z.min_r, Z.max_l by lia.
    assert (H0d : (d <= 0)%Q)
      by (change 0%Q with (inject_Z 0); unfold d; rewrite <- Zle_Qle; lia).
    assert (Hp : (inject_Z (b - a) <= p <= inject_Z 0)%Q).
    { rewrite Ep. apply (fl_clamp fl eps eta maxint F (b - a) 0); try lia.
      fold d. change (inject_Z 0) with 0%Q. nra. }
    fold d in Hp. change (inject_Z 0) with 0%Q in Hp.
    apply (fl_clamp fl eps eta maxint F b a); try lia. lra.
Qed.

Lemma stamp_centres_box (eps eta : Q) (maxint B : Z) (x1 y1 x2 y2 : Z) :
  float_format fl eps eta maxint -> 2 * B <= maxint ->
  Z.abs x1 <= B -> Z.abs y1 <= B -> Z.abs x2 <= B -> Z.abs y2 <= B ->
  forall c, In c (stamp_centres fl x1 y1 x2 y2) ->
    Z.min x1 x2 <= fst c <= Z.max x1 x2 /\
    Z.min y1 y2 <= snd c <= Z.max y1 y2.
Proof.
  intros F HB Hx1 Hy1 Hx2 Hy2 c Hc. unfold stamp_centres in Hc.
  destruct (Z.eqb_spec (Z.max (Z.abs (x2 - x1)) (Z.abs (y2 - y1))) 0)
    as [E|E].
  - destruct Hc as [<-|[]]. cbn. lia.
  - apply in_map_iff in Hc as (i & <- & Hi). apply In_range in Hi.
    unfold stamp_centre. cbn [fst snd].
    split; apply (interpolate_between eps eta maxint B); try assumption; lia.
Qed.

(** X4. With a float format that rounds monotonically and represents the
    coordinates exactly, every stamp of a line is centred inside the
    bounding box of the two end points. *)
Theorem stamp_centres_in_box (eps eta : Q) (maxint B : Z) (x1 y1 x2 y2 : Z) :
  float_format fl eps eta maxint -> 2 * B <= maxint ->
  Z.abs x1 <= B -> Z.abs y1 <= B -> Z.abs x2 <= B -> Z.abs y2 <= B ->
  forall c, In c (stamp_centres fl x1 y1 x2 y2) ->
    Z.min x1 x2 <= fst c <= Z.max x1 x2 /\
    Z.min y1 y2 <= snd c <= Z.max y1 y2.
Proof. apply stamp_centres_box. Qed.

(** ** The effect of one touch, branch by branch *)

Lemma drawing_area_effect (x y : Z) (st : painter) :
  display_sized (bitmap st) ->
  exists bm',
    stroke (bitmap st) (stroke_start st) [(x, y)]
           (current_color st) (pixel_size st) = Ok bm' /\
    display_sized bm' /\
    drawing_area display_width display_height fl x y st =
      Ok (set_stroke (Some (x, y)) true (set_bitmap bm' st)).
Proof.
  intros Hbm. unfold drawing_area, stroke_start, stroke.
  destruct (is_drawing st), (last_draw_pos st) as [[x0 y0]|];
    cbn.
  - destruct (draw_line_sized display_width display_height fl (bitmap st)
                x0 y0 x y (current_color st) (pixel_size st) Hbm)
      as (bm' & -> & Hs).
    exists bm'. cbn [bind]. auto.
  - destruct (draw_brush_sized display_width display_height (bitmap st)
                x y (current_color st) (pixel_size st) Hbm) as (bm' & -> & Hs).
    exists bm'. cbn [bind]. auto.
  - destruct (draw_brush_sized display_width display_height (bitmap st)
                x y (current_color st) (pixel_size st) Hbm) as (bm' & -> & Hs).
    exists bm'. cbn [bind]. auto.
  - destruct (draw_brush_sized display_width display_height (bitmap st)
                x y (current_color st) (pixel_size st) Hbm) as (bm' & -> & Hs).
    exists bm'. cbn [bind]. auto.
Qed.

Lemma clear_button_effect (t : Q) (st : painter) :
  display_sized (bitmap st) -> fires Clear t st = true ->
  exists bm',
    clear_drawing_area (bitmap st) = Ok bm' /\
    paints (fun px py => between palette_width px display_width &&
                         between 0 py display_height) 0 (bitmap st) bm' /\
    clear_button display_width display_height fl t st =
      Ok (set_stroke None false
           (set_clear_button_last_change t
             (set_clear_button_pressed true
               (print MsgCleared (set_bitmap bm' (print MsgClearing st)))))).
Proof.
  intros Hbm Hf.
  destruct (clear_drawing_area_paints display_width display_height
              (bitmap st) Hbm) as (bm' & Hrun & Hp).
  exists bm'. split; [exact Hrun|]. split; [exact Hp|].
  unfold clear_button. unfold fires, cooled in Hf.
  cbn [pressed last_change] in Hf. apply andb_true_iff in Hf as [Hp1 Hc1].
  rewrite Hp1, Hc1. cbn [bitmap print]. now rewrite Hrun.
Qed.

Lemma size_button_effect (t : Q) (st : painter) :
  fires Size t st = true ->
  exists size,
    list_getitem brush_sizes ((current_brush_index st + 1) mod 5) = Ok size /\
    size_button fl t st =
      Ok (set_stroke None false
           (set_size_button_last_change t
             (set_size_button_pressed true
               (print (MsgBrushSize size)
                 (set_brush ((current_brush_index st + 1) mod 5) size st))))).
Proof.
  intros Hf. unfold size_button.
  unfold fires, cooled in Hf.
  cbn [pressed last_change] in Hf. apply andb_true_iff in Hf as [Hp1 Hc1].
  rewrite Hp1, Hc1. change (Z.of_nat (List.length brush_sizes)) with 5.
  destruct (brush_sizes_getitem ((current_brush_index st + 1) mod 5))
    as (size & Hsize); [apply Z.mod_pos_bound; lia|].
  exists size. split; [exact Hsize|]. now rewrite Hsize.
Qed.

Lemma color_selection_effect (section x y : Z) (st : painter) :
  display_sized (bitmap st) ->
  0 <= x < display_width -> 0 <= y < display_height -> 0 <= section < 7 ->
  exists name,
    list_getitem color_names section = Ok name /\
    color_selection section x y st =
      Ok (set_stroke None false
           (print (MsgColor name (bm_pixel (bitmap st) x y))
             (set_current_color (bm_pixel (bitmap st) x y) st))).
Proof.
  intros [Hw Hh] Hx Hy Hsec. unfold color_selection, getitem, in_bitmap.
  rewrite Hw, Hh.
  replace (between 0 x display_width) with true
    by (symmetry; now apply between_spec).
  replace (between 0 y display_height) with true
    by (symmetry; now apply between_spec).
  cbn [andb bind].
  change (Z.of_nat (List.length color_names)) with 8.
  replace (section <? 8) with true by (symmetry; apply Z.ltb_lt; lia).
  destruct (color_names_getitem section Hsec) as (name & Hname).
  exists name. split; [exact Hname|]. now rewrite Hname.
Qed.

(** What a touch does, by the branch it takes. *)
Lemma process_touch_effect (t : Q) (x y : Z) (h : hit) (st : painter) :
  9 <= display_height -> display_sized (bitmap st) ->
  classify x y = Ok h ->
  match h with
  | OutOfBounds => process_touch t (x, y) st = Ok st
  | ClearButton =>
      if fires Clear t st then
        exists bm',
          clear_drawing_area (bitmap st) = Ok bm' /\
          paints (fun px py => between palette_width px display_width &&
                               between 0 py display_height) 0 (bitmap st) bm' /\
          process_touch t (x, y) st =
            Ok (set_last_touch_time t
                 (set_stroke None false
                   (set_clear_button_last_change t
                     (set_clear_button_pressed true
                       (print MsgCleared
                         (set_bitmap bm' (print MsgClearing st)))))))
      else process_touch t (x, y) st = Ok (set_last_touch_time t st)
  | SizeButton =>
      if fires Size t st then
        exists size,
          list_getitem brush_sizes ((current_brush_index st + 1) mod 5)
            = Ok size /\
          process_touch t (x, y) st =
            Ok (set_last_touch_time t
                 (set_stroke None false
                   (set_size_button_last_change t
                     (set_size_button_pressed true
                       (print (MsgBrushSize size)
                         (set_brush ((current_brush_index st + 1) mod 5)
                                    size st))))))
      else process_touch t (x, y) st = Ok (set_last_touch_time t st)
  | PaletteColor section =>
      exists name,
        list_getitem color_names section = Ok name /\
        process_touch t (x, y) st =
          Ok (set_last_touch_time t
               (set_stroke None false
                 (print (MsgColor name (bm_pixel (bitmap st) x y))
                   (set_current_color (bm_pixel (bitmap st) x y) st))))
  | Canvas =>
      exists bm',
        stroke (bitmap st) (stroke_start st) [(x, y)]
               (current_color st) (pixel_size st) = Ok bm' /\
        display_sized bm' /\
        process_touch t (x, y) st =
          Ok (set_last_touch_time t
               (set_stroke (Some (x, y)) true (set_bitmap bm' st)))
  | NoBranch => process_touch t (x, y) st = Ok (set_last_touch_time t st)
  end.
Proof.
  intros H9 Hbm Hc.
  unfold process_touch. rewrite Hc. cbn [bind].
  destruct h as [ | | |section| | ].
  - reflexivity.
  - destruct (fires Clear t st) eqn:Ef.
    + destruct (clear_button_effect t st Hbm Ef) as (bm' & Hrun & Hp & ->).
      exists bm'. auto.
    + pose proof (clear_button_spec display_width display_height fl
                    t st Hbm) as Hs.
      rewrite Ef in Hs. now rewrite Hs.
  - destruct (fires Size t st) eqn:Ef.
    + destruct (size_button_effect t st Ef) as (size & Hsize & ->).
      exists size. auto.
    + pose proof (size_button_spec fl t st) as Hs.
      rewrite Ef in Hs. now rewrite Hs.
  - destruct (classify_in_bounds display_width display_height x y _ H9 Hc)
      as [Hx Hy]; [discriminate|].
    destruct (classify_palette display_width display_height x y _ H9 Hc)
      as (_ & Hsec & _).
    destruct (color_selection_effect section x y st Hbm Hx Hy Hsec)
      as (name & Hname & ->).
    exists name. auto.
  - destruct (drawing_area_effect x y st Hbm) as (bm' & Hst & Hs & ->).
    exists bm'. auto.
  - reflexivity.
Qed.

(** ** Invariants of the loop *)

Ltac close_steady :=
  repeat split;
  try assumption; try lia; try discriminate; try congruence;
  try (let Hnone := fresh in intro Hnone; exfalso; apply Hnone; reflexivity);
  try (intros; congruence); try (intros; lia);
  try (match goal with
       | E : Some _ = Some _ |- _ => injection E as <- <-; lia
       end).

Lemma classify_canvas (x y : Z) :
  9 <= display_height -> classify x y = Ok Canvas ->
  palette_width <= x < display_width /\ 0 <= y < display_height.
Proof.
  intros H9 Hc.
  destruct (classify_in_bounds display_width display_height x y _ H9 Hc)
    as [Hx Hy]; [discriminate|].
  rewrite (classify_spec display_width display_height x y H9) in Hc.
  destruct (negb (between 0 x display_width) ||
            negb (between 0 y display_height)); [discriminate|].
  destruct (Z.ltb_spec x palette_width) as [Hlt|Hge]; [|lia].
  destruct (y / section_height =? 7); [discriminate|].
  destruct (y / section_height =? 8); [discriminate|].
  destruct (y / section_height <? 7); discriminate.
Qed.

Lemma initial_state_steady (bm : Bitmap) (white : Z) :
  display_sized bm -> steady display_width display_height (initial_state bm white).
Proof.
  intros [Hw Hh]. unfold steady, brush_consistent, stroke_consistent,
    stroke_on_canvas, display_sized. cbn.
  close_steady.
Qed.

(** Every touch keeps the state steady, and keeps the brush index in step
    with the number of runs of the size button. *)
Lemma process_touch_steady (k : Z) (t : Q) (touch : Z * Z) (st : painter) :
  9 <= display_height ->
  steady display_width display_height st /\
  current_brush_index st = (k + Z.of_nat (activations Size st)) mod 5 ->
  exists st', process_touch t touch st = Ok st' /\
    (steady display_width display_height st' /\
     current_brush_index st' = (k + Z.of_nat (activations Size st')) mod 5).
Proof.
  intros H9 Hall.
  pose proof Hall as [(Hbm & (Hsize & Hidx & Hlabel) & Hstroke & Hcanvas) Hcount].
  destruct touch as [x y].
  destruct (classify_total display_width display_height x y H9) as (h & Hc).
  pose proof (process_touch_effect t x y h st H9 Hbm Hc) as He.
  destruct Hstroke as [Hs1 Hs2].
  assert (Hkeep : steady display_width display_height (set_last_touch_time t st)
                  /\ current_brush_index (set_last_touch_time t st) =
                     (k + Z.of_nat (activations Size (set_last_touch_time t st)))
                       mod 5) by exact Hall.
  unfold stroke_on_canvas in Hcanvas.
  destruct h as [ | | |section| | ].
  - exists st. split; [exact He|exact Hall].
  - destruct (fires Clear t st).
    + destruct He as (bm' & _ & Hp & ->). eexists. split; [reflexivity|].
      destruct (paints_sized display_width display_height _ _ _ _ Hp Hbm)
        as [Hw Hh].
      unfold steady, brush_consistent, stroke_consistent,
        stroke_on_canvas, display_sized, activations. cbn.
      rewrite !filter_app, !length_app. cbn. rewrite !Nat.add_0_r.
      close_steady.
    + eexists. split; [exact He|exact Hkeep].
  - destruct (fires Size t st).
    + destruct He as (size & Hgetitem & ->). eexists. split; [reflexivity|].
      destruct Hbm as [Hw Hh].
      assert (Hmod : 0 <= (current_brush_index st + 1) mod 5 < 5)
        by (apply Z.mod_pos_bound; lia).
      unfold steady, brush_consistent, stroke_consistent,
        stroke_on_canvas, display_sized, activations. cbn.
      rewrite !filter_app, !length_app. cbn.
      close_steady.
      unfold activations in Hcount. rewrite Hcount.
      rewrite Z.add_mod_idemp_l by lia. f_equal. lia.
    + eexists. split; [exact He|exact Hkeep].
  - destruct He as (name & _ & ->). eexists. split; [reflexivity|].
    destruct Hbm as [Hw Hh].
    unfold steady, brush_consistent, stroke_consistent,
      stroke_on_canvas, display_sized, activations. cbn.
    rewrite !filter_app, !length_app. cbn. rewrite !Nat.add_0_r.
    close_steady.
  - destruct He as (bm' & _ & [Hw Hh] & ->). eexists. split; [reflexivity|].
    destruct (classify_canvas x y H9 Hc) as [Hx Hy].
    unfold steady, brush_consistent, stroke_consistent,
      stroke_on_canvas, display_sized, activations. cbn.
    close_steady.
  - eexists. split; [exact He|exact Hkeep].
Qed.

Lemma touch_released_steady (k : Z) (st : painter) :
  steady display_width display_height st /\
  current_brush_index st = (k + Z.of_nat (activations Size st)) mod 5 ->
  steady display_width display_height (touch_released st) /\
  current_brush_index (touch_released st) =
    (k + Z.of_nat (activations Size (touch_released st))) mod 5.
Proof.
  intros [([Hw Hh] & (Hsize & Hidx & Hlabel) & [Hs1 Hs2] & Hcanvas) Hcount].
  unfold stroke_on_canvas in Hcanvas.
  unfold touch_released, steady, brush_consistent, stroke_consistent,
    stroke_on_canvas, display_sized, activations.
  destruct (is_drawing st) eqn:Ed; cbn; rewrite ?Ed; close_steady.
  all: try (intros; now apply (Hcanvas x y)).
Qed.

Lemma loop_iteration_steady (k : Z) (sample : Q * touch_poll) (st : painter) :
  9 <= display_height ->
  steady display_width display_height st /\
  current_brush_index st = (k + Z.of_nat (activations Size st)) mod 5 ->
  exists st', loop_iteration sample st = Ok st' /\
    (steady display_width display_height st' /\
     current_brush_index st' = (k + Z.of_nat (activations Size st')) mod 5).
Proof.
  intros H9 Hst. destruct sample as [t [ | |touches]]; cbn.
  - eexists. split; [reflexivity|]. now apply touch_released_steady.
  - now exists st.
  - destruct (Qgtb _ _); [|now exists st].
    apply for_each_invariant; [|exact Hst].
    intros touch s _ Hs. now apply process_touch_steady.
Qed.

Lemma brush_consistent_size (st : painter) :
  brush_consistent st -> In (pixel_size st) brush_sizes.
Proof.
  intros (Hsize & Hidx & _).
  assert (Hcases : current_brush_index st = 0 \/ current_brush_index st = 1 \/
                   current_brush_index st = 2 \/ current_brush_index st = 3 \/
                   current_brush_index st = 4) by lia.
  destruct Hcases as [E|[E|[E|[E|E]]]]; rewrite E in Hsize;
    injection Hsize as <-; cbn; auto 6.
Qed.

(** X5. The brush variables stay consistent over any run of the loop from
    the initial state: the index is within the list, [pixel_size] is the size
    at the index (one of 1, 3, 6, 9, 12), the label shows it, and the index
    is the initial index 2 advanced once, cyclically, for every run of the
    size button's action. *)
Theorem brush_cycle (bm : Bitmap) (white : Z) (samples : list (Q * touch_poll)) :
  9 <= display_height -> display_sized bm ->
  exists st',
    run samples (initial_state bm white) = Ok st' /\
    brush_consistent st' /\
    In (pixel_size st') brush_sizes /\
    current_brush_index st' = (2 + Z.of_nat (activations Size st')) mod 5.
Proof.
  intros H9 Hbm.
  destruct (for_each_invariant
              (fun st => steady display_width display_height st /\
                 current_brush_index st =
                   (2 + Z.of_nat (activations Size st)) mod 5)
              samples loop_iteration) with (s := initial_state bm white)
    as (st' & Hrun & (_ & Hbrush & _) & Hcount).
  - intros sample st _ Hst. now apply loop_iteration_steady.
  - split; [now apply initial_state_steady|reflexivity].
  - exists st'. split; [exact Hrun|]. split; [exact Hbrush|].
    split; [now apply brush_consistent_size|exact Hcount].
Qed.

(** ** The palette under the strokes *)

Lemma footprint_near (cx cy size px py : Z) :
  footprint cx cy size px py = true -> Z.abs (px - cx) <= size / 2.
Proof.
  unfold footprint. rewrite !andb_true_iff, Z.leb_le. lia.
Qed.

Lemma brush_sizes_half (size : Z) : In size brush_sizes -> size / 2 <= 6.
Proof.
  cbn. intros [<-|[<-|[<-|[<-|[<-|[]]]]]]; cbn; lia.
Qed.

(** A canvas touch changes no pixel more than six columns left of the
    canvas. *)
Lemma stroke_keeps_palette (eps eta : Q) (maxint : Z) (x y : Z) (st : painter)
      (bm' : Bitmap) :
  float_format fl eps eta maxint ->
  2 * display_width <= maxint -> 2 * display_height <= maxint ->
  steady display_width display_height st ->
  palette_width <= x < display_width -> 0 <= y < display_height ->
  stroke (bitmap st) (stroke_start st) [(x, y)]
         (current_color st) (pixel_size st) = Ok bm' ->
  forall px py, px < palette_width - 6 ->
    bm_pixel bm' px py = bm_pixel (bitmap st) px py.
Proof.
  intros F HW HH (Hbm & Hbrush & _ & Hcanvas) Hx Hy Hst px py Hpx.
  pose proof (brush_sizes_half _ (brush_consistent_size st Hbrush)) as Hhalf.
  unfold palette_width in *.
  unfold stroke, stroke_start in Hst.
  assert (Hbrush_case :
    forall bm1, draw_brush (bitmap st) x y (current_color st) (pixel_size st)
                = Ok bm1 ->
                bm_pixel bm1 px py = bm_pixel (bitmap st) px py).
  { intros bm1 Hrun.
    destruct (draw_brush_paints display_width display_height (bitmap st)
                x y (current_color st) (pixel_size st) Hbm)
      as (bm2 & Hrun2 & _ & _ & Hp).
    rewrite Hrun in Hrun2. injection Hrun2 as <-. rewrite Hp.
    destruct (footprint x y (pixel_size st) px py) eqn:E; [|reflexivity].
    apply footprint_near in E. lia. }
  destruct (is_drawing st) eqn:Ed.
  - destruct (last_draw_pos st) as [[x0 y0]|] eqn:El.
    + destruct (Hcanvas x0 y0 El) as [Hx0 Hy0]. cbn in Hst.
      unfold palette_width in Hx0.
      destruct (draw_line_paints (bitmap st) x0 y0 x y
                  (current_color st) (pixel_size st) Hbm)
        as (bm2 & Hrun & _ & _ & Hp).
      rewrite Hrun in Hst. cbn in Hst. injection Hst as <-. rewrite Hp.
      destruct (existsb _ _) eqn:E; [|reflexivity].
      apply existsb_exists in E as (c & Hc & Hfoot).
      apply footprint_near in Hfoot.
      destruct (stamp_centres_box eps eta maxint
                  (Z.max display_width display_height) x0 y0 x y F
                  ltac:(lia) ltac:(lia) ltac:(lia) ltac:(lia) ltac:(lia)
                  c Hc) as [Hcx _].
      unfold palette_width in *. lia.
    + cbn in Hst.
      destruct (draw_brush (bitmap st) x y (current_color st) (pixel_size st))
        as [bm1|e] eqn:Hrun; [|discriminate].
      cbn in Hst. injection Hst as <-. now apply Hbrush_case.
  - cbn in Hst.
    destruct (draw_brush (bitmap st) x y (current_color st) (pixel_size st))
      as [bm1|e] eqn:Hrun; [|discriminate].
    cbn in Hst. injection Hst as <-. now apply Hbrush_case.
Qed.

Lemma process_touch_keeps_palette (eps eta : Q) (maxint : Z) (t : Q)
      (touch : Z * Z) (st st' : painter) :
  float_format fl eps eta maxint ->
  2 * display_width <= maxint -> 2 * display_height <= maxint ->
  9 <= display_height ->
  steady display_width display_height st ->
  process_touch t touch st = Ok st' ->
  forall px py, px < palette_width - 6 ->
    bm_pixel (bitmap st') px py = bm_pixel (bitmap st) px py.
Proof.
  intros F HW HH H9 Hst Hrun px py Hpx.
  pose proof Hst as (Hbm & _).
  destruct touch as [x y].
  destruct (classify_total display_width display_height x y H9) as (h & Hc).
  pose proof (process_touch_effect t x y h st H9 Hbm Hc) as He.
  destruct h as [ | | |section| | ].
  - rewrite He in Hrun. now injection Hrun as <-.
  - destruct (fires Clear t st).
    + destruct He as (bm' & _ & (_ & _ & Hp) & He).
      rewrite He in Hrun. injection Hrun as <-. cbn. rewrite Hp.
      replace (between palette_width px display_width) with false;
        [reflexivity|].
      symmetry. apply not_true_is_false. rewrite between_spec. lia.
    + rewrite He in Hrun. now injection Hrun as <-.
  - destruct (fires Size t st).
    + destruct He as (size & _ & He).
      rewrite He in Hrun. now injection Hrun as <-.
    + rewrite He in Hrun. now injection Hrun as <-.
  - destruct He as (name & _ & He).
    rewrite He in Hrun. now injection Hrun as <-.
  - destruct He as (bm' & Hstroke & _ & He).
    rewrite He in Hrun. injection Hrun as <-. cbn.
    destruct (classify_canvas x y H9 Hc) as [Hx Hy].
    now apply (stroke_keeps_palette eps eta maxint x y st bm').
  - rewrite He in Hrun. now injection Hrun as <-.
Qed.

(** X6. With a float format that rounds monotonically and represents the
    display coordinates, no run of the loop from the initial state changes a
    pixel more than six columns left of the canvas: the palette columns 0 to
    153 stay as [create_bitmap_and_palette] left them, whatever is touched. *)
Theorem palette_columns_kept (eps eta : Q) (maxint : Z) (bm : Bitmap)
        (white : Z) (samples : list (Q * touch_poll)) :
  float_format fl eps eta maxint ->
  2 * display_width <= maxint -> 2 * display_height <= maxint ->
  9 <= display_height -> display_sized bm ->
  exists st',
    run samples (initial_state bm white) = Ok st' /\
    forall px py, px < palette_width - 6 ->
      bm_pixel (bitmap st') px py = bm_pixel bm px py.
Proof.
  intros F HW HH H9 Hbm.
  pose (Inv := fun st =>
    (steady display_width display_height st /\
     current_brush_index st = (2 + Z.of_nat (activations Size st)) mod 5) /\
    forall px py, px < palette_width - 6 ->
      bm_pixel (bitmap st) px py = bm_pixel bm px py).
  destruct (for_each_invariant Inv samples loop_iteration)
    with (s := initial_state bm white) as (st' & Hrun & _ & Hkept).
  - intros [t poll] st _ [Hst Hkept].
    destruct (loop_iteration_steady 2 (t, poll) st H9 Hst)
      as (st' & Hrun & Hst').
    exists st'. split; [exact Hrun|]. split; [exact Hst'|].
    destruct poll as [ | |touches]; cbn in Hrun.
    + injection Hrun as <-. unfold touch_released.
      destruct (is_drawing st); exact Hkept.
    + injection Hrun as <-. exact Hkept.
    + destruct (Qgtb _ _); [|injection Hrun as <-; exact Hkept].
      clear Hst'. revert st Hst Hkept Hrun.
      induction touches as [|touch touches IH]; intros st Hst Hkept Hrun.
      * cbn in Hrun. injection Hrun as <-. exact Hkept.
      * cbn [for_each] in Hrun.
        destruct (process_touch_steady 2 t touch st H9 Hst)
          as (st1 & Hrun1 & Hst1).
        rewrite Hrun1 in Hrun. cbn [bind] in Hrun.
        apply (IH st1 Hst1); [|exact Hrun].
        intros px py Hpx. rewrite <- (Hkept px py Hpx).
        apply (process_touch_keeps_palette eps eta maxint t touch st st1);
          try assumption. apply Hst.
  - split; [split; [now apply initial_state_steady|reflexivity]|].
    intros px py _. reflexivity.
  - now exists st'.
Qed.

(** ** Edges of the region dispatch *)

(** X7. On a display less than 9 pixels high the height of a section is 0,
    and every touch of the left column makes the dispatch raise
    [ZeroDivisionError]; the exception is not the [RuntimeError] that the
    loop catches, so the iteration that processes the touch raises too. *)
Theorem short_display_raises (t : Q) (x y : Z) (rest : list (Z * Z))
        (st : painter) :
  0 < display_height < 9 ->
  0 <= x < display_width -> x < palette_width -> 0 <= y < display_height ->
  section_height = 0 /\
  classify x y = Raise ZeroDivisionError /\
  process_touch t (x, y) st = Raise ZeroDivisionError /\
  (processed t st = true ->
   loop_iteration (t, Touching ((x, y) :: rest)) st = Raise ZeroDivisionError).
Proof.
  intros HH Hx Hpal Hy.
  assert (Hsh : section_height = 0)
    by (unfold section_height; apply Z.div_small; lia).
  assert (Hc : classify x y = Raise ZeroDivisionError).
  { unfold classify.
    replace (between 0 x display_width) with true
      by (symmetry; now apply between_spec).
    replace (between 0 y display_height) with true
      by (symmetry; now apply between_spec).
    replace (x <? palette_width) with true by (symmetry; now apply Z.ltb_lt).
    cbn [negb orb]. unfold floordiv. now rewrite Hsh. }
  assert (Hp : process_touch t (x, y) st = Raise ZeroDivisionError)
    by (unfold process_touch; now rewrite Hc).
  repeat split; try assumption.
  intros Hproc. rewrite loop_iteration_touching, Hproc.
  cbn [for_each]. now rewrite Hp.
Qed.

(** X8. The rows below the ninth section. In the left column a touch takes
    none of the branches exactly when its row is [9 * section_height] or
    below; such a touch only sets [last_touch_time]. There are such rows
    exactly when the height of the display is not a multiple of 9. *)
Theorem remainder_rows (t : Q) (x y : Z) (st : painter) :
  9 <= display_height ->
  (classify x y = Ok NoBranch <->
   0 <= x < display_width /\ x < palette_width /\
   9 * section_height <= y < display_height) /\
  (classify x y = Ok NoBranch ->
   process_touch t (x, y) st = Ok (set_last_touch_time t st)) /\
  (9 * section_height < display_height <-> display_height mod 9 <> 0).
Proof.
  intros H9.
  pose proof (section_height_pos display_height H9) as Hsh.
  split; [|split].
  - rewrite (classify_spec display_width display_height x y H9).
    destruct (between 0 x display_width) eqn:Ex;
      destruct (between 0 y display_height) eqn:Ey; cbn [negb orb];
      try apply between_spec in Ex; try apply between_spec in Ey;
      try (apply not_true_iff_false in Ex; rewrite between_spec in Ex);
      try (apply not_true_iff_false in Ey; rewrite between_spec in Ey);
      try (split; [discriminate|lia]).
    destruct (Z.ltb_spec x palette_width) as [Hx|Hx];
      [|split; [discriminate|lia]].
    assert (Hdiv : 9 * section_height <= y <-> 9 <= y / section_height).
    { split; intros Hle.
      - apply Z.div_le_lower_bound; lia.
      - pose proof (Z.mul_div_le y section_height Hsh). nia. }
    destruct (Z.eqb_spec (y / section_height) 7);
      [split; [discriminate|lia]|].
    destruct (Z.eqb_spec (y / section_height) 8);
      [split; [discriminate|lia]|].
    destruct (Z.ltb_spec (y / section_height) 7);
      [split; [discriminate|lia]|].
    split; [lia|reflexivity].
  - intros Hc. unfold process_touch. now rewrite Hc.
  - unfold section_height.
    pose proof (Z.div_mod display_height 9 ltac:(lia)).
    pose proof (Z.mod_pos_bound display_height 9 ltac:(lia)). lia.
Qed.

(** X9. A sample whose touches are all off the display changes nothing,
    not even [last_touch_time]: each of them takes the [continue]. *)
Theorem off_display_sample_ignored (t : Q) (touches : list (Z * Z))
        (st : painter) :
  Forall (fun touch =>
            ~ (0 <= fst touch < display_width /\
               0 <= snd touch < display_height)) touches ->
  for_each touches (process_touch t) st = Ok st /\
  loop_iteration (t, Touching touches) st = Ok st.
Proof.
  intros Hoff.
  assert (Hall : for_each touches (process_touch t) st = Ok st).
  { induction Hoff as [|[x y] touches Hxy _ IH]; [reflexivity|].
    cbn [for_each fst snd] in *.
    assert (Hc : classify x y = Ok OutOfBounds).
    { unfold classify.
      destruct (between 0 x display_width) eqn:Ex;
        destruct (between 0 y display_height) eqn:Ey; try reflexivity.
      apply between_spec in Ex, Ey. tauto. }
    unfold process_touch at 1. rewrite Hc. cbn [bind]. exact IH. }
  split; [exact Hall|].
  rewrite loop_iteration_touching. now destruct (processed t st).
Qed.

(** ** Buttons and strokes over several samples *)

(** X10. A pressed button stays pressed until the touch is released: over
    samples that are all touches (or touch faults), wherever the touches
    land, the button remains pressed, its time of last change stays, and its
    action does not run. Sliding off the button does not release it. *)
Theorem latch_persists (b : button) (samples : list (Q * touch_poll)) :
  9 <= display_height ->
  Forall (fun sample => snd sample <> Untouched) samples ->
  forall st, display_sized (bitmap st) -> pressed b st = true ->
  exists st', run samples st = Ok st' /\
              pressed b st' = true /\
              last_change b st' = last_change b st /\
              activations b st' = activations b st.
Proof.
  intros H9 Htouch.
  enough (Hgen : forall st, display_sized (bitmap st) -> pressed b st = true ->
            exists st', run samples st = Ok st' /\
              display_sized (bitmap st') /\ same_latch b st st').
  { intros st Hbm Hp. destruct (Hgen st Hbm Hp) as (st' & Hrun & _ & Hs).
    exists st'. split; [exact Hrun|].
    destruct Hs as (Hp' & Hl & Ha). rewrite Hp'. auto. }
  induction Htouch as [|[t poll] samples Hs _ IH]; intros st Hbm Hp.
  - exists st. split; [reflexivity|]. split; [exact Hbm|].
    apply same_latch_refl.
  - cbn [snd] in Hs.
    assert (Hstep : exists st1, loop_iteration (t, poll) st = Ok st1 /\
              display_sized (bitmap st1) /\ same_latch b st st1).
    { destruct poll as [ | |touches]; [contradiction| |].
      - exists st. split; [reflexivity|]. split; [exact Hbm|].
        apply same_latch_refl.
      - rewrite loop_iteration_touching. destruct (processed t st).
        + destruct (touches_button display_width display_height fl
                      b t touches H9 st Hbm)
            as (st1 & Hrun & Hbm1 & [(_ & Hf & _)|(_ & Hsame)]).
          * rewrite (fires_pressed fl b t st Hp) in Hf. discriminate.
          * exists st1. auto.
        + exists st. split; [reflexivity|]. split; [exact Hbm|].
          apply same_latch_refl. }
    destruct Hstep as (st1 & Hrun1 & Hbm1 & Hs1).
    unfold run. cbn [for_each]. rewrite Hrun1. cbn [bind].
    destruct (IH st1 Hbm1) as (st' & Hrun & Hbm' & Hs').
    { destruct Hs1 as (-> & _). exact Hp. }
    exists st'. split; [exact Hrun|]. split; [exact Hbm'|].
    eapply same_latch_trans; eassumption.
Qed.

Lemma stroke_cons (bm : Bitmap) (start : option (Z * Z)) (p : Z * Z)
      (rest : list (Z * Z)) (color size : Z) :
  stroke bm start (p :: rest) color size =
  (bm1 <- stroke bm start [p] color size ;; polyline bm1 p rest color size).
Proof.
  unfold stroke. destruct start as [q|]; cbn.
  - now destruct (draw_line bm (fst q) (snd q) (fst p) (snd p) color size).
  - now destruct (draw_brush bm (fst p) (snd p) color size).
Qed.

Lemma last_cons_default {A : Type} (l : list A) (a d : A) :
  last (a :: l) d = last l a.
Proof.
  revert a d. induction l as [|b l IH]; intros a d; [reflexivity|].
  change (last (a :: b :: l) d) with (last (b :: l) d).
  rewrite IH. symmetry. apply IH.
Qed.

(** X11. A stroke is a connected polyline. Canvas touches processed one
    after the other (the fingers of one sample, or successive samples) draw a
    stamp at the first point, unless a stroke is in progress, and then a line
    from each point to the next; the stroke in progress continues with a line
    from its last point. The colour and the brush size are those at the
    start. Afterwards the stroke is in progress at the last point. *)
Theorem stroke_is_polyline (timed : list (Q * (Z * Z))) :
  9 <= display_height ->
  Forall (fun tp => classify (fst (snd tp)) (snd (snd tp)) = Ok Canvas)
         timed ->
  forall st, display_sized (bitmap st) ->
  exists st',
    process_touches timed st = Ok st' /\
    stroke (bitmap st) (stroke_start st) (map snd timed)
           (current_color st) (pixel_size st) = Ok (bitmap st') /\
    stroke_start st' =
      last (map (fun tp => Some (snd tp)) timed) (stroke_start st) /\
    current_color st' = current_color st /\
    pixel_size st' = pixel_size st.
Proof.
  intros H9 Hcanvas.
  induction Hcanvas as [|[t [x y]] timed Hc _ IH]; intros st Hbm.
  - exists st. unfold stroke. cbn.
    destruct (stroke_start st); auto.
  - cbn [fst snd] in Hc. unfold process_touches. cbn [for_each fst snd map].
    destruct (process_touch_effect t x y Canvas st H9 Hbm Hc)
      as (bm1 & Hstroke & Hbm1 & ->).
    cbn [bind].
    set (st1 := set_last_touch_time t
                  (set_stroke (Some (x, y)) true (set_bitmap bm1 st))).
    destruct (IH st1 Hbm1) as (st' & Hrun & Hrest & Hlast & Hcol & Hsize).
    exists st'. split; [exact Hrun|].
    rewrite stroke_cons, Hstroke. cbn [bind].
    change (stroke_start st1) with (Some (x, y)) in Hrest, Hlast.
    change (bitmap st1) with bm1 in Hrest.
    change (current_color st1) with (current_color st) in Hrest, Hcol.
    change (pixel_size st1) with (pixel_size st) in Hrest, Hsize.
    split; [exact Hrest|]. split; [|auto].
    rewrite Hlast. symmetry. apply last_cons_default.
Qed.

(** X12. The release of the touch resets the stroke and the two buttons, and
    nothing else: from a state whose stroke variables agree, the iteration
    of a release leaves the stroke idle and both buttons released, and keeps
    the bitmap, the colour, the brush, the times and the console. *)
Theorem release_resets (t : Q) (st : painter) :
  stroke_consistent st ->
  exists st',
    loop_iteration (t, Untouched) st = Ok st' /\
    idle st' /\
    pressed Clear st' = false /\ pressed Size st' = false /\
    bitmap st' = bitmap st /\
    current_color st' = current_color st /\
    pixel_size st' = pixel_size st /\
    current_brush_index st' = current_brush_index st /\
    last_change Clear st' = last_change Clear st /\
    last_change Size st' = last_change Size st /\
    last_touch_time st' = last_touch_time st /\
    console st' = console st.
Proof.
  intros [Hs1 Hs2]. exists (touch_released st). split; [reflexivity|].
  unfold touch_released, idle.
  destruct (is_drawing st) eqn:Ed; cbn; rewrite ?Ed; repeat split.
  destruct (last_draw_pos st) eqn:El; [|reflexivity].
  assert (false = true) by (apply Hs2; discriminate). discriminate.
Qed.


End MoreProperties.

(** * Properties of the start-up code *)

Section SetupProperties.

Variable display_width display_height : Z.
Variable convert : Z -> Z.

Local Abbreviation display_sized := (display_sized display_width display_height).
Local Abbreviation section_height := (section_height display_height).
Local Abbreviation classify := (classify display_width display_height).
Local Abbreviation create_bitmap_and_palette :=
  (create_bitmap_and_palette display_width display_height convert).
Local Abbreviation palette_pixel := (palette_pixel display_height convert).
Local Abbreviation clear_tile := (clear_tile display_height).
Local Abbreviation size_tile := (size_tile display_height).
Local Abbreviation clear_label := (clear_label display_height).
Local Abbreviation size_label := (size_label display_height).
Local Abbreviation create_ui_elements := (create_ui_elements display_height).
Local Abbreviation setup_fast_clear :=
  (setup_fast_clear display_width display_height).

Lemma setitem_sized (bm : Bitmap) (x y v : Z) :
  display_sized bm -> 0 <= x < display_width -> 0 <= y < display_height ->
  exists bm', setitem bm x y v = Ok bm' /\ display_sized bm' /\
    forall px py, bm_pixel bm' px py =
      if (px =? x) && (py =? y) then v else bm_pixel bm px py.
Proof.
  intros [Hw Hh] Hx Hy. unfold setitem, in_bitmap. rewrite Hw, Hh.
  replace (between 0 x display_width) with true
    by (symmetry; now apply between_spec).
  replace (between 0 y display_height) with true
    by (symmetry; now apply between_spec).
  eexists. split; [reflexivity|]. split; [now split|]. reflexivity.
Qed.

Lemma band_row (sh j k : Z) :
  0 <= j < sh -> (j + sh * k) / sh = k /\ (j + sh * k) mod sh = j.
Proof.
  intros Hj. rewrite (Z.mul_comm sh k).
  rewrite Z.div_add, Z.mod_add by lia.
  rewrite Z.div_small, Z.mod_small by lia. lia.
Qed.

(** One iteration of the inner loop of the palette: the eight pixels of
    column [i] at offset [j] of their bands. *)
Lemma palette_rows_step (i j rgb : Z) (bm : Bitmap) :
  display_sized bm -> 0 <= i < display_width -> 0 <= j < section_height ->
  8 * section_height <= display_height ->
  exists bm',
    (bm1 <- setitem bm i (j + section_height * 0) (Z.land rgb b_mask) ;;
     bm2 <- setitem bm1 i (j + section_height * 1) (Z.land rgb (Z.lor b_mask g_mask)) ;;
     bm3 <- setitem bm2 i (j + section_height * 2) (Z.land rgb g_mask) ;;
     bm4 <- setitem bm3 i (j + section_height * 3) (Z.land rgb (Z.lor r_mask g_mask)) ;;
     bm5 <- setitem bm4 i (j + section_height * 4) (Z.land rgb r_mask) ;;
     bm6 <- setitem bm5 i (j + section_height * 5) (Z.land rgb (Z.lor r_mask b_mask)) ;;
     bm7 <- setitem bm6 i (j + section_height * 6) rgb ;;
     setitem bm7 i (j + section_height * 7) 0) = Ok bm' /\
    display_sized bm' /\
    forall px py, bm_pixel bm' px py =
      if (px =? i) && (py mod section_height =? j) && between 0 py (8 * section_height)
      then band_color (py / section_height) rgb
      else bm_pixel bm px py.
Proof.
  intros Hbm Hi Hj Hfit.
  destruct (setitem_sized bm i (j + section_height * 0) (Z.land rgb b_mask) Hbm Hi)
    as (bm1 & -> & Hbm1 & Hp1); [lia|]. cbn [bind].
  destruct (setitem_sized bm1 i (j + section_height * 1)
              (Z.land rgb (Z.lor b_mask g_mask)) Hbm1 Hi)
    as (bm2 & -> & Hbm2 & Hp2); [lia|]. cbn [bind].
  destruct (setitem_sized bm2 i (j + section_height * 2) (Z.land rgb g_mask) Hbm2 Hi)
    as (bm3 & -> & Hbm3 & Hp3); [lia|]. cbn [bind].
  destruct (setitem_sized bm3 i (j + section_height * 3)
              (Z.land rgb (Z.lor r_mask g_mask)) Hbm3 Hi)
    as (bm4 & -> & Hbm4 & Hp4); [lia|]. cbn [bind].
  destruct (setitem_sized bm4 i (j + section_height * 4) (Z.land rgb r_mask) Hbm4 Hi)
    as (bm5 & -> & Hbm5 & Hp5); [lia|]. cbn [bind].
  destruct (setitem_sized bm5 i (j + section_height * 5)
              (Z.land rgb (Z.lor r_mask b_mask)) Hbm5 Hi)
    as (bm6 & -> & Hbm6 & Hp6); [lia|]. cbn [bind].
  destruct (setitem_sized bm6 i (j + section_height * 6) rgb Hbm6 Hi)
    as (bm7 & -> & Hbm7 & Hp7); [lia|]. cbn [bind].
  destruct (setitem_sized bm7 i (j + section_height * 7) 0 Hbm7 Hi)
    as (bm8 & -> & Hbm8 & Hp8); [lia|].
  exists bm8. split; [reflexivity|]. split; [exact Hbm8|].
  intros px py. rewrite Hp8, Hp7, Hp6, Hp5, Hp4, Hp3, Hp2, Hp1.
  destruct (Z.eqb_spec px i) as [->|Hne]; cbn [andb]; [|reflexivity].
  assert (Hrow : forall k, 0 <= k < 8 ->
            (j + section_height * k) / section_height = k /\ (j + section_height * k) mod section_height = j /\
            between 0 (j + section_height * k) (8 * section_height) = true).
  { intros k Hk. destruct (band_row section_height j k Hj) as [Hd Hm].
    repeat split; try assumption. apply between_spec. nia. }
  destruct (Z.eqb_spec py (j + section_height * 7)) as [->|H7].
  { destruct (Hrow 7) as (-> & -> & ->); [lia|]. now rewrite Z.eqb_refl. }
  destruct (Z.eqb_spec py (j + section_height * 6)) as [->|H6].
  { destruct (Hrow 6) as (-> & -> & ->); [lia|]. now rewrite Z.eqb_refl. }
  destruct (Z.eqb_spec py (j + section_height * 5)) as [->|H5].
  { destruct (Hrow 5) as (-> & -> & ->); [lia|]. now rewrite Z.eqb_refl. }
  destruct (Z.eqb_spec py (j + section_height * 4)) as [->|H4].
  { destruct (Hrow 4) as (-> & -> & ->); [lia|]. now rewrite Z.eqb_refl. }
  destruct (Z.eqb_spec py (j + section_height * 3)) as [->|H3].
  { destruct (Hrow 3) as (-> & -> & ->); [lia|]. now rewrite Z.eqb_refl. }
  destruct (Z.eqb_spec py (j + section_height * 2)) as [->|H2].
  { destruct (Hrow 2) as (-> & -> & ->); [lia|]. now rewrite Z.eqb_refl. }
  destruct (Z.eqb_spec py (j + section_height * 1)) as [->|H1].
  { destruct (Hrow 1) as (-> & -> & ->); [lia|]. now rewrite Z.eqb_refl. }
  destruct (Z.eqb_spec py (j + section_height * 0)) as [->|H0].
  { destruct (Hrow 0) as (-> & -> & ->); [lia|]. now rewrite Z.eqb_refl. }
  (* no other row of the column is written *)
  destruct (Z.eqb_spec (py mod section_height) j) as [Hm|Hm]; cbn [andb]; [|reflexivity].
  destruct (between 0 py (8 * section_height)) eqn:Eb; [|reflexivity].
  exfalso. apply between_spec in Eb.
  pose proof (Z.div_mod py section_height ltac:(lia)) as Hdm.
  assert (Hq : 0 <= py / section_height < 8).
  { split; [apply Z.div_pos; lia|apply Z.div_lt_upper_bound; lia]. }
  assert (Hcases : py / section_height = 0 \/ py / section_height = 1 \/ py / section_height = 2 \/ py / section_height = 3 \/
                   py / section_height = 4 \/ py / section_height = 5 \/ py / section_height = 6 \/ py / section_height = 7)
    by lia.
  destruct Hcases as [E|[E|[E|[E|[E|[E|[E|E]]]]]]]; rewrite E in Hdm; lia.
Qed.

(** The inner loop over [j]: all eight bands of column [i]. *)
Lemma palette_column (i rgb : Z) (bm : Bitmap) :
  display_sized bm -> 0 <= i < display_width ->
  (0 < section_height -> 8 * section_height <= display_height) ->
  exists bm',
    for_each (range 0 section_height) (fun j bitmap =>
      bitmap <- setitem bitmap i (j + section_height * 0) (Z.land rgb b_mask) ;;
      bitmap <- setitem bitmap i (j + section_height * 1)
                        (Z.land rgb (Z.lor b_mask g_mask)) ;;
      bitmap <- setitem bitmap i (j + section_height * 2) (Z.land rgb g_mask) ;;
      bitmap <- setitem bitmap i (j + section_height * 3)
                        (Z.land rgb (Z.lor r_mask g_mask)) ;;
      bitmap <- setitem bitmap i (j + section_height * 4) (Z.land rgb r_mask) ;;
      bitmap <- setitem bitmap i (j + section_height * 5)
                        (Z.land rgb (Z.lor r_mask b_mask)) ;;
      bitmap <- setitem bitmap i (j + section_height * 6) rgb ;;
      setitem bitmap i (j + section_height * 7) 0) bm = Ok bm' /\
    display_sized bm' /\
    forall px py, bm_pixel bm' px py =
      if (px =? i) && between 0 py (8 * section_height)
      then band_color (py / section_height) rgb
      else bm_pixel bm px py.
Proof.
  intros Hbm Hi Hfit.
  destruct (Z_le_gt_dec section_height 0) as [Hsh|Hsh].
  - (* no rows at all *)
    exists bm. unfold range.
    replace (Z.to_nat (section_height - 0)) with 0%nat by lia.
    split; [reflexivity|]. split; [exact Hbm|].
    intros px py.
    replace (between 0 py (8 * section_height)) with false; [now rewrite andb_false_r|].
    symmetry. apply not_true_is_false. rewrite between_spec. lia.
  - pose (Inv := fun j b =>
      display_sized b /\
      forall px py, bm_pixel b px py =
        if (px =? i) && (py mod section_height <? j) && between 0 py (8 * section_height)
        then band_color (py / section_height) rgb
        else bm_pixel bm px py).
    destruct (for_each_range_invariant Inv 0 section_height
      (fun j bitmap =>
        bitmap <- setitem bitmap i (j + section_height * 0) (Z.land rgb b_mask) ;;
        bitmap <- setitem bitmap i (j + section_height * 1)
                          (Z.land rgb (Z.lor b_mask g_mask)) ;;
        bitmap <- setitem bitmap i (j + section_height * 2) (Z.land rgb g_mask) ;;
        bitmap <- setitem bitmap i (j + section_height * 3)
                          (Z.land rgb (Z.lor r_mask g_mask)) ;;
        bitmap <- setitem bitmap i (j + section_height * 4) (Z.land rgb r_mask) ;;
        bitmap <- setitem bitmap i (j + section_height * 5)
                          (Z.land rgb (Z.lor r_mask b_mask)) ;;
        bitmap <- setitem bitmap i (j + section_height * 6) rgb ;;
        setitem bitmap i (j + section_height * 7) 0) ltac:(lia)) with (s := bm)
      as (bm' & Hrun & Hbm' & Hp).
    + intros j b Hj [Hb Hpix].
      destruct (palette_rows_step i j rgb b Hb Hi Hj (Hfit ltac:(lia)))
        as (b' & Hstep & Hb' & Hpix').
      exists b'. split; [exact Hstep|]. split; [exact Hb'|].
      intros px py. rewrite Hpix', Hpix.
      pose proof (Z.mod_pos_bound py section_height ltac:(lia)) as Hmod.
      destruct (Z.eqb_spec px i), (Z.eqb_spec (py mod section_height) j),
        (Z.ltb_spec (py mod section_height) j), (Z.ltb_spec (py mod section_height) (j + 1)),
        (between 0 py (8 * section_height)); cbn [andb]; try reflexivity; lia.
    + split; [exact Hbm|]. intros px py.
      pose proof (Z.mod_pos_bound py section_height ltac:(lia)) as Hmod.
      destruct (Z.eqb_spec px i), (Z.ltb_spec (py mod section_height) 0);
        cbn [andb]; try reflexivity; lia.
    + exists bm'. split; [exact Hrun|]. split; [exact Hbm'|].
      intros px py. rewrite Hp.
      pose proof (Z.mod_pos_bound py section_height ltac:(lia)) as Hmod.
      destruct (Z.eqb_spec px i), (Z.ltb_spec (py mod section_height) section_height);
        cbn [andb]; try reflexivity; lia.
Qed.

(** The outer loop over the first [n] columns. *)
Lemma palette_columns (n : Z) (bm : Bitmap) :
  display_sized bm -> 0 <= n <= display_width ->
  (0 < section_height -> 8 * section_height <= display_height) ->
  exists bm',
    for_each (range 0 n) (fun i bitmap =>
      for_each (range 0 section_height) (fun j bitmap =>
        bitmap <- setitem bitmap i (j + section_height * 0)
                          (Z.land (convert (grey i)) b_mask) ;;
        bitmap <- setitem bitmap i (j + section_height * 1)
                          (Z.land (convert (grey i)) (Z.lor b_mask g_mask)) ;;
        bitmap <- setitem bitmap i (j + section_height * 2)
                          (Z.land (convert (grey i)) g_mask) ;;
        bitmap <- setitem bitmap i (j + section_height * 3)
                          (Z.land (convert (grey i)) (Z.lor r_mask g_mask)) ;;
        bitmap <- setitem bitmap i (j + section_height * 4)
                          (Z.land (convert (grey i)) r_mask) ;;
        bitmap <- setitem bitmap i (j + section_height * 5)
                          (Z.land (convert (grey i)) (Z.lor r_mask b_mask)) ;;
        bitmap <- setitem bitmap i (j + section_height * 6)
                          (convert (grey i)) ;;
        setitem bitmap i (j + section_height * 7) 0) bitmap) bm = Ok bm' /\
    display_sized bm' /\
    forall px py, bm_pixel bm' px py =
      if between 0 px n && between 0 py (8 * section_height)
      then band_color (py / section_height) (convert (grey px))
      else bm_pixel bm px py.
Proof.
  intros Hbm Hn Hfit.
  pose (Inv := fun i b =>
    display_sized b /\
    forall px py, bm_pixel b px py =
      if between 0 px i && between 0 py (8 * section_height)
      then band_color (py / section_height) (convert (grey px))
      else bm_pixel bm px py).
  apply (for_each_range_invariant Inv 0 n); [lia| |].
  - intros i b Hi [Hb Hpix]. cbv zeta.
    destruct (palette_column i (convert (grey i)) b Hb ltac:(lia) Hfit)
      as (b' & Hstep & Hb' & Hpix').
    exists b'. split; [exact Hstep|]. split; [exact Hb'|].
    intros px py. rewrite Hpix', Hpix. unfold between.
    destruct (Z.eqb_spec px i) as [E|E], (Z.leb_spec 0 px),
      (Z.ltb_spec px i), (Z.ltb_spec px (i + 1)),
      ((0 <=? py) && (py <? 8 * section_height));
      cbn [andb]; try reflexivity; try (rewrite E; reflexivity); lia.
  - split; [exact Hbm|]. intros px py. unfold between.
    destruct (Z.leb_spec 0 px), (Z.ltb_spec px 0); cbn [andb];
      try reflexivity; lia.
Qed.

(** The first two loops: every pixel of the display set to black. *)
Lemma fill_black (bm : Bitmap) :
  display_sized bm ->
  exists bm',
    for_each (range 0 display_width) (fun x bitmap =>
      for_each (range 0 display_height) (fun y bitmap =>
        setitem bitmap x y 0) bitmap) bm = Ok bm' /\
    display_sized bm' /\
    forall px py, 0 <= px < display_width -> 0 <= py < display_height ->
      bm_pixel bm' px py = 0.
Proof.
  intros Hbm.
  destruct (for_each_paints_as display_width display_height
    (range 0 display_width)
    (fun x bitmap => for_each (range 0 display_height) (fun y bitmap =>
       setitem bitmap x y 0) bitmap)
    (fun x px py => existsb (fun y => (px =? x) && (py =? y))
                            (range 0 display_height))
    (fun px py => between 0 px display_width && between 0 py display_height)
    0) with (bm := bm) as (bm' & Hrun & Hp); [| |exact Hbm|].
  - intros px py. apply eq_true_iff_eq.
    rewrite existsb_exists, andb_true_iff, !between_spec. split.
    + intros (xc & Hxc & Hyc). apply existsb_exists in Hyc as (yc & Hyc & E).
      apply In_range in Hxc, Hyc.
      rewrite andb_true_iff, !Z.eqb_eq in E. lia.
    + intros [Hx Hy]. exists px. split; [now apply In_range|].
      apply existsb_exists. exists py. split; [now apply In_range|].
      now rewrite !Z.eqb_refl.
  - intros xc bm1 Hxc Hbm1.
    apply (for_each_paints display_width display_height
             (range 0 display_height) _
             (fun y px py => (px =? xc) && (py =? y))); [|exact Hbm1].
    intros yc bm2 Hyc [Hw Hh].
    apply setitem_paints.
    apply In_range in Hxc, Hyc. unfold in_bitmap.
    rewrite Hw, Hh, andb_true_iff, !between_spec. lia.
  - exists bm'. split; [exact Hrun|].
    split; [eapply paints_sized; eassumption|].
    destruct Hp as (_ & _ & Hp). intros px py Hx Hy. rewrite Hp.
    replace (between 0 px display_width) with true
      by (symmetry; now apply between_spec).
    replace (between 0 py display_height) with true
      by (symmetry; now apply between_spec).
    reflexivity.
Qed.

Lemma bands_fit : 0 < section_height -> 8 * section_height <= display_height.
Proof.
  unfold section_height. intros Hsh.
  destruct (Z_le_gt_dec 0 display_height) as [H0|H0].
  - pose proof (Z.mul_div_le display_height 9 ltac:(lia)). lia.
  - assert (display_height / 9 < 0) by (apply Z.div_lt_upper_bound; lia).
    lia.
Qed.

Lemma create_bitmap_spec_aux (fresh : Bitmap) :
  palette_width <= display_width -> display_sized fresh ->
  exists bm,
    create_bitmap_and_palette fresh = Ok bm /\
    display_sized bm /\
    forall x y, 0 <= x < display_width -> 0 <= y < display_height ->
      bm_pixel bm x y = palette_pixel x y.
Proof.
  intros HW Hfresh. unfold create_bitmap_and_palette. cbv zeta.
  destruct (fill_black fresh Hfresh) as (bm0 & -> & Hbm0 & Hblack).
  cbn [bind].
  destruct (palette_columns palette_width bm0 Hbm0) as (bm & -> & Hbm & Hp);
    [unfold palette_width in *; lia|exact bands_fit|].
  exists bm. cbn [bind]. split; [reflexivity|]. split; [exact Hbm|].
  intros x y Hx Hy. rewrite Hp. unfold palette_pixel.
  destruct (between 0 x palette_width && between 0 y (8 * section_height));
    [reflexivity|now apply Hblack].
Qed.

(** X13. On a display at least as wide as the palette,
    [create_bitmap_and_palette] returns, whatever the new bitmap holds: a
    bitmap of the size of the display whose left 160 columns hold eight
    bands of [section_height] rows (blue, cyan, green, yellow, red, magenta,
    white, each the converted grey of the column under the mask of the
    band, then black) and whose every other pixel is black: the ninth band,
    the rows that remain, and the drawing area. *)
Theorem create_bitmap_and_palette_spec (fresh : Bitmap) :
  palette_width <= display_width -> display_sized fresh ->
  exists bm,
    create_bitmap_and_palette fresh = Ok bm /\
    display_sized bm /\
    forall x y, 0 <= x < display_width -> 0 <= y < display_height ->
      bm_pixel bm x y = palette_pixel x y.
Proof. apply create_bitmap_spec_aux. Qed.

(** The colours of the palette fit 16 bits. *)
Lemma land_mask_range (v mask : Z) :
  Z.land mask (Z.ones 16) = mask -> 0 <= Z.land v mask <= 65535.
Proof.
  intros Hmask.
  assert (E : Z.land v mask = Z.land v mask mod 2 ^ 16).
  { rewrite <- Z.land_ones by lia. rewrite <- Z.land_assoc. now rewrite Hmask. }
  pose proof (Z.mod_pos_bound (Z.land v mask) (2 ^ 16) ltac:(lia)) as Hb.
  rewrite <- E in Hb. change (2 ^ 16) with 65536 in Hb. lia.
Qed.

(** X15. The colours of the bands, whatever the conversion returns: the
    colour of every band but the white one fits 16 bits; the blue band has
    no red or green bit, the green band no red or blue bit, the red band no
    green or blue bit; cyan has no red bit, yellow no blue bit, magenta no
    green bit; and the eighth band is black. *)
Theorem band_channels (v : Z) :
  (forall k, k <> 6 -> 0 <= band_color k v <= 65535) /\
  Z.land (band_color 0 v) (Z.lor r_mask g_mask) = 0 /\
  Z.land (band_color 2 v) (Z.lor r_mask b_mask) = 0 /\
  Z.land (band_color 4 v) (Z.lor g_mask b_mask) = 0 /\
  Z.land (band_color 1 v) r_mask = 0 /\
  Z.land (band_color 3 v) b_mask = 0 /\
  Z.land (band_color 5 v) g_mask = 0 /\
  band_color 6 v = v /\
  band_color 7 v = 0.
Proof.
  split.
  - intros k Hk. unfold band_color.
    destruct (k =? 0); [now apply land_mask_range|].
    destruct (k =? 1); [now apply land_mask_range|].
    destruct (k =? 2); [now apply land_mask_range|].
    destruct (k =? 3); [now apply land_mask_range|].
    destruct (k =? 4); [now apply land_mask_range|].
    destruct (k =? 5); [now apply land_mask_range|].
    destruct (Z.eqb_spec k 6); lia.
  - change (band_color 0 v) with (Z.land v b_mask).
    change (band_color 1 v) with (Z.land v (Z.lor b_mask g_mask)).
    change (band_color 2 v) with (Z.land v g_mask).
    change (band_color 3 v) with (Z.land v (Z.lor r_mask g_mask)).
    change (band_color 4 v) with (Z.land v r_mask).
    change (band_color 5 v) with (Z.land v (Z.lor r_mask b_mask)).
    repeat split; rewrite <- Z.land_assoc; apply Z.land_0_r.
Qed.

(** X16. The grey ramp of the palette: the level of a column is the same in
    the three channels, it does not decrease from left to right, it is 0 at
    column 0 and 253 at column 159; the full level 255 is never reached. *)
Theorem palette_gradient :
  (forall i, 0 <= i < palette_width ->
     0 <= color_index i <= 253 /\ grey i = 65793 * color_index i) /\
  (forall i i', i <= i' -> color_index i <= color_index i') /\
  color_index 0 = 0 /\ color_index (palette_width - 1) = 253.
Proof.
  split; [|split; [|split; reflexivity]].
  - intros i Hi.
    assert (Hall : forallb (fun i =>
              (0 <=? color_index i) && (color_index i <=? 253) &&
              (grey i =? 65793 * color_index i)) (range 0 palette_width)
            = true) by (vm_compute; reflexivity).
    rewrite forallb_forall in Hall.
    specialize (Hall i ltac:(apply In_range; exact Hi)).
    rewrite !andb_true_iff, Z.leb_le, Z.leb_le, Z.eqb_eq in Hall. lia.
  - intros i i' Hle. unfold color_index, palette_width.
    apply Z.div_le_mono; lia.
Qed.

(** ** The palette and the touch regions *)

Variable fl : Q -> Q.

Lemma classify_left_column (x y : Z) :
  9 <= display_height ->
  0 <= x < display_width -> x < palette_width -> 0 <= y < display_height ->
  classify x y =
    Ok (if y / section_height =? 7 then ClearButton
        else if y / section_height =? 8 then SizeButton
        else if y / section_height <? 7 then PaletteColor (y / section_height)
        else NoBranch).
Proof.
  intros H9 Hx Hpal Hy.
  rewrite (classify_spec display_width display_height x y H9).
  replace (between 0 x display_width) with true
    by (symmetry; now apply between_spec).
  replace (between 0 y display_height) with true
    by (symmetry; now apply between_spec).
  replace (x <? palette_width) with true by (symmetry; now apply Z.ltb_lt).
  reflexivity.
Qed.

(** X17. Picking a colour on the bitmap that start-up built: a touch in band
    [k] of the palette (rows [k * section_height] and below, [k] from 0 to
    6) at column [x] sets the current colour to the colour of the band for
    the grey of the column, the value that [create_bitmap_and_palette] wrote
    there. *)
Theorem pick_from_fresh_palette (fresh : Bitmap) (white : Z) (t : Q)
        (x y : Z) :
  9 <= display_height -> palette_width <= display_width ->
  display_sized fresh ->
  0 <= x < palette_width -> 0 <= y < 7 * section_height ->
  exists bm st',
    create_bitmap_and_palette fresh = Ok bm /\
    process_touch display_width display_height fl t (x, y)
      (initial_state fl bm white) = Ok st' /\
    current_color st' = band_color (y / section_height) (convert (grey x)) /\
    0 <= y / section_height < 7.
Proof.
  intros H9 HW Hfresh Hx Hy.
  pose proof (section_height_pos display_height H9) as Hsh.
  assert (Hfit : 9 * section_height <= display_height)
    by (unfold section_height; apply Z.mul_div_le; lia).
  assert (Hsec : 0 <= y / section_height < 7).
  { split; [apply Z.div_pos; lia|apply Z.div_lt_upper_bound; lia]. }
  destruct (create_bitmap_spec_aux fresh HW Hfresh) as (bm & Hrun & Hbm & Hp).
  exists bm.
  assert (Hc : classify x y = Ok (PaletteColor (y / section_height))).
  { rewrite classify_left_column by lia.
    replace (y / section_height =? 7) with false
      by (symmetry; apply Z.eqb_neq; lia).
    replace (y / section_height =? 8) with false
      by (symmetry; apply Z.eqb_neq; lia).
    now replace (y / section_height <? 7) with true
      by (symmetry; apply Z.ltb_lt; lia). }
  destruct (process_touch_effect display_width display_height fl t x y _
              (initial_state fl bm white) H9 Hbm Hc) as (name & _ & He).
  eexists. split; [exact Hrun|]. split; [exact He|].
  split; [|exact Hsec]. cbn.
  rewrite Hp by lia. unfold palette_pixel.
  replace (between 0 x palette_width) with true
    by (symmetry; now apply between_spec).
  replace (between 0 y (8 * section_height)) with true
    by (symmetry; apply between_spec; lia).
  reflexivity.
Qed.

(** X18. The buttons are where they are drawn. On the display, the pixels
    under the tile of the clear button are exactly the touches that the
    dispatch takes for the clear button, and likewise for the size button;
    each label is anchored inside its tile; and the label of the size button
    shows the size 6 of the initial brush index 2. *)
Theorem buttons_match_regions (x y : Z) :
  9 <= display_height ->
  0 <= x < display_width -> 0 <= y < display_height ->
  (covers clear_tile x y = true <-> classify x y = Ok ClearButton) /\
  (covers size_tile x y = true <-> classify x y = Ok SizeButton) /\
  covers clear_tile (fst (anchored_position clear_label))
                    (snd (anchored_position clear_label)) = true /\
  exists brush_label,
    create_ui_elements 2 =
      Ok ([Tile clear_tile; Label clear_label; Tile size_tile;
           Label brush_label], brush_label) /\
    label_text brush_label = CaptionSize 6 /\
    covers size_tile (fst (anchored_position brush_label))
                     (snd (anchored_position brush_label)) = true.
Proof.
  clear convert.
  intros H9 Hx Hy.
  pose proof (section_height_pos display_height H9) as Hsh.
  assert (Hregion : forall k,
    between 0 x (0 + palette_width) &&
    between (section_height * k) y (section_height * k + section_height)
      = true <-> x < palette_width /\ y / section_height = k).
  { intros k. rewrite andb_true_iff, !between_spec. split.
    - intros [Hpx Hpy]. split; [lia|].
      symmetry. apply (Z.div_unique y section_height k
                         (y - section_height * k)); lia.
    - intros [Hpx <-].
      pose proof (Z.mul_div_le y section_height Hsh).
      pose proof (Z.mul_succ_div_gt y section_height Hsh). lia. }
  assert (Hhalf : 0 <= section_height / 2 < section_height).
  { split; [apply Z.div_pos; lia|apply Z.div_lt_upper_bound; lia]. }
  split; [|split; [|split]].
  - unfold covers, clear_tile. cbn [tile_x tile_y tile_width tile_height].
    rewrite (Hregion 7).
    destruct (Z_lt_ge_dec x palette_width) as [Hpal|Hpal].
    + rewrite classify_left_column by assumption.
      destruct (Z.eqb_spec (y / section_height) 7) as [E|E].
      * tauto.
      * split; [lia|].
        destruct (y / section_height =? 8), (y / section_height <? 7);
          discriminate.
    + split; [lia|].
      rewrite (classify_spec display_width display_height x y H9).
      replace (between 0 x display_width) with true
        by (symmetry; now apply between_spec).
      replace (between 0 y display_height) with true
        by (symmetry; now apply between_spec).
      replace (x <? palette_width) with false
        by (symmetry; apply Z.ltb_ge; lia).
      discriminate.
  - unfold covers, size_tile. cbn [tile_x tile_y tile_width tile_height].
    rewrite (Hregion 8).
    destruct (Z_lt_ge_dec x palette_width) as [Hpal|Hpal].
    + rewrite classify_left_column by assumption.
      destruct (Z.eqb_spec (y / section_height) 7) as [E7|E7];
        [split; [lia|discriminate]|].
      destruct (Z.eqb_spec (y / section_height) 8) as [E|E].
      * tauto.
      * split; [lia|]. destruct (y / section_height <? 7); discriminate.
    + split; [lia|].
      rewrite (classify_spec display_width display_height x y H9).
      replace (between 0 x display_width) with true
        by (symmetry; now apply between_spec).
      replace (between 0 y display_height) with true
        by (symmetry; now apply between_spec).
      replace (x <? palette_width) with false
        by (symmetry; apply Z.ltb_ge; lia).
      discriminate.
  - unfold covers, clear_tile, clear_label.
    cbn [tile_x tile_y tile_width tile_height anchored_position fst snd].
    rewrite andb_true_iff, !between_spec. unfold palette_width.
    change (160 / 2) with 80.
    clear Hregion. destruct Hhalf as [Hlo Hhi]. revert Hlo Hhi.
    generalize (section_height / 2). intros half Hlo Hhi. lia.
  - eexists. split; [reflexivity|]. split; [reflexivity|].
    unfold covers, size_tile.
    cbn [tile_x tile_y tile_width tile_height anchored_position fst snd].
    rewrite andb_true_iff, !between_spec. unfold palette_width.
    change (160 / 2) with 80.
    clear Hregion. destruct Hhalf as [Hlo Hhi]. revert Hlo Hhi.
    generalize (section_height / 2). intros half Hlo Hhi. lia.
Qed.

(** X19. The rectangle that [setup_fast_clear] builds lies over exactly the
    pixels that the loops of the clear button set to black: the action of
    the button changes no pixel outside the rectangle and makes every pixel
    under it black. *)
Theorem fast_clear_rectangle (bm : Bitmap) :
  display_sized bm ->
  exists bm',
    clear_drawing_area display_width display_height bm = Ok bm' /\
    forall px py,
      bm_pixel bm' px py =
        if covers setup_fast_clear px py then 0 else bm_pixel bm px py.
Proof.
  intros Hbm.
  destruct (clear_drawing_area_paints display_width display_height bm Hbm)
    as (bm' & Hrun & _ & _ & Hp).
  exists bm'. split; [exact Hrun|]. intros px py. rewrite Hp.
  unfold covers, setup_fast_clear, drawing_area_width, drawing_area_height.
  cbn [tile_x tile_y tile_width tile_height].
  now replace (palette_width + (display_width - palette_width))
    with display_width by lia.
Qed.


End SetupProperties.
(** ** The further properties on the demo display *)

(** A line of size 3 from (300, 300) to (310, 300), and one that starts
    left of the display, at (-5, 300): the stamps off the display are
    clipped. *)
Lemma draw_line_footprint_witness :
  float_format exact 0 0 1440 /\ 2 * 720 <= 1440 /\
  Z.abs 300 <= 720 /\ Z.abs 310 <= 720 /\ Z.abs (-5) <= 720 /\
  0 <= 65535 <= 65535 /\
  display_sized 720 720 demo_canvas /\
  (exists bm',
     draw_line 720 720 exact demo_canvas 300 300 310 300 65535 3 = Ok bm' /\
     bm_pixel bm' 305 301 = 65535 /\ bm_pixel bm' 305 302 = 0) /\
  (exists bm',
     draw_line 720 720 exact demo_canvas (-5) 300 310 300 65535 3 = Ok bm' /\
     bm_pixel bm' 0 301 = 65535 /\ bm_pixel bm' 312 300 = 0).
Proof.
  assert (Hmax : 2 * 720 <= 1440) by lia.
  assert (H300 : Z.abs 300 <= 720) by lia.
  assert (H310 : Z.abs 310 <= 720) by lia.
  assert (H5 : Z.abs (-5) <= 720) by lia.
  assert (Hc : 0 <= 65535 <= 65535) by lia.
  split; [apply exact_format|].
  repeat (split; [assumption || exact demo_canvas_sized|]).
  split.
  - destruct (draw_line_footprint 720 720 exact 0 0 1440 720 demo_canvas
                300 300 310 300 65535 3 (exact_format 1440) Hmax
                H300 H300 H310 H300 Hc demo_canvas_sized)
      as (bm' & Hrun & _ & Hpx).
    exists bm'. split; [exact Hrun|]. rewrite !Hpx. split; reflexivity.
  - destruct (draw_line_footprint 720 720 exact 0 0 1440 720 demo_canvas
                (-5) 300 310 300 65535 3 (exact_format 1440) Hmax
                H5 H300 H310 H300 Hc demo_canvas_sized)
      as (bm' & Hrun & _ & Hpx).
    exists bm'. split; [exact Hrun|]. rewrite !Hpx. split; reflexivity.
Defined.

Lemma draw_brush_small_sizes_witness :
  -1 < 0 /\ 0 <= 0 <= 1 /\ display_sized 720 720 demo_canvas /\
  draw_brush 720 720 demo_canvas 300 300 65535 (-1) = Ok demo_canvas /\
  exists bm',
    draw_brush 720 720 demo_canvas 300 300 65535 0 = Ok bm' /\
    bm_pixel bm' 300 300 = 65535 /\ bm_pixel bm' 301 300 = 0.
Proof.
  assert (Hneg : -1 < 0) by lia.
  assert (Hsmall : 0 <= 0 <= 1) by lia.
  split; [exact Hneg|]. split; [exact Hsmall|].
  split; [exact demo_canvas_sized|].
  split.
  - exact (proj1 (draw_brush_small_sizes 720 720 demo_canvas 300 300 65535
                    (-1)) Hneg).
  - destruct (proj2 (draw_brush_small_sizes 720 720 demo_canvas 300 300 65535
                       0) Hsmall demo_canvas_sized) as (bm' & Hrun & Hpx).
    exists bm'. split; [exact Hrun|]. rewrite !Hpx. split; reflexivity.
Defined.

(** Two overlapping stamps, of the sizes 6 and 3. *)
Lemma stamps_compose_witness :
  display_sized 720 720 demo_canvas /\
  exists a b ab ba aa,
    draw_brush 720 720 demo_canvas 300 300 65535 6 = Ok a /\
    draw_brush 720 720 a 302 302 65535 3 = Ok ab /\
    draw_brush 720 720 demo_canvas 302 302 65535 3 = Ok b /\
    draw_brush 720 720 b 300 300 65535 6 = Ok ba /\
    draw_brush 720 720 a 300 300 65535 6 = Ok aa /\
    (forall px py, bm_pixel ab px py = bm_pixel ba px py) /\
    (forall px py, bm_pixel aa px py = bm_pixel a px py).
Proof.
  split; [exact demo_canvas_sized|].
  exact (stamps_compose 720 720 demo_canvas 300 300 6 302 302 3 65535
           demo_canvas_sized).
Defined.

Lemma stamp_centres_in_box_witness :
  float_format exact 0 0 1440 /\ 2 * 720 <= 1440 /\
  Z.abs 300 <= 720 /\ Z.abs 310 <= 720 /\ Z.abs 305 <= 720 /\
  forall c, In c (stamp_centres exact 300 300 310 305) ->
    Z.min 300 310 <= fst c <= Z.max 300 310 /\
    Z.min 300 305 <= snd c <= Z.max 300 305.
Proof.
  assert (Hmax : 2 * 720 <= 1440) by lia.
  assert (H300 : Z.abs 300 <= 720) by lia.
  assert (H310 : Z.abs 310 <= 720) by lia.
  assert (H305 : Z.abs 305 <= 720) by lia.
  split; [apply exact_format|]. split; [exact Hmax|].
  split; [exact H300|]. split; [exact H310|]. split; [exact H305|].
  exact (stamp_centres_in_box exact 0 0 1440 720 300 300 310 305
           (exact_format 1440) Hmax H300 H300 H310 H305).
Defined.

(** The size button held from time 1: the index goes from 2 to 3. *)
Lemma brush_cycle_witness :
  9 <= 720 /\ display_sized 720 720 demo_canvas /\
  exists st',
    run 720 720 exact demo_hold demo_painter = Ok st' /\
    brush_consistent st' /\
    In (pixel_size st') brush_sizes /\
    current_brush_index st' = (2 + Z.of_nat (activations Size st')) mod 5.
Proof.
  assert (H9 : 9 <= 720) by lia.
  split; [exact H9|]. split; [exact demo_canvas_sized|].
  exact (brush_cycle 720 720 exact demo_canvas 65535 demo_hold H9
           demo_canvas_sized).
Defined.

Lemma palette_columns_kept_witness :
  float_format exact 0 0 1440 /\ 2 * 720 <= 1440 /\ 9 <= 720 /\
  display_sized 720 720 demo_palette /\
  exists st',
    run 720 720 exact demo_slide (initial_state exact demo_palette 65535)
      = Ok st' /\
    forall px py, px < palette_width - 6 ->
      bm_pixel (bitmap st') px py = bm_pixel demo_palette px py.
Proof.
  assert (Hmax : 2 * 720 <= 1440) by lia.
  assert (H9 : 9 <= 720) by lia.
  split; [apply exact_format|]. split; [exact Hmax|]. split; [exact H9|].
  split; [exact demo_palette_sized|].
  exact (palette_columns_kept 720 720 exact 0 0 1440 demo_palette 65535
           demo_slide (exact_format 1440) Hmax Hmax H9 demo_palette_sized).
Defined.

(** A display 720 wide and 8 high. *)
Lemma short_display_raises_witness :
  0 < 8 < 9 /\ 0 <= 10 < 720 /\ 10 < palette_width /\ 0 <= 3 < 8 /\
  section_height 8 = 0 /\
  classify 720 8 10 3 = Raise ZeroDivisionError /\
  process_touch 720 8 exact 1 (10, 3)
    (initial_state exact (blank 720 8 0) 65535) = Raise ZeroDivisionError.
Proof.
  assert (Hh : 0 < 8 < 9) by lia.
  assert (Hx : 0 <= 10 < 720) by lia.
  assert (Hp : 10 < palette_width) by (unfold palette_width; lia).
  assert (Hy : 0 <= 3 < 8) by lia.
  split; [exact Hh|]. split; [exact Hx|]. split; [exact Hp|].
  split; [exact Hy|].
  destruct (short_display_raises 720 8 exact 1 10 3 []
              (initial_state exact (blank 720 8 0) 65535) Hh Hx Hp Hy)
    as (Hs & Hc & Ht & _).
  split; [exact Hs|]. split; [exact Hc|exact Ht].
Defined.

(** The 480 by 480 display: the rows 477 to 479 take no branch. *)
Lemma remainder_rows_witness :
  9 <= 480 /\
  (classify 480 480 10 477 = Ok NoBranch <->
   0 <= 10 < 480 /\ 10 < palette_width /\
   9 * section_height 480 <= 477 < 480) /\
  (9 * section_height 480 < 480 <-> 480 mod 9 <> 0).
Proof.
  assert (H9 : 9 <= 480) by lia.
  split; [exact H9|].
  destruct (remainder_rows 480 480 exact 1 10 477
              (initial_state exact (blank 480 480 0) 65535) H9)
    as (Hc & _ & Hr).
  split; [exact Hc|exact Hr].
Defined.

Lemma off_display_sample_ignored_witness :
  Forall (fun touch => ~ (0 <= fst touch < 720 /\ 0 <= snd touch < 720))
         [(800, 10); (-1, 5)] /\
  loop_iteration 720 720 exact (1%Q, Touching [(800, 10); (-1, 5)])
    demo_painter = Ok demo_painter.
Proof.
  assert (Hoff : Forall (fun touch =>
                           ~ (0 <= fst touch < 720 /\ 0 <= snd touch < 720))
                        [(800, 10); (-1, 5)])
    by (repeat constructor; cbn; lia).
  split; [exact Hoff|].
  exact (proj2 (off_display_sample_ignored 720 720 exact 1
                  [(800, 10); (-1, 5)] demo_painter Hoff)).
Defined.

(** The size button pressed, the finger slides onto the canvas and back. *)
Lemma latch_persists_witness :
  9 <= 720 /\
  Forall (fun sample => snd sample <> Untouched)
         [((11 # 10)%Q, Touching [(300, 300)]);
          ((12 # 10)%Q, Touching [(10, 650)])] /\
  pressed Size (set_size_button_pressed true demo_painter) = true /\
  exists st',
    run 720 720 exact
        [((11 # 10)%Q, Touching [(300, 300)]);
         ((12 # 10)%Q, Touching [(10, 650)])]
        (set_size_button_pressed true demo_painter) = Ok st' /\
    pressed Size st' = true /\
    last_change Size st' =
      last_change Size (set_size_button_pressed true demo_painter) /\
    activations Size st' =
      activations Size (set_size_button_pressed true demo_painter).
Proof.
  assert (H9 : 9 <= 720) by lia.
  assert (Hs : Forall (fun sample : Q * touch_poll => snd sample <> Untouched)
                      [((11 # 10)%Q, Touching [(300, 300)]);
                       ((12 # 10)%Q, Touching [(10, 650)])])
    by (repeat constructor; discriminate).
  split; [exact H9|]. split; [exact Hs|]. split; [reflexivity|].
  exact (latch_persists 720 720 exact Size _ H9 Hs
           (set_size_button_pressed true demo_painter)
           demo_canvas_sized eq_refl).
Defined.

(** Two fingers on the canvas in one sample. *)
Lemma stroke_is_polyline_witness :
  9 <= 720 /\
  Forall (fun tp : Q * (Z * Z) =>
            classify 720 720 (fst (snd tp)) (snd (snd tp)) = Ok Canvas)
         [(1%Q, (300, 300)); (1%Q, (310, 305))] /\
  exists st',
    process_touches 720 720 exact [(1%Q, (300, 300)); (1%Q, (310, 305))]
      demo_painter = Ok st' /\
    stroke 720 720 exact demo_canvas None [(300, 300); (310, 305)] 65535 6
      = Ok (bitmap st') /\
    stroke_start st' = Some (310, 305).
Proof.
  assert (H9 : 9 <= 720) by lia.
  assert (Hc : Forall (fun tp : Q * (Z * Z) =>
                         classify 720 720 (fst (snd tp)) (snd (snd tp))
                           = Ok Canvas)
                      [(1%Q, (300, 300)); (1%Q, (310, 305))])
    by (repeat constructor).
  split; [exact H9|]. split; [exact Hc|].
  destruct (stroke_is_polyline 720 720 exact _ H9 Hc demo_painter
              demo_canvas_sized) as (st' & Hrun & Hstroke & Hstart & _).
  exists st'. split; [exact Hrun|]. split; [exact Hstroke|exact Hstart].
Defined.

Lemma release_resets_witness :
  stroke_consistent (set_stroke (Some (300, 300)) true demo_painter) /\
  exists st',
    loop_iteration 720 720 exact (2%Q, Untouched)
      (set_stroke (Some (300, 300)) true demo_painter) = Ok st' /\
    idle st' /\ bitmap st' = demo_canvas.
Proof.
  assert (Hc : stroke_consistent
                 (set_stroke (Some (300, 300)) true demo_painter))
    by (split; [discriminate|reflexivity]).
  split; [exact Hc|].
  destruct (release_resets 720 720 exact 2 _ Hc)
    as (st' & Hrun & Hidle & _ & _ & Hbm & _).
  exists st'. split; [exact Hrun|]. split; [exact Hidle|exact Hbm].
Defined.

(** The palette of the 720 by 720 display under the conversion [rgb565]:
    the cyan band at column 100, and the drawing area. *)
Lemma create_bitmap_and_palette_spec_witness :
  palette_width <= 720 /\ display_sized 720 720 demo_palette /\
  exists bm,
    create_bitmap_and_palette 720 720 rgb565 demo_palette = Ok bm /\
    bm_pixel bm 100 90 = 1267 /\ bm_pixel bm 400 90 = 0.
Proof.
  assert (Hw : palette_width <= 720) by (unfold palette_width; lia).
  split; [exact Hw|]. split; [exact demo_palette_sized|].
  destruct (create_bitmap_and_palette_spec 720 720 rgb565 demo_palette Hw
              demo_palette_sized) as (bm & Hrun & _ & Hpx).
  exists bm. split; [exact Hrun|].
  rewrite !Hpx by lia. split; reflexivity.
Defined.

(** A touch at (100, 90), in the cyan band of the palette just built. *)
Lemma pick_from_fresh_palette_witness :
  9 <= 720 /\ palette_width <= 720 /\ display_sized 720 720 demo_palette /\
  0 <= 100 < palette_width /\ 0 <= 90 < 7 * section_height 720 /\
  exists bm st',
    create_bitmap_and_palette 720 720 rgb565 demo_palette = Ok bm /\
    process_touch 720 720 exact 1 (100, 90) (initial_state exact bm 65535)
      = Ok st' /\
    current_color st' = 1267.
Proof.
  assert (H9 : 9 <= 720) by lia.
  assert (Hw : palette_width <= 720) by (unfold palette_width; lia).
  assert (Hx : 0 <= 100 < palette_width) by (unfold palette_width; lia).
  assert (Hy : 0 <= 90 < 7 * section_height 720) by (change (section_height 720) with 80; lia).
  split; [exact H9|]. split; [exact Hw|]. split; [exact demo_palette_sized|].
  split; [exact Hx|]. split; [exact Hy|].
  destruct (pick_from_fresh_palette 720 720 rgb565 exact demo_palette 65535 1
              100 90 H9 Hw demo_palette_sized Hx Hy)
    as (bm & st' & Hrun & Ht & Hc & _).
  exists bm, st'. split; [exact Hrun|]. split; [exact Ht|].
  rewrite Hc. reflexivity.
Defined.

Lemma buttons_match_regions_witness :
  9 <= 720 /\ 0 <= 10 < 720 /\ 0 <= 650 < 720 /\
  (covers (size_tile 720) 10 650 = true <->
   classify 720 720 10 650 = Ok SizeButton) /\
  (covers (clear_tile 720) 10 650 = true <->
   classify 720 720 10 650 = Ok ClearButton).
Proof.
  assert (H9 : 9 <= 720) by lia.
  assert (Hx : 0 <= 10 < 720) by lia.
  assert (Hy : 0 <= 650 < 720) by lia.
  split; [exact H9|]. split; [exact Hx|]. split; [exact Hy|].
  destruct (buttons_match_regions 720 720 10 650 H9 Hx Hy)
    as (Hclear & Hsize & _).
  split; [exact Hsize|exact Hclear].
Defined.

(** The clear of the gradient bitmap. *)
Lemma fast_clear_rectangle_witness :
  display_sized 720 720 demo_palette /\
  exists bm',
    clear_drawing_area 720 720 demo_palette = Ok bm' /\
    bm_pixel bm' 160 5 = 0 /\ bm_pixel bm' 159 5 = 194.
Proof.
  split; [exact demo_palette_sized|].
  destruct (fast_clear_rectangle 720 720 demo_palette demo_palette_sized)
    as (bm' & Hrun & Hpx).
  exists bm'. split; [exact Hrun|]. rewrite !Hpx. split; reflexivity.
Defined.

Lemma band_channels_witness :
  0 <> 6 /\ 0 <= band_color 0 (rgb565 0xFFFFFF) <= 65535.
Proof.
  assert (H : 0 <> 6) by lia.
  split; [exact H|].
  exact (proj1 (band_channels (rgb565 0xFFFFFF)) 0 H).
Defined.

Lemma palette_gradient_witness :
  0 <= 80 < palette_width /\
  0 <= color_index 80 <= 253 /\ grey 80 = 65793 * color_index 80.
Proof.
  assert (H : 0 <= 80 < palette_width) by (unfold palette_width; lia).
  split; [exact H|].
  exact (proj1 palette_gradient 80 H).
Defined.
